(** * addresbook.py: contact records, address book and the birthday week

    A shallow embedding of [addresbook.py].  The classes [Field], [Name],
    [Phone], [Birthday], [Record] and [AddressBook] and the command
    [birthdays] are translated definition by definition; the parts of the
    Python runtime they call ([str.isdigit], [datetime.strptime], the
    proleptic Gregorian calendar of [datetime.date]) are modelled after
    CPython's reference implementation ([Lib/_strptime.py],
    [Lib/_pydatetime.py]), and [date.strftime] after CPython 3.11 on
    glibc.

    Conventions.
    - A Python [str] is a sequence of code points.  A Rocq [string] is read
      as the [str] whose code points are the numbers of its characters, so
      the model covers the strings over U+0000..U+00FF.
    - Python integers are [Z]; [//] and [%] are [Z.div] and [Z.modulo].
    - A call that may raise returns a [result]; a method that mutates its
      receiver is a state transformer that also returns the state in which
      the exception left the object. *)

From Stdlib Require Import ZArith List String Ascii Bool Lia DecimalString.
Import ListNotations.

Local Open Scope string_scope.
Local Open Scope Z_scope.

(** ** Exceptions *)

Inductive exn : Type :=
| ValueError (msg : string)
| OverflowError (msg : string).

Inductive result (A : Type) : Type :=
| Ok (a : A)
| Raise (e : exn).

Arguments Ok {A} a.
Arguments Raise {A} e.

Definition rbind {A B : Type} (r : result A) (f : A -> result B) : result B :=
  match r with
  | Ok a => f a
  | Raise e => Raise e
  end.

Notation "x <- r ;; k" := (rbind r (fun x => k))
  (at level 61, r at next level, right associativity).

(** ** Python strings *)

Definition code (c : ascii) : Z := Z.of_N (N_of_ascii c).

Definition len (s : string) : Z := Z.of_nat (String.length s).

Fixpoint str_all (p : ascii -> bool) (s : string) : bool :=
  match s with
  | EmptyString => true
  | String c s' => p c && str_all p s'
  end.

(** The characters of general category Nd below U+0100: what [\d] matches
    in a [str] pattern and what [int] accepts as a digit. *)
Definition is_decimal (c : ascii) : bool :=
  (48 <=? code c) && (code c <=? 57).

(** [c.isdigit()]: Numeric_Type Decimal or Digit.  Below U+0100 these are
    the ten decimal digits and the superscripts U+00B2, U+00B3, U+00B9. *)
Definition char_isdigit (c : ascii) : bool :=
  is_decimal c || (code c =? 178) || (code c =? 179) || (code c =? 185).

(** [s.isdigit()]: every character is a digit and there is at least one. *)
Definition isdigit (s : string) : bool :=
  match s with
  | EmptyString => false
  | String _ _ => str_all char_isdigit s
  end.

Definition is_space (c : ascii) : bool :=
  ((9 <=? code c) && (code c <=? 13)) || ((28 <=? code c) && (code c <=? 32))
  || (code c =? 133) || (code c =? 160).

Fixpoint lstrip (s : string) : string :=
  match s with
  | EmptyString => EmptyString
  | String c s' => if is_space c then lstrip s' else s
  end.

Fixpoint int_digits (s : string) (acc : Z) : result Z :=
  match s with
  | EmptyString => Ok acc
  | String c s' =>
      if is_decimal c then int_digits s' (10 * acc + (code c - 48))
      else Raise (ValueError "invalid literal for int() with base 10")
  end.

(** [int(s)] on the texts the date pattern can capture: optional leading
    white space, then decimal digits. *)
Definition int (s : string) : result Z :=
  match lstrip s with
  | EmptyString => Raise (ValueError "invalid literal for int() with base 10")
  | t => int_digits t 0
  end.

Definition digit_char (n : Z) : ascii := ascii_of_N (Z.to_N (48 + n)).

(** [str(n)], which is also [%d] of [n]: the decimal digits of an integer,
    without padding. *)
Definition str_int (n : Z) : string := NilZero.string_of_int (Z.to_int n).

(** [%02d] and [%04d] of a number in range. *)
Definition pad2 (n : Z) : string :=
  String (digit_char (n / 10 mod 10)) (String (digit_char (n mod 10)) EmptyString).

Definition pad4 (n : Z) : string :=
  String (digit_char (n / 1000 mod 10)) (String (digit_char (n / 100 mod 10)) (pad2 n)).

(** ** Regular expressions, as the backtracking matcher of [re] runs them *)

Module re.

Inductive regex : Type :=
| Chr (c : ascii)                    (* a literal character *)
| Range (lo hi : ascii)              (* [lo-hi] *)
| Digit                              (* \d *)
| Cat (r1 r2 : regex)
| Alt (r1 r2 : regex)                (* r1|r2, r1 tried first *)
| Group (name : string) (r : regex). (* (?P<name>r) *)

Definition groups : Type := list (string * string).

(** The text consumed between the subject [s] and its suffix [s']. *)
Definition consumed (s s' : string) : string :=
  substring 0 (String.length s - String.length s') s.

Fixpoint run {A : Type} (r : regex) (s : string) (g : groups)
    (k : string -> groups -> option A) : option A :=
  match r with
  | Chr c =>
      match s with
      | String a s' => if Ascii.eqb a c then k s' g else None
      | EmptyString => None
      end
  | Range lo hi =>
      match s with
      | String a s' =>
          if (code lo <=? code a) && (code a <=? code hi) then k s' g else None
      | EmptyString => None
      end
  | Digit =>
      match s with
      | String a s' => if is_decimal a then k s' g else None
      | EmptyString => None
      end
  | Cat r1 r2 => run r1 s g (fun s' g' => run r2 s' g' k)
  | Alt r1 r2 =>
      match run r1 s g k with
      | Some x => Some x
      | None => run r2 s g k
      end
  | Group name r1 => run r1 s g (fun s' g' => k s' ((name, consumed s s') :: g'))
  end.

(** [pattern.match(s)]: anchored at the start, the first way to match in
    priority order; the result is the captured groups and [m.end()]. *)
Definition match_ (r : regex) (s : string) : option (groups * Z) :=
  run r s [] (fun s' g => Some (g, len s - len s')).

(** [pattern.fullmatch(s)]. *)
Definition fullmatch (r : regex) (s : string) : bool :=
  match run r s [] (fun s' g => match s' with EmptyString => Some tt | _ => None end) with
  | Some _ => true
  | None => false
  end.

Fixpoint group (name : string) (g : groups) : string :=
  match g with
  | [] => EmptyString
  | (n, v) :: g' => if String.eqb n name then v else group name g'
  end.

Fixpoint seq_of (rs : list regex) (last : regex) : regex :=
  match rs with
  | [] => last
  | r :: rs' => Cat r (seq_of rs' last)
  end.

End re.

(** ** The calendar of [datetime.date] *)

Module datetime.

Definition MINYEAR : Z := 1.
Definition MAXYEAR : Z := 9999.

Definition DAYS_IN_MONTH : list Z :=
  [-1; 31; 28; 31; 30; 31; 30; 31; 31; 30; 31; 30; 31].

Definition DAYS_BEFORE_MONTH : list Z :=
  [-1; 0; 31; 59; 90; 120; 151; 181; 212; 243; 273; 304; 334].

Definition tbl (t : list Z) (i : Z) : Z := nth (Z.to_nat i) t 0.

Definition is_leap (year : Z) : bool :=
  (year mod 4 =? 0) && (negb (year mod 100 =? 0) || (year mod 400 =? 0)).

Definition days_before_year (year : Z) : Z :=
  let y := year - 1 in
  y * 365 + y / 4 - y / 100 + y / 400.

Definition days_in_month (year month : Z) : Z :=
  if (month =? 2) && is_leap year then 29 else tbl DAYS_IN_MONTH month.

Definition days_before_month (year month : Z) : Z :=
  tbl DAYS_BEFORE_MONTH month + (if (month >? 2) && is_leap year then 1 else 0).

Definition ymd2ord (year month day : Z) : Z :=
  days_before_year year + days_before_month year month + day.

Definition DI400Y : Z := 146097.
Definition DI100Y : Z := 36524.
Definition DI4Y : Z := 1461.
Definition MAXORDINAL : Z := 3652059.

(** From a day of the year counted from 0 to the month and day. *)
Definition month_day (leapyear : bool) (n : Z) : Z * Z :=
  let month := Z.shiftr (n + 50) 5 in
  let preceding :=
    tbl DAYS_BEFORE_MONTH month + (if (month >? 2) && leapyear then 1 else 0) in
  if preceding >? n then
    let month' := month - 1 in
    let preceding' :=
      preceding
      - (tbl DAYS_IN_MONTH month' + (if (month' =? 2) && leapyear then 1 else 0)) in
    (month', n - preceding' + 1)
  else (month, n - preceding + 1).

Definition ord2ymd (ordinal : Z) : Z * Z * Z :=
  let n := ordinal - 1 in
  let n400 := n / DI400Y in
  let n := n mod DI400Y in
  let year := n400 * 400 + 1 in
  let n100 := n / DI100Y in
  let n := n mod DI100Y in
  let n4 := n / DI4Y in
  let n := n mod DI4Y in
  let n1 := n / 365 in
  let n := n mod 365 in
  let year := year + (n100 * 100 + n4 * 4 + n1) in
  if (n1 =? 4) || (n100 =? 4) then (year - 1, 12, 31)
  else
    let leapyear := (n1 =? 3) && (negb (n4 =? 24) || (n100 =? 3)) in
    let (month, day) := month_day leapyear n in
    (year, month, day).

Record date : Type := mkdate { year : Z; month : Z; day : Z }.

(** [date(year, month, day)]: the constructor checks its fields.  The
    texts of the messages are those of CPython 3.8 to 3.13. *)
Definition new (y m d : Z) : result date :=
  if negb ((MINYEAR <=? y) && (y <=? MAXYEAR)) then
    Raise (ValueError ("year " ++ str_int y ++ " is out of range"))
  else if negb ((1 <=? m) && (m <=? 12)) then
    Raise (ValueError "month must be in 1..12")
  else if negb ((1 <=? d) && (d <=? days_in_month y m)) then
    Raise (ValueError "day is out of range for month")
  else Ok (mkdate y m d).

(** The dates the constructor accepts: every [date] object is one. *)
Definition valid (d : date) : Prop :=
  MINYEAR <= year d <= MAXYEAR /\ 1 <= month d <= 12 /\
  1 <= day d <= days_in_month (year d) (month d).

(** [d.replace(year=y)]. *)
Definition replace_year (d : date) (y : Z) : result date :=
  new y (month d) (day d).

Definition toordinal (d : date) : Z := ymd2ord (year d) (month d) (day d).

Definition fromordinal (n : Z) : result date :=
  let '(y, m, d) := ord2ymd n in new y m d.

(** [a < b]: the fields compared as a tuple. *)
Definition lt (a b : date) : bool :=
  (year a <? year b)
  || ((year a =? year b)
      && ((month a <? month b) || ((month a =? month b) && (day a <? day b)))).

(** [(a - b).days]. *)
Definition sub_days (a b : date) : Z := toordinal a - toordinal b.

(** [d + timedelta(days=n)]. *)
Definition add_days (d : date) (n : Z) : result date :=
  let o := toordinal d + n in
  if (0 <? o) && (o <=? MAXORDINAL) then fromordinal o
  else Raise (OverflowError "date value out of range").

(** Monday is 0, Sunday is 6. *)
Definition weekday (d : date) : Z := (toordinal d + 6) mod 7.

(** [d.strftime("%d.%m.%Y")].  CPython hands [%Y] to the C library; the
    model follows glibc, which writes the year without padding: the year
    999 is written "999".  The birthday of a record can be of any year from
    1 on. *)
Definition strftime_dmY (d : date) : string :=
  pad2 (day d) ++ "." ++ pad2 (month d) ++ "." ++ str_int (year d).

(** [d.strftime("%Y.%m.%d")].  [birthdays] calls it on dates of the year
    of [datetime.now()] or of the year after; the year is written with four
    digits, which is what the C library does from the year 1000 on. *)
Definition strftime_Ymd (d : date) : string :=
  pad4 (year d) ++ "." ++ pad2 (month d) ++ "." ++ pad2 (day d).

(** The pattern [_strptime] compiles for the format ["%d.%m.%Y"]:
    [(?P<d>3[0-1]|[1-2]\d|0[1-9]|[1-9]| [1-9])\.(?P<m>1[0-2]|0[1-9]|[1-9])\.(?P<Y>\d\d\d\d)]. *)
Definition re_d : re.regex :=
  re.Alt (re.Cat (re.Chr "3") (re.Range "0" "1"))
  (re.Alt (re.Cat (re.Range "1" "2") re.Digit)
  (re.Alt (re.Cat (re.Chr "0") (re.Range "1" "9"))
  (re.Alt (re.Range "1" "9")
          (re.Cat (re.Chr " ") (re.Range "1" "9"))))).

Definition re_m : re.regex :=
  re.Alt (re.Cat (re.Chr "1") (re.Range "0" "2"))
  (re.Alt (re.Cat (re.Chr "0") (re.Range "1" "9"))
          (re.Range "1" "9")).

Definition re_Y : re.regex :=
  re.Cat re.Digit (re.Cat re.Digit (re.Cat re.Digit re.Digit)).

Definition format_regex : re.regex :=
  re.seq_of [re.Group "d" re_d; re.Chr "."; re.Group "m" re_m; re.Chr "."]
            (re.Group "Y" re_Y).

(** [datetime.strptime(data_string, "%d.%m.%Y").date()]. *)
Definition strptime (data_string : string) : result date :=
  match re.match_ format_regex data_string with
  | None => Raise (ValueError "time data does not match format")
  | Some (found, end_) =>
      if negb (len data_string =? end_) then
        Raise (ValueError "unconverted data remains")
      else
        y <- int (re.group "Y" found) ;;
        m <- int (re.group "m" found) ;;
        d <- int (re.group "d" found) ;;
        new y m d
  end.

End datetime.

(** ** Fields *)

(** [class Name(Field)]. *)
Module Name.

Record t : Type := mk { value : string }.

Definition str (self : t) : string := value self.

End Name.

(** [class Phone(Field)]. *)
Module Phone.

Record t : Type := mk { value : string }.

Definition init (value : string) : result t :=
  if negb (len value =? 10) || negb (isdigit value) then
    Raise (ValueError "Phone number must be 10 digits")
  else Ok (mk value).

Definition str (self : t) : string := value self.

End Phone.

(** [class Birthday(Field)]. *)
Module Birthday.

Record t : Type := mk { value : datetime.date }.

Definition init (value : string) : result t :=
  match datetime.strptime value with
  | Ok d => Ok (mk d)
  | Raise (ValueError _) => Raise (ValueError "Invalid date format. Use DD.MM.YYYY")
  | Raise e => Raise e
  end.

Definition str (self : t) : string := datetime.strftime_dmY (value self).

End Birthday.

(** ** [class Record] *)

Module Record.

Record t : Type := mk {
  name : Name.t;
  phones : list Phone.t;
  birthday : option Birthday.t
}.

Definition init (name : string) : t := mk (Name.mk name) [] None.

(** A method call: the receiver before, the receiver after, and what the
    call returned or raised. *)
Definition M (A : Type) : Type := t -> t * result A.

Definition ret {A : Type} (a : A) : M A := fun self => (self, Ok a).

Definition raise {A : Type} (e : exn) : M A := fun self => (self, Raise e).

Definition bind {A B : Type} (m : M A) (f : A -> M B) : M B :=
  fun self =>
    match m self with
    | (self', Ok a) => f a self'
    | (self', Raise e) => (self', Raise e)
    end.

Definition lift {A : Type} (r : result A) : M A := fun self => (self, r).

Definition get_phones : M (list Phone.t) := fun self => (self, Ok (phones self)).

Definition set_phones (ps : list Phone.t) : M unit :=
  fun self => (mk (name self) ps (birthday self), Ok tt).

Definition get_birthday : M (option Birthday.t) :=
  fun self => (self, Ok (birthday self)).

Definition set_birthday (b : option Birthday.t) : M unit :=
  fun self => (mk (name self) (phones self) b, Ok tt).

Notation "x <~ m ;; k" := (bind m (fun x => k))
  (at level 61, m at next level, right associativity).

Definition add_phone (number : string) : M unit :=
  phone <~ lift (Phone.init number) ;;
  ps <~ get_phones ;;
  set_phones (ps ++ [phone])%list.

Fixpoint remove_loop (number : string) (ps updated_phones : list Phone.t)
    : list Phone.t :=
  match ps with
  | [] => updated_phones
  | phone :: rest =>
      if negb (Phone.value phone =? number)%string then
        remove_loop number rest (updated_phones ++ [phone])%list
      else remove_loop number rest updated_phones
  end.

Definition remove_phone (number : string) : M unit :=
  ps <~ get_phones ;;
  set_phones (remove_loop number ps []).

(** The loop of [edit_phone]: the first phone equal to [old_number] gets the
    new value, then [break]. *)
Fixpoint edit_loop (old_number new_number : string) (ps : list Phone.t)
    : list Phone.t :=
  match ps with
  | [] => []
  | phone :: rest =>
      if (Phone.value phone =? old_number)%string then Phone.mk new_number :: rest
      else phone :: edit_loop old_number new_number rest
  end.

Definition edit_phone (old_number new_number : string) : M unit :=
  ps <~ get_phones ;;
  if negb (existsb (fun phone => (Phone.value phone =? old_number)%string) ps) then
    raise (ValueError "Old phone number is not exist")
  else if negb (len new_number =? 10) || negb (isdigit new_number) then
    raise (ValueError "New phone number must be 10 digits")
  else
    ps' <~ get_phones ;;
    set_phones (edit_loop old_number new_number ps').

Fixpoint find_loop (number : string) (ps : list Phone.t) : option Phone.t :=
  match ps with
  | [] => None
  | phone :: rest =>
      if (Phone.value phone =? number)%string then Some phone
      else find_loop number rest
  end.

Definition find_phone (number : string) (self : t) : option Phone.t :=
  find_loop number (phones self).

Definition add_birthday (value : string) : M unit :=
  b <~ get_birthday ;;
  match b with
  | None =>
      new <~ lift (Birthday.init value) ;;
      set_birthday (Some new)
  | Some _ => raise (ValueError "Only one birthday is allowed per record.")
  end.

Definition str (self : t) : string :=
  let phones := String.concat "; " (map Phone.value (phones self)) in
  let birthday_str :=
    match birthday self with
    | Some b => ", Birthday: " ++ Birthday.str b
    | None => EmptyString
    end in
  "Contact name: " ++ Name.value (name self) ++ ", phones: " ++ phones ++ birthday_str.

End Record.

(** ** [dict]: keys in insertion order *)

Module dict.

Section Dict.
Context {V : Type}.

Definition t : Type := list (string * V).

(** [k in d]. *)
Fixpoint contains (k : string) (d : t) : bool :=
  match d with
  | [] => false
  | (k', _) :: d' => (k' =? k)%string || contains k d'
  end.

(** [d.get(k)]. *)
Fixpoint get (k : string) (d : t) : option V :=
  match d with
  | [] => None
  | (k', v) :: d' => if (k' =? k)%string then Some v else get k d'
  end.

(** [d[k] = v]: a key already present keeps its place, a new key goes last. *)
Fixpoint setitem (k : string) (v : V) (d : t) : t :=
  match d with
  | [] => [(k, v)]
  | (k', v') :: d' =>
      if (k' =? k)%string then (k, v) :: d' else (k', v') :: setitem k v d'
  end.

(** [del d[k]] for a key that is present. *)
Fixpoint delitem (k : string) (d : t) : t :=
  match d with
  | [] => []
  | (k', v') :: d' => if (k' =? k)%string then d' else (k', v') :: delitem k d'
  end.

Definition keys (d : t) : list string := map fst d.

Definition values (d : t) : list V := map snd d.

End Dict.

Arguments t V : clear implicits.

End dict.

(** ** [class AddressBook(UserDict)] *)

Module AddressBook.

(** [self.data]. *)
Definition t : Type := dict.t Record.t.

Definition init : t := [].

Definition add_record (record : Record.t) (self : t) : t :=
  dict.setitem (Name.value (Record.name record)) record self.

Definition find (name : string) (self : t) : option Record.t :=
  dict.get name self.

Definition delete (name : string) (self : t) : t :=
  if dict.contains name self then dict.delitem name self else self.

End AddressBook.

(** ** The command [birthdays] *)

(** An element of [birthday_list]: the dictionary with the keys ["name"] and
    ["congratulation_date"]. *)
Record user : Type := mkuser {
  user_name : string;
  congratulation_date : string
}.

(** The birthday of the record moved to the year of [today], and to the
    year after when that day is already past. *)
Definition birthday_this_year (today birthday : datetime.date)
    : result datetime.date :=
  this_year <- datetime.replace_year birthday (datetime.year today) ;;
  if datetime.lt this_year today then
    datetime.replace_year this_year (datetime.year this_year + 1)
  else Ok this_year.

(** The weekend adjustment of lines 152 to 156. *)
Definition congratulation (date : datetime.date) : result datetime.date :=
  if datetime.weekday date >=? 5 then
    let days_until_monday := (7 - datetime.weekday date) mod 7 in
    datetime.add_days date days_until_monday
  else Ok date.

(** One turn of the loop over [book.data.values()]. *)
Definition birthdays_body (today : datetime.date) (record : Record.t)
    (birthday_list : list user) : result (list user) :=
  match Record.birthday record with
  | Some b =>
      let birthday := Birthday.value b in
      date <- birthday_this_year today birthday ;;
      let days_to_birthday := datetime.sub_days date today in
      if (0 <=? days_to_birthday) && (days_to_birthday <=? 7) then
        congratulation_date <- congratulation date ;;
        Ok (birthday_list ++
            [mkuser (Name.value (Record.name record))
                    (datetime.strftime_Ymd congratulation_date)])%list
      else Ok birthday_list
  | None => Ok birthday_list
  end.

Fixpoint birthdays_loop (today : datetime.date) (records : list Record.t)
    (birthday_list : list user) : result (list user) :=
  match records with
  | [] => Ok birthday_list
  | record :: rest =>
      birthday_list' <- birthdays_body today record birthday_list ;;
      birthdays_loop today rest birthday_list'
  end.

(** [birthday_list] when the loop is over, for the day [today] that
    [datetime.now().date()] returned.  Line 142 computes [next_week], which
    nothing uses, before the loop; the addition raises [OverflowError] in
    the last week of the year 9999. *)
Definition birthday_list (today : datetime.date) (book : AddressBook.t)
    : result (list user) :=
  next_week <- datetime.add_days today 7 ;;
  birthdays_loop today (dict.values book) [].

Definition newline : string := String "010"%char EmptyString.

(** What [birthdays] hands to [view.display]. *)
Definition birthdays (today : datetime.date) (book : AddressBook.t)
    : result string :=
  l <- birthday_list today book ;;
  match l with
  | [] => Ok "No birthdays in the next week."
  | _ =>
      let result :=
        String.concat newline
          (map (fun u => user_name u ++ ": " ++ congratulation_date u) l) in
      Ok ("Upcoming birthdays in the next week:" ++ newline ++ result)
  end.

(** The decorator [input_error]: an exception becomes the returned text. *)
Definition input_error {A : Type} (r : result A) : A + string :=
  match r with
  | Ok a => inl a
  | Raise (ValueError msg) => inr ("Error: " ++ msg)
  | Raise (OverflowError msg) => inr ("Error: " ++ msg)
  end.

(** ** Calls on an address book *)

(** The methods of [Record] that mutate the receiver. *)
Inductive method : Type :=
| call_add_phone (number : string)
| call_remove_phone (number : string)
| call_edit_phone (old_number new_number : string)
| call_add_birthday (value : string).

Definition invoke (m : method) : Record.M unit :=
  match m with
  | call_add_phone number => Record.add_phone number
  | call_remove_phone number => Record.remove_phone number
  | call_edit_phone old_number new_number => Record.edit_phone old_number new_number
  | call_add_birthday value => Record.add_birthday value
  end.

(** What a caller can do to an address book: add a record, delete a name,
    or look a record up and call a method on the object it got, which is the
    object the book holds. *)
Inductive op : Type :=
| op_add_record (record : Record.t)
| op_delete (name : string)
| op_method (name : string) (m : method).

Definition step (book : AddressBook.t) (o : op) : AddressBook.t :=
  match o with
  | op_add_record record => AddressBook.add_record record book
  | op_delete name => AddressBook.delete name book
  | op_method name m =>
      match AddressBook.find name book with
      | Some record => dict.setitem name (fst (invoke m record)) book
      | None => book
      end
  end.

Definition run_ops (ops : list op) : AddressBook.t :=
  fold_left step ops AddressBook.init.

(** ** What the specification says, in the terms of the model *)

(** The pattern [^\d{10}$] of the specification. *)
Definition spec_phone_pattern : re.regex :=
  re.seq_of (repeat re.Digit 9) re.Digit.

(** "length exactly 10 and every character is a decimal digit". *)
Definition spec_ten_decimal_digits (raw : string) : Prop :=
  len raw = 10 /\ str_all is_decimal raw = true.

(** The rule [Phone] and [edit_phone] apply. *)
Definition ten_digits (raw : string) : Prop :=
  len raw = 10 /\ str_all char_isdigit raw = true.

(** Nine decimal digits followed by SUPERSCRIPT TWO (U+00B2). *)
Definition superscript_phone : string :=
  "123456789" ++ String "178"%char EmptyString.

(** The names in the order of their first occurrence. *)
Fixpoint first_occurrences (seen names : list string) : list string :=
  match names with
  | [] => []
  | k :: rest =>
      if existsb (String.eqb k) seen then first_occurrences seen rest
      else k :: first_occurrences (k :: seen) rest
  end.

(** The names passed to [add_record] in a history, oldest first. *)
Fixpoint inserted_names (ops : list op) : list string :=
  match ops with
  | [] => []
  | op_add_record record :: rest =>
      Name.value (Record.name record) :: inserted_names rest
  | _ :: rest => inserted_names rest
  end.

(** "insertion order of each key's first-ever insertion". *)
Definition spec_first_ever_order (ops : list op) : list string :=
  first_occurrences [] (inserted_names ops).

(** The last record of [rs] that has the name [k]. *)
Fixpoint last_named (k : string) (rs : list Record.t) (found : option Record.t)
    : option Record.t :=
  match rs with
  | [] => found
  | r :: rest =>
      if (Name.value (Record.name r) =? k)%string then last_named k rest (Some r)
      else last_named k rest found
  end.

(** The keys of a dictionary are pairwise different. *)
Definition wf {V : Type} (d : dict.t V) : Prop := NoDup (dict.keys d).

(** The scenario of section 8 of the specification. *)
Definition today_2024_06_10 : datetime.date := datetime.mkdate 2024 6 10.

Definition ann : Record.t :=
  Record.mk (Name.mk "Ann") [] (Some (Birthday.mk (datetime.mkdate 1990 6 12))).

Definition bob : Record.t :=
  Record.mk (Name.mk "Bob") [] (Some (Birthday.mk (datetime.mkdate 1995 6 15))).

Definition cid : Record.t :=
  Record.mk (Name.mk "Cid") [] (Some (Birthday.mk (datetime.mkdate 1990 1 1))).

Definition scenario_book : AddressBook.t :=
  AddressBook.add_record cid
    (AddressBook.add_record bob (AddressBook.add_record ann AddressBook.init)).

(** A record born on a leap day, and a day in a year that has none. *)
Definition eve : Record.t :=
  Record.mk (Name.mk "Eve") [] (Some (Birthday.mk (datetime.mkdate 2000 2 29))).

Definition leap_book : AddressBook.t :=
  AddressBook.add_record eve AddressBook.init.

Definition today_2023_06_10 : datetime.date := datetime.mkdate 2023 6 10.

(** The day after a leap day. *)
Definition today_2024_03_01 : datetime.date := datetime.mkdate 2024 3 1.

(** Every record is stored under its own name. *)
Definition keyed (book : AddressBook.t) : Prop :=
  forall k r, In (k, r) book -> Name.value (Record.name r) = k.

(** The names of the records that [all()] yields, in its order. *)
Definition all_names (book : AddressBook.t) : list string :=
  map (fun r => Name.value (Record.name r)) (dict.values book).

Definition no_delete (ops : list op) : Prop :=
  forall o, In o ops -> forall k, o <> op_delete k.

(** Add "A", add "B", delete "A", add "A" again. *)
Definition readd_history : list op :=
  [op_add_record (Record.init "A"); op_add_record (Record.init "B");
   op_delete "A"; op_add_record (Record.init "A")].

(** "Replace the birthday's year with today's year and roll forward one year
    when that date is strictly before today", on the fields alone. *)
Definition spec_next_birthday (today birthday : datetime.date) : datetime.date :=
  let this_year :=
    datetime.mkdate (datetime.year today) (datetime.month birthday)
      (datetime.day birthday) in
  if datetime.lt this_year today then
    datetime.mkdate (datetime.year today + 1) (datetime.month birthday)
      (datetime.day birthday)
  else this_year.

(** "The record has a birthday set and the day difference from today is
    between 0 and 7 inclusive". *)
Definition spec_in_window (today : datetime.date) (r : Record.t) : bool :=
  match Record.birthday r with
  | Some b =>
      let date := spec_next_birthday today (Birthday.value b) in
      (0 <=? datetime.sub_days date today) && (datetime.sub_days date today <=? 7)
  | None => false
  end.

(** "A date on Saturday or Sunday is moved forward by 2 or 1 days to the
    next Monday", any other date is kept. *)
Definition spec_adjusted (date adjusted : datetime.date) : Prop :=
  (datetime.weekday date = 5 ->
   datetime.toordinal adjusted = datetime.toordinal date + 2 /\
   datetime.weekday adjusted = 0) /\
  (datetime.weekday date = 6 ->
   datetime.toordinal adjusted = datetime.toordinal date + 1 /\
   datetime.weekday adjusted = 0) /\
  (datetime.weekday date <> 5 -> datetime.weekday date <> 6 -> adjusted = date).

(** The entry the specification asks for a record in the window. *)
Definition spec_entry (today : datetime.date) (r : Record.t) (u : user) : Prop :=
  exists b adjusted,
    Record.birthday r = Some b /\
    datetime.valid (spec_next_birthday today (Birthday.value b)) /\
    datetime.valid adjusted /\
    spec_adjusted (spec_next_birthday today (Birthday.value b)) adjusted /\
    user_name u = Name.value (Record.name r) /\
    congratulation_date u =
    pad4 (datetime.year adjusted) ++ "." ++ pad2 (datetime.month adjusted) ++ "."
    ++ pad2 (datetime.day adjusted).

(** Every birthday of the book is a date of the calendar and none is a
    29 February. *)
Definition no_leap_day (book : AddressBook.t) : Prop :=
  forall r b,
    In r (dict.values book) -> Record.birthday r = Some b ->
    datetime.valid (Birthday.value b) /\
    ~ (datetime.month (Birthday.value b) = 2 /\ datetime.day (Birthday.value b) = 29).

(** The text DD.MM.YYYY of a date: two digits, two digits, four digits. *)
Definition spec_dmY_text (d : datetime.date) : string :=
  pad2 (datetime.day d) ++ "." ++ pad2 (datetime.month d) ++ "."
  ++ pad4 (datetime.year d).

(** *** What [Birthday] accepts, in the words of the amended claim *)

Definition digit_value (c : ascii) : Z := code c - 48.

(** The number that the digits of a text write; a space counts for
    nothing. *)
Fixpoint spec_number_from (s : string) (acc : Z) : Z :=
  match s with
  | EmptyString => acc
  | String c s' =>
      spec_number_from s' (if is_decimal c then 10 * acc + digit_value c else acc)
  end.

Definition spec_number (s : string) : Z := spec_number_from s 0.

(** A day: two digits from 01 to 31, or one digit from 1 to 9, alone or
    after one space. *)
Definition spec_day_text (s : string) : bool :=
  match s with
  | String c EmptyString => is_decimal c && (1 <=? digit_value c)
  | String c1 (String c2 EmptyString) =>
      (Ascii.eqb c1 " " && is_decimal c2 && (1 <=? digit_value c2))
      || (is_decimal c1 && is_decimal c2
          && (1 <=? 10 * digit_value c1 + digit_value c2)
          && (10 * digit_value c1 + digit_value c2 <=? 31))
  | _ => false
  end.

(** A month: two digits from 01 to 12, or one digit from 1 to 9. *)
Definition spec_month_text (s : string) : bool :=
  match s with
  | String c EmptyString => is_decimal c && (1 <=? digit_value c)
  | String c1 (String c2 EmptyString) =>
      is_decimal c1 && is_decimal c2
      && (1 <=? 10 * digit_value c1 + digit_value c2)
      && (10 * digit_value c1 + digit_value c2 <=? 12)
  | _ => false
  end.

(** A year: exactly four digits. *)
Definition spec_year_text (s : string) : bool :=
  (len s =? 4) && str_all is_decimal s.

(** [raw] is day.month.year in these forms and names the date [d] of the
    calendar. *)
Definition spec_date_text (raw : string) (d : datetime.date) : Prop :=
  exists D M Y,
    raw = D ++ "." ++ M ++ "." ++ Y /\
    spec_day_text D = true /\ spec_month_text M = true /\
    spec_year_text Y = true /\
    d = datetime.mkdate (spec_number Y) (spec_number M) (spec_number D) /\
    datetime.valid d.

(** *** What a pattern matches, apart from the order of the search *)

(** [re_matches r s g s' g']: [r] matches the text between [s] and its
    suffix [s'] and adds to the groups [g] what makes them [g']. *)
Inductive re_matches
    : re.regex -> string -> re.groups -> string -> re.groups -> Prop :=
| matches_chr c s g : re_matches (re.Chr c) (String c s) g s g
| matches_range lo hi a s g :
    (code lo <=? code a) && (code a <=? code hi) = true ->
    re_matches (re.Range lo hi) (String a s) g s g
| matches_digit a s g :
    is_decimal a = true -> re_matches re.Digit (String a s) g s g
| matches_cat r1 r2 s g s1 g1 s2 g2 :
    re_matches r1 s g s1 g1 -> re_matches r2 s1 g1 s2 g2 ->
    re_matches (re.Cat r1 r2) s g s2 g2
| matches_alt_l r1 r2 s g s' g' :
    re_matches r1 s g s' g' -> re_matches (re.Alt r1 r2) s g s' g'
| matches_alt_r r1 r2 s g s' g' :
    re_matches r2 s g s' g' -> re_matches (re.Alt r1 r2) s g s' g'
| matches_group name r s g s' g' :
    re_matches r s g s' g' ->
    re_matches (re.Group name r) s g s' ((name, re.consumed s s') :: g').

(** A day or a month as text: two digits, or one digit when [padded] is
    [false] and the number has one. *)
Definition text2 (padded : bool) (n : Z) : string :=
  if padded || (10 <=? n) then pad2 n else String (digit_char n) EmptyString.

(** * The commands and the main loop *)

(** ** [str.strip], [str.split] and [str.join] *)

Definition is_empty (s : string) : bool :=
  match s with
  | EmptyString => true
  | String _ _ => false
  end.

Fixpoint rstrip (s : string) : string :=
  match s with
  | EmptyString => EmptyString
  | String c s' =>
      match rstrip s' with
      | EmptyString => if is_space c then EmptyString else String c EmptyString
      | t => String c t
      end
  end.

(** [s.strip()]. *)
Definition strip (s : string) : string := rstrip (lstrip s).

(** The scan of [s.split()]: [word] is the word being read. *)
Fixpoint split_loop (s word : string) : list string :=
  match s with
  | EmptyString => if is_empty word then [] else [word]
  | String c s' =>
      if is_space c then
        if is_empty word then split_loop s' EmptyString
        else word :: split_loop s' EmptyString
      else split_loop s' (word ++ String c EmptyString)
  end.

(** [s.split()]: the words between runs of white space. *)
Definition split (s : string) : list string := split_loop s EmptyString.

Definition parse_input (user_input : string) : list string := split user_input.

(** [sep.join(words)]. *)
Definition join (sep : string) (words : list string) : string :=
  String.concat sep words.

(** ** The view and the decorator *)

(** What a command works on: the address book and, for the view, the
    messages it was asked to display, oldest first. *)
Record world : Type := mkworld {
  book : AddressBook.t;
  shown : list string
}.

(** [view.display(message)]. *)
Definition display (message : string) (w : world) : world :=
  mkworld (book w) (shown w ++ [message])%list.

(** The exceptions a command can end with. *)
Inductive exception : Type :=
| Builtin (e : exn)
| IndexError (msg : string).

(** [str(e)]. *)
Definition str_exception (e : exception) : string :=
  match e with
  | Builtin (ValueError msg) => msg
  | Builtin (OverflowError msg) => msg
  | IndexError msg => msg
  end.

Inductive outcome : Type :=
| Return
| Throw (e : exception).

(** [wrapper] of [input_error]: what the decorated command returns, [None]
    or the text of the error. *)
Definition wrapper (r : world * outcome) : world * option string :=
  match r with
  | (w, Return) => (w, None)
  | (w, Throw e) => (w, Some ("Error: " ++ str_exception e))
  end.

(** The object that [book.find(name)] returned is the object the book
    holds: what a method does to it is done to the entry. *)
Definition store (name : string) (record : Record.t) (w : world) : world :=
  mkworld (dict.setitem name record (book w)) (shown w).

(** ** The commands *)

(** The text of the [ValueError] of a failed unpacking, as CPython 3.8 to
    3.13 words it. *)
Definition unpack_at_least_2 (args : list string) : string :=
  match args with
  | [] => "not enough values to unpack (expected at least 2, got 0)"
  | _ => "not enough values to unpack (expected at least 2, got 1)"
  end.

Definition unpack_2 (args : list string) : string :=
  match args with
  | [] => "not enough values to unpack (expected 2, got 0)"
  | [_] => "not enough values to unpack (expected 2, got 1)"
  | _ => "too many values to unpack (expected 2)"
  end.

Definition add_contact_func (args : list string) (w : world) : world * outcome :=
  match args with
  | name :: phone :: _ =>
      let '(record, w1, message) :=
        match AddressBook.find name (book w) with
        | None =>
            let record := Record.init name in
            (record, mkworld (AddressBook.add_record record (book w)) (shown w),
             "Contact added.")
        | Some record => (record, w, "Contact updated.")
        end in
      if negb (is_empty phone) then
        match Record.add_phone phone record with
        | (record', Ok _) => (display message (store name record' w1), Return)
        | (record', Raise e) => (store name record' w1, Throw (Builtin e))
        end
      else (display message w1, Return)
  | _ => (w, Throw (Builtin (ValueError (unpack_at_least_2 args))))
  end.

Definition add_contact (args : list string) (w : world) : world * option string :=
  wrapper (add_contact_func args w).

Definition add_birthday_func (args : list string) (w : world) : world * outcome :=
  match args with
  | [name; birthday] =>
      match AddressBook.find name (book w) with
      | Some record =>
          match Record.add_birthday birthday record with
          | (record', Ok _) =>
              (display ("Birthday added for " ++ name ++ ".") (store name record' w),
               Return)
          | (record', Raise e) => (store name record' w, Throw (Builtin e))
          end
      | None => (display ("Contact " ++ name ++ " not found.") w, Return)
      end
  | _ => (w, Throw (Builtin (ValueError (unpack_2 args))))
  end.

Definition add_birthday (args : list string) (w : world) : world * option string :=
  wrapper (add_birthday_func args w).

Definition show_birthday_func (args : list string) (w : world) : world * outcome :=
  match args with
  | name :: _ =>
      match AddressBook.find name (book w) with
      | Some (Record.mk _ _ (Some birthday)) =>
          (display (name ++ "'s birthday is on " ++ Birthday.str birthday ++ ".") w,
           Return)
      | _ => (display ("Contact " ++ name ++ " not found or birthday not set.") w,
              Return)
      end
  | [] => (w, Throw (IndexError "list index out of range"))
  end.

Definition show_birthday (args : list string) (w : world) : world * option string :=
  wrapper (show_birthday_func args w).

(** The command [birthdays], on the day that [datetime.now()] gives. *)
Definition birthdays_func (today : datetime.date) (w : world) : world * outcome :=
  match birthdays today (book w) with
  | Ok message => (display message w, Return)
  | Raise e => (w, Throw (Builtin e))
  end.

Definition birthdays_command (today : datetime.date) (w : world)
    : world * option string :=
  wrapper (birthdays_func today w).

Definition change_phone_func (args : list string) (w : world) : world * outcome :=
  match args with
  | [name; old_phone; new_phone] =>
      match AddressBook.find name (book w) with
      | Some record =>
          if negb (existsb (String.eqb old_phone)
                     (map Phone.value (Record.phones record))) then
            (display ("Error: Old phone number " ++ old_phone ++ " not found for "
                      ++ name ++ ".") w, Return)
          else
            match Record.edit_phone old_phone new_phone record with
            | (record', Ok _) =>
                (display ("Phone number updated for " ++ name ++ ".")
                   (store name record' w), Return)
            | (record', Raise (ValueError msg)) =>
                (display ("Error: " ++ msg) (store name record' w), Return)
            | (record', Raise e) => (store name record' w, Throw (Builtin e))
            end
      | None => (display ("Contact " ++ name ++ " not found.") w, Return)
      end
  | _ =>
      (display
         "Invalid command. Please provide name, old phone number, and new phone number after 'change'."
         w, Return)
  end.

Definition change_phone (args : list string) (w : world) : world * option string :=
  wrapper (change_phone_func args w).

Definition show_phone_func (args : list string) (w : world) : world * outcome :=
  match args with
  | [name] =>
      match AddressBook.find name (book w) with
      | Some record =>
          let phone_numbers := map Phone.str (Record.phones record) in
          (display (name ++ "'s phone number is " ++ join ", " phone_numbers ++ ".") w,
           Return)
      | None => (display ("Contact " ++ name ++ " not found.") w, Return)
      end
  | _ => (display "Invalid command. Please provide a name after 'phone'." w, Return)
  end.

Definition show_phone (args : list string) (w : world) : world * option string :=
  wrapper (show_phone_func args w).

Definition show_all_contacts_func (w : world) : world * outcome :=
  let contacts := map Record.str (dict.values (book w)) in
  match contacts with
  | [] => (display "Address book is empty." w, Return)
  | _ => (display (join newline contacts) w, Return)
  end.

Definition show_all_contacts (w : world) : world * option string :=
  wrapper (show_all_contacts_func w).

(** ** [main] *)

(** A line that [input] returns, and the day on which it is handled. *)
Record event : Type := mkevent {
  ev_line : string;
  ev_today : datetime.date
}.

(** How [main] ends: by [break], by the [EOFError] of [input] when there is
    no line left, or by the [ValueError] of [command, *args = ...]. *)
Inductive ending : Type :=
| Closed
| EndOfInput
| UnpackFailed.

(** The chain of [elif]s after the test for "close" and "exit". *)
Definition dispatch (command : string) (args : list string)
    (today : datetime.date) (w : world) : world :=
  if (command =? "hello")%string then display "How can I help you?" w
  else if (command =? "add")%string then fst (add_contact args w)
  else if (command =? "change")%string then fst (change_phone args w)
  else if (command =? "phone")%string then fst (show_phone args w)
  else if (command =? "all")%string then fst (show_all_contacts w)
  else if (command =? "add-birthday")%string then fst (add_birthday args w)
  else if (command =? "show-birthday")%string then fst (show_birthday args w)
  else if (command =? "birthdays")%string then fst (birthdays_command today w)
  else display "Invalid command." w.

Fixpoint main_loop (inputs : list event) (w : world) : world * ending :=
  match inputs with
  | [] => (w, EndOfInput)
  | ev :: rest =>
      let user_input := strip (ev_line ev) in
      if is_empty user_input then
        main_loop rest (display "Command not entered. Please enter a command." w)
      else
        match parse_input user_input with
        | [] => (w, UnpackFailed)
        | command :: args =>
            if existsb (String.eqb command) ["close"; "exit"] then
              (display "Good bye!" w, Closed)
            else main_loop rest (dispatch command args (ev_today ev) w)
        end
  end.

Definition main (inputs : list event) : world * ending :=
  main_loop inputs (display "Welcome to the assistant bot!" (mkworld AddressBook.init [])).

(** ** Properties of a book that the commands keep *)

Definition valid_phones (record : Record.t) : Prop :=
  forall phone, In phone (Record.phones record) -> ten_digits (Phone.value phone).

Definition valid_birthday (record : Record.t) : Prop :=
  forall b, Record.birthday record = Some b -> datetime.valid (Birthday.value b).

(** A word as [split] yields them: not empty and without white space. *)
Definition is_word (s : string) : Prop :=
  s <> EmptyString /\ str_all (fun c => negb (is_space c)) s = true.

Definition sound_book (b : AddressBook.t) : Prop :=
  wf b /\ keyed b /\
  forall k r, In (k, r) b -> valid_phones r /\ valid_birthday r.

(** How many phones of a list have the value [number]. *)
Definition count_phone (number : string) (ps : list Phone.t) : nat :=
  List.length (filter (fun p => (Phone.value p =? number)%string) ps).

(** A record after a sequence of method calls. *)
Definition call_all (ms : list method) (record : Record.t) : Record.t :=
  fold_left (fun r m => fst (invoke m r)) ms record.

(** The pattern [\d\d\.\d\d\.\d\d\d\d]. *)
Definition dmY_pattern : re.regex :=
  re.seq_of [re.Digit; re.Digit; re.Chr "."; re.Digit; re.Digit; re.Chr ".";
             re.Digit; re.Digit; re.Digit] re.Digit.

(** The line makes [main] leave its loop: its first word is "close" or
    "exit". *)
Definition is_exit (ev : event) : bool :=
  match parse_input (strip (ev_line ev)) with
  | command :: _ => existsb (String.eqb command) ["close"; "exit"]
  | [] => false
  end.

(** What a decorated command does to the view: one message when it returns
    [None], nothing when it returns the text of an error. *)
Definition one_message_or_error (w : world) (r : world * option string) : Prop :=
  match snd r with
  | None => exists message, shown (fst r) = (shown w ++ [message])%list
  | Some _ => shown (fst r) = shown w
  end.

(** What [main] keeps true of its book: [sound_book], and every name is a
    word of a line. *)
Definition session_book (b : AddressBook.t) : Prop :=
  sound_book b /\ Forall is_word (dict.keys b).

(** One turn of the loop of [main] on a line that does not end it. *)
Definition handle (ev : event) (w : world) : world :=
  let user_input := strip (ev_line ev) in
  if is_empty user_input then
    display "Command not entered. Please enter a command." w
  else
    match parse_input user_input with
    | [] => w
    | command :: args => dispatch command args (ev_today ev) w
    end.

(** * Proofs *)

(** ** Phones *)

Lemma is_decimal_isdigit (c : ascii) : is_decimal c = true -> char_isdigit c = true.
Proof. unfold char_isdigit. intros ->. reflexivity. Qed.

Lemma str_all_impl (p q : ascii -> bool) (s : string) :
  (forall c, p c = true -> q c = true) -> str_all p s = true -> str_all q s = true.
Proof.
  intros Hpq. induction s as [|c s IH]; simpl; [reflexivity|].
  rewrite !andb_true_iff. intros [Hc Hs]. auto.
Qed.

Lemma isdigit_str_all (s : string) :
  len s = 10 -> isdigit s = str_all char_isdigit s.
Proof. destruct s; [discriminate | reflexivity]. Qed.

Lemma Phone_init_eq (raw : string) :
  Phone.init raw =
  if (len raw =? 10) && str_all char_isdigit raw then Ok (Phone.mk raw)
  else Raise (ValueError "Phone number must be 10 digits").
Proof.
  unfold Phone.init. destruct (len raw =? 10) eqn:E; simpl; [|reflexivity].
  apply Z.eqb_eq in E. rewrite (isdigit_str_all _ E).
  destruct (str_all char_isdigit raw); reflexivity.
Qed.

Lemma ten_digits_dec (raw : string) :
  ten_digits raw <-> (len raw =? 10) && str_all char_isdigit raw = true.
Proof. unfold ten_digits. rewrite andb_true_iff, Z.eqb_eq. tauto. Qed.

Lemma Phone_init_ok (raw : string) :
  ten_digits raw -> Phone.init raw = Ok (Phone.mk raw).
Proof. intros H. apply ten_digits_dec in H. rewrite Phone_init_eq, H. reflexivity. Qed.

Lemma Phone_init_raise (raw : string) :
  ~ ten_digits raw ->
  Phone.init raw = Raise (ValueError "Phone number must be 10 digits").
Proof.
  intros H. rewrite Phone_init_eq.
  destruct ((len raw =? 10) && str_all char_isdigit raw) eqn:E; [|reflexivity].
  apply ten_digits_dec in E. contradiction.
Qed.

Lemma Phone_init_inv (raw : string) (p : Phone.t) :
  Phone.init raw = Ok p -> ten_digits raw /\ p = Phone.mk raw.
Proof.
  rewrite Phone_init_eq.
  destruct ((len raw =? 10) && str_all char_isdigit raw) eqn:E; [|discriminate].
  intros [= <-]. split; [now apply ten_digits_dec | reflexivity].
Qed.

Lemma fullmatch_phone_pattern_bool (raw : string) :
  re.fullmatch spec_phone_pattern raw =
  (String.length raw =? 10)%nat && str_all is_decimal raw.
Proof.
  unfold re.fullmatch, spec_phone_pattern.
  do 10 (destruct raw as [|? raw];
         [simpl; repeat (destruct (is_decimal _); simpl); reflexivity|]).
  simpl. repeat (destruct (is_decimal _); simpl; try reflexivity).
  all: destruct raw; reflexivity.
Qed.

Lemma fullmatch_phone_pattern (raw : string) :
  re.fullmatch spec_phone_pattern raw = true <-> spec_ten_decimal_digits raw.
Proof.
  rewrite fullmatch_phone_pattern_bool, andb_true_iff, Nat.eqb_eq.
  unfold spec_ten_decimal_digits, len. intuition lia.
Qed.

(** C3: [Phone] accepts a text that is not ten decimal digits.  Nine decimal
    digits followed by SUPERSCRIPT TWO (U+00B2) have length 10 and pass
    [str.isdigit], so [Phone] stores the text and renders it unchanged,
    although it is not made of ten decimal digits and does not match
    [^\d{10}$]; the specification has it refused, and the message of
    [Phone] itself, raised here for a text with a letter, asks for ten
    digits. *)
Theorem Phone_accepts_superscript_two :
  Phone.init superscript_phone = Ok (Phone.mk superscript_phone) /\
  Phone.str (Phone.mk superscript_phone) = superscript_phone /\
  len superscript_phone = 10 /\
  ~ spec_ten_decimal_digits superscript_phone /\
  re.fullmatch spec_phone_pattern superscript_phone = false /\
  Phone.init "123456789x" = Raise (ValueError "Phone number must be 10 digits").
Proof.
  repeat split. intros [_ H]. discriminate H.
Qed.

(** What [Phone] does on a text of characters below U+0100, the slip
    included: it succeeds exactly when the text has length 10 and every
    character is a digit in the sense of [str.isdigit], and raises the
    [ValueError] "Phone number must be 10 digits" otherwise; the stored
    value is the text itself and is rendered unchanged; every text of ten
    decimal digits, that is every match of [^\d{10}$], is accepted. *)
Lemma Phone_init_iff_ten_digits (raw : string) :
  ((exists p, Phone.init raw = Ok p) <-> ten_digits raw) /\
  (~ ten_digits raw ->
   Phone.init raw = Raise (ValueError "Phone number must be 10 digits")) /\
  (forall p, Phone.init raw = Ok p -> Phone.value p = raw /\ Phone.str p = raw) /\
  (spec_ten_decimal_digits raw -> Phone.init raw = Ok (Phone.mk raw)) /\
  (re.fullmatch spec_phone_pattern raw = true -> Phone.init raw = Ok (Phone.mk raw)).
Proof.
  assert (Hdec : spec_ten_decimal_digits raw -> Phone.init raw = Ok (Phone.mk raw)).
  { intros [Hl Hd]. apply Phone_init_ok. split; [exact Hl|].
    revert Hd. apply str_all_impl, is_decimal_isdigit. }
  split; [split|split; [|split; [|split]]].
  - intros [p Hp]. now apply Phone_init_inv in Hp.
  - intros H. exists (Phone.mk raw). now apply Phone_init_ok.
  - apply Phone_init_raise.
  - intros p H. apply Phone_init_inv in H. destruct H as [_ ->]. split; reflexivity.
  - exact Hdec.
  - intros H. apply Hdec. now apply fullmatch_phone_pattern.
Qed.

(** ** Methods of [Record] *)

Lemma remove_loop_filter (number : string) (ps acc : list Phone.t) :
  Record.remove_loop number ps acc =
  (acc ++ filter (fun p => negb (Phone.value p =? number)%string) ps)%list.
Proof.
  revert acc. induction ps as [|p ps IH]; intros acc; simpl.
  - now rewrite app_nil_r.
  - destruct (Phone.value p =? number)%string; simpl.
    + apply IH.
    + rewrite IH, <- app_assoc. reflexivity.
Qed.

Lemma filter_none (number : string) (ps : list Phone.t) :
  (forall p, In p ps -> Phone.value p <> number) ->
  filter (fun p => negb (Phone.value p =? number)%string) ps = ps.
Proof.
  induction ps as [|p ps IH]; intros H; simpl; [reflexivity|].
  destruct (String.eqb_spec (Phone.value p) number) as [E|E]; simpl.
  - exfalso. apply (H p); [now left | exact E].
  - f_equal. apply IH. intros q Hq. apply H. now right.
Qed.

Lemma existsb_phone (number : string) (ps : list Phone.t) :
  existsb (fun p => (Phone.value p =? number)%string) ps = true <->
  exists p, In p ps /\ Phone.value p = number.
Proof.
  rewrite existsb_exists. split; intros [p [Hin Hp]]; exists p; split; auto.
  - now apply String.eqb_eq.
  - now apply String.eqb_eq.
Qed.

Lemma edit_loop_first (old_number new_number : string) (ps : list Phone.t) :
  (exists p, In p ps /\ Phone.value p = old_number) ->
  exists l1 l2,
    ps = (l1 ++ Phone.mk old_number :: l2)%list /\
    (forall p, In p l1 -> Phone.value p <> old_number) /\
    Record.edit_loop old_number new_number ps =
    (l1 ++ Phone.mk new_number :: l2)%list.
Proof.
  induction ps as [|p ps IH]; intros [q [Hin Hq]]; [destruct Hin|].
  simpl. destruct (String.eqb_spec (Phone.value p) old_number) as [E|E].
  - exists [], ps. destruct p as [v]. simpl in E. subst v.
    repeat split. intros ? [].
  - destruct Hin as [->|Hin]; [contradiction|].
    destruct IH as (l1 & l2 & -> & Hl1 & Hedit); [now exists q|].
    exists (p :: l1), l2. rewrite Hedit. repeat split.
    intros r [<-|Hr]; [exact E | now apply Hl1].
Qed.

Lemma find_loop_none (number : string) (ps : list Phone.t) :
  Record.find_loop number ps = None <->
  (forall p, In p ps -> Phone.value p <> number).
Proof.
  induction ps as [|p ps IH]; simpl.
  - split; [intros _ ? [] | reflexivity].
  - destruct (String.eqb_spec (Phone.value p) number) as [E|E].
    + split; [discriminate|]. intros H. exfalso. apply (H p); [now left | exact E].
    + rewrite IH. split.
      * intros H q [<-|Hq]; [exact E | now apply H].
      * intros H q Hq. apply H. now right.
Qed.

Lemma find_loop_some (number : string) (ps : list Phone.t) (p : Phone.t) :
  Record.find_loop number ps = Some p ->
  exists l1 l2,
    ps = (l1 ++ p :: l2)%list /\ Phone.value p = number /\
    (forall q, In q l1 -> Phone.value q <> number).
Proof.
  induction ps as [|q ps IH]; simpl; [discriminate|].
  destruct (String.eqb_spec (Phone.value q) number) as [E|E].
  - intros [= <-]. exists [], ps. repeat split; [exact E | intros ? []].
  - intros H. destruct (IH H) as (l1 & l2 & -> & Hp & Hl1).
    exists (q :: l1), l2. repeat split; [exact Hp|].
    intros r [<-|Hr]; [exact E | now apply Hl1].
Qed.

Lemma record_eta (r : Record.t) :
  Record.mk (Record.name r) (Record.phones r) (Record.birthday r) = r.
Proof. destruct r; reflexivity. Qed.

Lemma edit_phone_eq (old_number new_number : string) (r : Record.t) :
  Record.edit_phone old_number new_number r =
  if negb (existsb (fun p => (Phone.value p =? old_number)%string) (Record.phones r))
  then (r, Raise (ValueError "Old phone number is not exist"))
  else if negb ((len new_number =? 10) && str_all char_isdigit new_number)
  then (r, Raise (ValueError "New phone number must be 10 digits"))
  else (Record.mk (Record.name r)
          (Record.edit_loop old_number new_number (Record.phones r))
          (Record.birthday r), Ok tt).
Proof.
  unfold Record.edit_phone, Record.bind, Record.get_phones, Record.raise,
    Record.set_phones. simpl.
  destruct (existsb _ (Record.phones r)); simpl; [|reflexivity].
  destruct (len new_number =? 10) eqn:E; simpl; [|reflexivity].
  apply Z.eqb_eq in E. rewrite (isdigit_str_all _ E).
  destruct (str_all char_isdigit new_number); reflexivity.
Qed.



(** Of two equal phones only the first is edited; [remove_phone] removes
    both. *)
Example edit_phone_duplicates :
  Record.edit_phone "1111111111" "2222222222"
    (Record.mk (Name.mk "Ann")
       [Phone.mk "3333333333"; Phone.mk "1111111111"; Phone.mk "1111111111"] None) =
  (Record.mk (Name.mk "Ann")
     [Phone.mk "3333333333"; Phone.mk "2222222222"; Phone.mk "1111111111"] None,
   Ok tt) /\
  Record.remove_phone "1111111111"
    (Record.mk (Name.mk "Ann")
       [Phone.mk "3333333333"; Phone.mk "1111111111"; Phone.mk "1111111111"] None) =
  (Record.mk (Name.mk "Ann") [Phone.mk "3333333333"] None, Ok tt).
Proof. split; reflexivity. Qed.

Lemma add_phone_eq (number : string) (r : Record.t) :
  Record.add_phone number r =
  match Phone.init number with
  | Ok phone =>
      (Record.mk (Record.name r) (Record.phones r ++ [phone])%list (Record.birthday r),
       Ok tt)
  | Raise e => (r, Raise e)
  end.
Proof.
  unfold Record.add_phone, Record.bind, Record.lift. 
  destruct (Phone.init number); reflexivity.
Qed.

Lemma add_birthday_eq (value : string) (r : Record.t) :
  Record.add_birthday value r =
  match Record.birthday r with
  | None =>
      match Birthday.init value with
      | Ok b => (Record.mk (Record.name r) (Record.phones r) (Some b), Ok tt)
      | Raise e => (r, Raise e)
      end
  | Some _ => (r, Raise (ValueError "Only one birthday is allowed per record."))
  end.
Proof.
  unfold Record.add_birthday, Record.bind, Record.get_birthday, Record.lift,
    Record.raise.
  destruct (Record.birthday r); [reflexivity|].
  destruct (Birthday.init value); reflexivity.
Qed.

(** C9: a call of [add_phone] or [edit_phone] that raises leaves the record
    as it was, and [add_phone] raises whenever [Phone] refuses the string. *)
Theorem failing_mutators_change_nothing (r : Record.t) :
  (forall number e,
     Phone.init number = Raise e -> Record.add_phone number r = (r, Raise e)) /\
  (forall number e,
     snd (Record.add_phone number r) = Raise e ->
     fst (Record.add_phone number r) = r) /\
  (forall old_number new_number e,
     snd (Record.edit_phone old_number new_number r) = Raise e ->
     fst (Record.edit_phone old_number new_number r) = r).
Proof.
  split; [|split].
  - intros number e H. rewrite add_phone_eq, H. reflexivity.
  - intros number e. rewrite add_phone_eq.
    destruct (Phone.init number); [discriminate | reflexivity].
  - intros old_number new_number e. rewrite edit_phone_eq.
    destruct (negb (existsb _ _)); [reflexivity|].
    destruct (negb _); [reflexivity | discriminate].
Qed.

Lemma failing_mutators_change_nothing_witness :
  Record.add_phone "12ab" ann =
  (ann, Raise (ValueError "Phone number must be 10 digits")) /\
  fst (Record.edit_phone "1111111111" "22"
         (Record.mk (Name.mk "Ann") [Phone.mk "1111111111"] None)) =
  Record.mk (Name.mk "Ann") [Phone.mk "1111111111"] None.
Proof.
  split.
  - apply (failing_mutators_change_nothing ann). reflexivity.
  - apply (proj2 (proj2 (failing_mutators_change_nothing
             (Record.mk (Name.mk "Ann") [Phone.mk "1111111111"] None)))
             "1111111111" "22"
             (ValueError "New phone number must be 10 digits")).
    reflexivity.
Defined.

(** ** Dictionaries *)

Section DictFacts.
Context {V : Type}.
Implicit Types (d : dict.t V) (k : string) (v : V).

Lemma contains_keys k d : dict.contains k d = true <-> In k (dict.keys d).
Proof.
  induction d as [|[k' v'] d IH]; simpl.
  - split; [discriminate | intros []].
  - rewrite orb_true_iff, IH, String.eqb_eq. tauto.
Qed.

Lemma contains_false k d : dict.contains k d = false <-> ~ In k (dict.keys d).
Proof.
  rewrite <- contains_keys. destruct (dict.contains k d); split; congruence.
Qed.

Lemma get_none k d : dict.get k d = None <-> ~ In k (dict.keys d).
Proof.
  induction d as [|[k' v'] d IH]; simpl.
  - split; [intros _ [] | reflexivity].
  - destruct (String.eqb_spec k' k) as [E|E].
    + split; [discriminate | intros H; exfalso; apply H; now left].
    + rewrite IH. tauto.
Qed.

Lemma get_some_in k v d : dict.get k d = Some v -> In (k, v) d.
Proof.
  induction d as [|[k' v'] d IH]; simpl; [discriminate|].
  destruct (String.eqb_spec k' k) as [E|E].
  - intros [= ->]. left. now rewrite E.
  - intros H. right. now apply IH.
Qed.

Lemma get_some_contains k v d : dict.get k d = Some v -> dict.contains k d = true.
Proof.
  intros H. apply contains_keys. apply get_some_in in H.
  unfold dict.keys. change k with (fst (k, v)). now apply in_map.
Qed.

Lemma in_keys_get k d : In k (dict.keys d) -> exists v, dict.get k d = Some v.
Proof.
  intros H. destruct (dict.get k d) as [v|] eqn:E; [now exists v|].
  apply get_none in E. contradiction.
Qed.

Lemma get_setitem_eq k v d : dict.get k (dict.setitem k v d) = Some v.
Proof.
  induction d as [|[k' v'] d IH]; simpl.
  - now rewrite String.eqb_refl.
  - destruct (String.eqb_spec k' k) as [E|E]; simpl.
    + now rewrite String.eqb_refl.
    + destruct (String.eqb_spec k' k); [contradiction | exact IH].
Qed.

Lemma get_setitem_ne k k' v d :
  k' <> k -> dict.get k' (dict.setitem k v d) = dict.get k' d.
Proof.
  intros Hne. induction d as [|[k0 v0] d IH]; simpl.
  - destruct (String.eqb_spec k k'); [congruence | reflexivity].
  - destruct (String.eqb_spec k0 k) as [E|E]; simpl.
    + subst k0. destruct (String.eqb_spec k k'); [congruence | reflexivity].
    + destruct (String.eqb_spec k0 k'); [reflexivity | exact IH].
Qed.

Lemma keys_setitem k v d :
  dict.keys (dict.setitem k v d) =
  if dict.contains k d then dict.keys d else (dict.keys d ++ [k])%list.
Proof.
  induction d as [|[k' v'] d IH]; simpl; [reflexivity|].
  destruct (String.eqb_spec k' k) as [E|E]; simpl.
  - now rewrite E.
  - rewrite IH. destruct (dict.contains k d); reflexivity.
Qed.

Lemma setitem_setitem k v v' d :
  dict.setitem k v' (dict.setitem k v d) = dict.setitem k v' d.
Proof.
  induction d as [|[k0 v0] d IH]; simpl.
  - now rewrite String.eqb_refl.
  - destruct (String.eqb_spec k0 k) as [E|E]; simpl.
    + now rewrite String.eqb_refl.
    + destruct (String.eqb_spec k0 k); [contradiction | now rewrite IH].
Qed.

Lemma wf_setitem k v d : wf d -> wf (dict.setitem k v d).
Proof.
  unfold wf. intros H. rewrite keys_setitem.
  destruct (dict.contains k d) eqn:E; [exact H|].
  apply contains_false in E.
  apply NoDup_app; [exact H | repeat constructor; intros [] |].
  intros x Hx [<-|[]]. contradiction.
Qed.

Lemma delitem_filter k d :
  wf d -> dict.delitem k d = filter (fun kv => negb (fst kv =? k)%string) d.
Proof.
  unfold wf. induction d as [|[k' v'] d IH]; simpl; [reflexivity|].
  intros H. inversion H as [|? ? Hnot Hd]; subst.
  destruct (String.eqb_spec k' k) as [E|E]; simpl.
  - subst k'. clear IH H Hd. induction d as [|[k0 v0] d IH]; simpl; [reflexivity|].
    simpl in Hnot. destruct (String.eqb_spec k0 k) as [E|E]; simpl.
    + exfalso. apply Hnot. now left.
    + f_equal. apply IH. intros Hin. apply Hnot. now right.
  - f_equal. now apply IH.
Qed.

Lemma keys_filter k d :
  dict.keys (filter (fun kv => negb (fst kv =? k)%string) d) =
  filter (fun k' => negb (k' =? k)%string) (dict.keys d).
Proof.
  induction d as [|[k' v'] d IH]; simpl; [reflexivity|].
  destruct (k' =? k)%string; simpl; now rewrite IH.
Qed.

Lemma get_filter_eq k d :
  dict.get k (filter (fun kv => negb (fst kv =? k)%string) d) = None.
Proof.
  induction d as [|[k' v'] d IH]; simpl; [reflexivity|].
  destruct (String.eqb_spec k' k) as [E|E]; simpl; [exact IH|].
  destruct (String.eqb_spec k' k); [contradiction | exact IH].
Qed.

Lemma get_filter_ne k k' d :
  k' <> k ->
  dict.get k' (filter (fun kv => negb (fst kv =? k)%string) d) = dict.get k' d.
Proof.
  intros Hne. induction d as [|[k0 v0] d IH]; simpl; [reflexivity|].
  destruct (String.eqb_spec k0 k) as [E|E]; simpl.
  - subst k0. destruct (String.eqb_spec k k'); [congruence | exact IH].
  - destruct (String.eqb_spec k0 k'); [reflexivity | exact IH].
Qed.

Lemma filter_absent k d :
  ~ In k (dict.keys d) -> filter (fun kv => negb (fst kv =? k)%string) d = d.
Proof.
  induction d as [|[k' v'] d IH]; simpl; [reflexivity|]. intros H.
  destruct (String.eqb_spec k' k) as [E|E]; simpl.
  - exfalso. apply H. now left.
  - f_equal. apply IH. intros Hin. apply H. now right.
Qed.

Lemma wf_filter k d :
  wf d -> wf (filter (fun kv => negb (fst kv =? k)%string) d).
Proof. unfold wf. rewrite keys_filter. apply NoDup_filter. Qed.

End DictFacts.

Lemma delete_filter (k : string) (book : AddressBook.t) :
  wf book ->
  AddressBook.delete k book = filter (fun kv => negb (fst kv =? k)%string) book.
Proof.
  intros H. unfold AddressBook.delete.
  destruct (dict.contains k book) eqn:E.
  - now apply delitem_filter.
  - apply contains_false in E. symmetry. now apply filter_absent.
Qed.

(** ** Histories of an address book *)

Lemma invoke_name (m : method) (r : Record.t) :
  Record.name (fst (invoke m r)) = Record.name r.
Proof.
  destruct m as [number|number|old_number new_number|value]; simpl.
  - rewrite add_phone_eq. destruct (Phone.init number); reflexivity.
  - reflexivity.
  - rewrite edit_phone_eq. destruct (negb _); [reflexivity|].
    destruct (negb _); reflexivity.
  - rewrite add_birthday_eq. destruct (Record.birthday r); [reflexivity|].
    destruct (Birthday.init value); reflexivity.
Qed.

Lemma in_setitem (k : string) (r : Record.t) (book : AddressBook.t) k' r' :
  In (k', r') (dict.setitem k r book) -> (k', r') = (k, r) \/ In (k', r') book.
Proof.
  induction book as [|[k0 r0] book IH]; simpl.
  - intros [H|[]]. left. now symmetry.
  - destruct (k0 =? k)%string; simpl.
    + intros [H|H]; [left; now symmetry | right; now right].
    + intros [H|H]; [right; now left|]. destruct (IH H); [now left | right; now right].
Qed.

Lemma keyed_setitem (k : string) (r : Record.t) (book : AddressBook.t) :
  Name.value (Record.name r) = k -> keyed book -> keyed (dict.setitem k r book).
Proof.
  intros Hr Hb k' r' Hin. apply in_setitem in Hin.
  destruct Hin as [[= -> ->]|Hin]; [exact Hr | now apply Hb].
Qed.

Lemma step_wf (book : AddressBook.t) (o : op) : wf book -> wf (step book o).
Proof.
  intros H. destruct o as [record|name|name m]; simpl.
  - now apply wf_setitem.
  - rewrite delete_filter by exact H. now apply wf_filter.
  - unfold AddressBook.find. destruct (dict.get name book); [|exact H].
    now apply wf_setitem.
Qed.

Lemma step_keyed (book : AddressBook.t) (o : op) :
  wf book -> keyed book -> keyed (step book o).
Proof.
  intros Hwf H. destruct o as [record|name|name m]; simpl.
  - now apply keyed_setitem.
  - rewrite delete_filter by exact Hwf. intros k r Hin.
    apply filter_In in Hin. now apply H.
  - unfold AddressBook.find. destruct (dict.get name book) as [record|] eqn:E; [|exact H].
    apply keyed_setitem; [|exact H]. rewrite invoke_name.
    apply H. now apply get_some_in.
Qed.

Lemma fold_step_invariant (ops : list op) (book : AddressBook.t) :
  wf book -> keyed book ->
  wf (fold_left step ops book) /\ keyed (fold_left step ops book).
Proof.
  revert book. induction ops as [|o ops IH]; intros book Hwf Hk; simpl; [now split|].
  apply IH; [now apply step_wf | now apply step_keyed].
Qed.

Lemma run_ops_invariant (ops : list op) : wf (run_ops ops) /\ keyed (run_ops ops).
Proof.
  apply fold_step_invariant.
  - constructor.
  - intros k r [].
Qed.

Lemma keyed_all_names (book : AddressBook.t) :
  keyed book -> all_names book = dict.keys book.
Proof.
  unfold all_names, dict.values, dict.keys. rewrite map_map.
  intros H. apply map_ext_in. intros [k r] Hin. simpl. now apply H.
Qed.

Lemma existsb_eqb_in (k : string) (seen : list string) :
  existsb (String.eqb k) seen = true <-> In k seen.
Proof.
  rewrite existsb_exists. split.
  - intros [x [Hin Hx]]. apply String.eqb_eq in Hx. now subst.
  - intros H. exists k. split; [exact H | apply String.eqb_refl].
Qed.

Lemma keys_fold_no_delete (ops : list op) (book : AddressBook.t) (seen : list string) :
  (forall k, In k seen <-> In k (dict.keys book)) ->
  no_delete ops ->
  dict.keys (fold_left step ops book) =
  (dict.keys book ++ first_occurrences seen (inserted_names ops))%list.
Proof.
  revert book seen. induction ops as [|o ops IH]; intros book seen Hseen Hnd; simpl.
  - now rewrite app_nil_r.
  - assert (Hnd' : no_delete ops).
    { intros o' Hin. apply Hnd. now right. }
    destruct o as [record|name|name m]; simpl.
    + set (k := Name.value (Record.name record)).
      unfold AddressBook.add_record. fold k.
      destruct (existsb (String.eqb k) seen) eqn:E.
      * apply existsb_eqb_in, Hseen in E.
        rewrite (IH _ seen); [|
          intros k'; rewrite keys_setitem;
          apply contains_keys in E; rewrite E; apply Hseen | exact Hnd'].
        rewrite keys_setitem. apply contains_keys in E. now rewrite E.
      * assert (Hnot : ~ In k (dict.keys book)).
        { intros Hin. apply Hseen, existsb_eqb_in in Hin. congruence. }
        apply contains_false in Hnot.
        rewrite (IH _ (k :: seen)); [| | exact Hnd'].
        -- rewrite keys_setitem, Hnot, <- app_assoc. reflexivity.
        -- intros k'. rewrite keys_setitem, Hnot, in_app_iff. simpl.
           rewrite Hseen. intuition congruence.
    + exfalso. apply (Hnd (op_delete name)) with (k := name); [now left | reflexivity].
    + unfold AddressBook.find. destruct (dict.get name book) as [record|] eqn:E.
      * apply get_some_contains in E.
        rewrite (IH _ seen); [| intros k'; rewrite keys_setitem, E; apply Hseen | exact Hnd'].
        now rewrite keys_setitem, E.
      * now apply IH.
Qed.

Lemma find_fold_add (rs : list Record.t) (book : AddressBook.t) (k : string) :
  AddressBook.find k (fold_left step (map op_add_record rs) book) =
  last_named k rs (AddressBook.find k book).
Proof.
  revert book. induction rs as [|r rs IH]; intros book; simpl; [reflexivity|].
  rewrite IH. unfold AddressBook.find, AddressBook.add_record.
  destruct (String.eqb_spec (Name.value (Record.name r)) k) as [E|E].
  - subst k. now rewrite get_setitem_eq.
  - rewrite get_setitem_ne by congruence. reflexivity.
Qed.

(** C7, counterexample: after add "A", add "B", delete "A", add "A" the book
    yields "B" before "A", while "A" was the first name ever inserted. *)
Lemma readd_moves_key_last_counterexample :
  all_names (run_ops readd_history) = ["B"; "A"] /\
  spec_first_ever_order readd_history = ["A"; "B"] /\
  all_names (run_ops readd_history) <> spec_first_ever_order readd_history.
Proof. split; [reflexivity|]. split; [reflexivity | discriminate]. Qed.

(** C7, as amended: a second [add_record] under the same name replaces the
    first record whole; a book never holds two records of one name;
    [add_record] under a name that is present keeps the place of that name
    and under a new name goes last, and [delete] takes the name out, so a
    name deleted and added again moves to the end; in a history without
    [delete] the records come out in the order of the first insertion of
    each name. *)
Theorem add_record_replaces_in_place :
  (forall book r1 r2,
     Record.name r1 = Record.name r2 ->
     AddressBook.add_record r2 (AddressBook.add_record r1 book) =
     AddressBook.add_record r2 book /\
     AddressBook.find (Name.value (Record.name r1))
       (AddressBook.add_record r2 (AddressBook.add_record r1 book)) = Some r2) /\
  (forall ops, NoDup (all_names (run_ops ops))) /\
  (forall ops r,
     let k := Name.value (Record.name r) in
     all_names (run_ops (ops ++ [op_add_record r])) =
     if dict.contains k (run_ops ops) then all_names (run_ops ops)
     else (all_names (run_ops ops) ++ [k])%list) /\
  (forall ops k,
     all_names (run_ops (ops ++ [op_delete k])) =
     filter (fun k' => negb (k' =? k)%string) (all_names (run_ops ops))) /\
  (forall ops, no_delete ops -> all_names (run_ops ops) = spec_first_ever_order ops) /\
  (forall rs k,
     AddressBook.find k (run_ops (map op_add_record rs)) = last_named k rs None).
Proof.
  split; [|split; [|split; [|split; [|split]]]].
  - intros book r1 r2 E. unfold AddressBook.add_record, AddressBook.find.
    rewrite E. now rewrite setitem_setitem, get_setitem_eq.
  - intros ops. destruct (run_ops_invariant ops) as [Hwf Hk].
    now rewrite keyed_all_names.
  - intros ops r k. unfold run_ops. rewrite fold_left_app. simpl.
    fold (run_ops ops). destruct (run_ops_invariant ops) as [Hwf Hk].
    rewrite !keyed_all_names; [| exact Hk | now apply keyed_setitem].
    apply keys_setitem.
  - intros ops k. unfold run_ops. rewrite fold_left_app. simpl.
    fold (run_ops ops). destruct (run_ops_invariant ops) as [Hwf Hk].
    rewrite delete_filter by exact Hwf.
    rewrite !keyed_all_names; [apply keys_filter | exact Hk |].
    intros k' r Hin. apply filter_In in Hin. now apply Hk.
  - intros ops Hnd. destruct (run_ops_invariant ops) as [_ Hk].
    rewrite keyed_all_names by exact Hk.
    unfold run_ops. rewrite (keys_fold_no_delete ops AddressBook.init []).
    + reflexivity.
    + intros k. reflexivity.
    + exact Hnd.
  - intros rs k. unfold run_ops. now rewrite find_fold_add.
Qed.

Lemma add_record_replaces_in_place_witness :
  all_names
    (run_ops [op_add_record ann; op_add_record bob;
              op_add_record (Record.init "Ann")]) = ["Ann"; "Bob"] /\
  AddressBook.add_record (Record.init "Ann")
    (AddressBook.add_record ann AddressBook.init) =
  AddressBook.add_record (Record.init "Ann") AddressBook.init.
Proof.
  split.
  - apply (proj1 (proj2 (proj2 (proj2 (proj2 add_record_replaces_in_place))))
             [op_add_record ann; op_add_record bob;
              op_add_record (Record.init "Ann")]).
    intros o [<-|[<-|[<-|[]]]] k; discriminate.
  - apply (proj1 add_record_replaces_in_place AddressBook.init ann (Record.init "Ann")).
    reflexivity.
Defined.

(** C8: [remove_phone] keeps, in their order, exactly the phones whose value
    differs from the argument and never raises, so it changes nothing when
    no phone matches; [delete] takes the name out of the book and leaves
    the other entries and their order alone, and changes nothing when the
    name is absent; [find] and [find_phone] return [None] exactly when
    nothing matches and the stored object otherwise. *)
Theorem removals_and_lookups_do_not_fail :
  (forall r number,
     Record.remove_phone number r =
     (Record.mk (Record.name r)
        (filter (fun p => negb (Phone.value p =? number)%string) (Record.phones r))
        (Record.birthday r), Ok tt)) /\
  (forall r number,
     (forall p, In p (Record.phones r) -> Phone.value p <> number) ->
     Record.remove_phone number r = (r, Ok tt)) /\
  (forall ops k,
     let book := run_ops ops in
     AddressBook.delete k book = filter (fun kv => negb (fst kv =? k)%string) book /\
     AddressBook.find k (AddressBook.delete k book) = None /\
     (forall k', k' <> k ->
        AddressBook.find k' (AddressBook.delete k book) = AddressBook.find k' book)) /\
  (forall book k, AddressBook.find k book = None -> AddressBook.delete k book = book) /\
  (forall book k, AddressBook.find k book = None <-> ~ In k (dict.keys book)) /\
  (forall book k r, AddressBook.find k book = Some r -> In (k, r) book) /\
  (forall r number,
     Record.find_phone number r = None <->
     (forall p, In p (Record.phones r) -> Phone.value p <> number)) /\
  (forall r number p,
     Record.find_phone number r = Some p ->
     exists l1 l2,
       Record.phones r = (l1 ++ p :: l2)%list /\ Phone.value p = number /\
       (forall q, In q l1 -> Phone.value q <> number)).
Proof.
  assert (Hrem : forall r number,
     Record.remove_phone number r =
     (Record.mk (Record.name r)
        (filter (fun p => negb (Phone.value p =? number)%string) (Record.phones r))
        (Record.birthday r), Ok tt)).
  { intros r number. unfold Record.remove_phone, Record.bind, Record.get_phones,
      Record.set_phones. simpl. now rewrite remove_loop_filter. }
  split; [exact Hrem|]. split; [|split; [|split; [|split; [|split; [|split]]]]].
  - intros r number H. rewrite Hrem, filter_none by exact H. now rewrite record_eta.
  - intros ops k book. destruct (run_ops_invariant ops) as [Hwf _]. fold book in Hwf.
    rewrite delete_filter by exact Hwf. split; [reflexivity|]. split.
    + apply get_filter_eq.
    + intros k' Hne. now apply get_filter_ne.
  - intros book k H. unfold AddressBook.delete.
    apply get_none, contains_false in H. now rewrite H.
  - intros book k. apply get_none.
  - intros book k r. apply get_some_in.
  - intros r number. apply find_loop_none.
  - intros r number p. apply find_loop_some.
Qed.

Lemma removals_and_lookups_do_not_fail_witness :
  Record.remove_phone "9999999999"
    (Record.mk (Name.mk "Ann") [Phone.mk "1111111111"] None) =
  (Record.mk (Name.mk "Ann") [Phone.mk "1111111111"] None, Ok tt) /\
  AddressBook.delete "Zed" scenario_book = scenario_book.
Proof.
  split.
  - apply (proj1 (proj2 removals_and_lookups_do_not_fail)
             (Record.mk (Name.mk "Ann") [Phone.mk "1111111111"] None)
             "9999999999").
    intros p [<-|[]]. discriminate.
  - apply (proj1 (proj2 (proj2 (proj2 removals_and_lookups_do_not_fail)))
             scenario_book "Zed").
    reflexivity.
Defined.

(** C10: after any sequence of [add_record], [delete] and calls of the
    mutating methods on stored records, every name in the book is found and
    the record found under a name carries that name. *)
Theorem records_keyed_by_own_name (ops : list op) (k : string) :
  (In k (dict.keys (run_ops ops)) ->
   exists r, AddressBook.find k (run_ops ops) = Some r /\
             Name.value (Record.name r) = k) /\
  (forall r, AddressBook.find k (run_ops ops) = Some r ->
             Name.value (Record.name r) = k).
Proof.
  destruct (run_ops_invariant ops) as [_ Hk].
  assert (H : forall r, AddressBook.find k (run_ops ops) = Some r ->
                        Name.value (Record.name r) = k).
  { intros r Hr. apply Hk. now apply get_some_in. }
  split; [|exact H].
  intros Hin. destruct (in_keys_get k _ Hin) as [r Hr]. exists r. split; [exact Hr|].
  now apply H.
Qed.

Lemma records_keyed_by_own_name_witness :
  exists r,
    AddressBook.find "Bob"
      (run_ops [op_add_record ann; op_add_record bob; op_delete "Ann";
                op_method "Bob" (call_add_phone "0123456789")]) = Some r /\
    Name.value (Record.name r) = "Bob".
Proof.
  apply (proj1 (records_keyed_by_own_name
                  [op_add_record ann; op_add_record bob; op_delete "Ann";
                   op_method "Bob" (call_add_phone "0123456789")] "Bob")).
  simpl. left. reflexivity.
Defined.

(** ** The calendar *)

(** Case analysis on an integer of a bounded range. *)
Ltac enum_Z x lo :=
  first
    [ exfalso; lia
    | destruct (Z.eq_dec x lo) as [->|?];
      [ | let lo' := eval cbv in (lo + 1) in enum_Z x lo' ] ].

Lemma forallb_range (p : Z -> bool) (k : nat) :
  forallb p (map Z.of_nat (seq 0 k)) = true ->
  forall n, 0 <= n < Z.of_nat k -> p n = true.
Proof.
  intros H n Hn. rewrite forallb_forall in H. apply H.
  rewrite <- (Z2Nat.id n) by lia. apply in_map, in_seq. lia.
Qed.

Lemma days_before_year_split (a b c e : Z) :
  0 <= b <= 3 -> 0 <= c <= 24 -> 0 <= e <= 3 ->
  datetime.days_before_year (400 * a + 100 * b + 4 * c + e + 1) =
  146097 * a + 36524 * b + 1461 * c + 365 * e.
Proof.
  intros Hb Hc He. unfold datetime.days_before_year.
  replace (400 * a + 100 * b + 4 * c + e + 1 - 1) with (400 * a + 100 * b + 4 * c + e) by lia.
  Z.div_mod_to_equations. lia.
Qed.

Lemma is_leap_split (a b c e : Z) :
  0 <= b <= 3 -> 0 <= c <= 24 -> 0 <= e <= 3 ->
  datetime.is_leap (400 * a + 100 * b + 4 * c + e + 1) =
  (e =? 3) && (negb (c =? 24) || (b =? 3)).
Proof.
  intros Hb Hc He. unfold datetime.is_leap.
  remember (400 * a + 100 * b + 4 * c + e + 1) as y eqn:Ey.
  destruct (Z.eqb_spec e 3), (Z.eqb_spec c 24), (Z.eqb_spec b 3),
    (Z.eqb_spec (y mod 4) 0), (Z.eqb_spec (y mod 100) 0),
    (Z.eqb_spec (y mod 400) 0); cbn [andb orb negb]; try reflexivity; exfalso;
    Z.div_mod_to_equations; lia.
Qed.

Lemma days_before_next_year (y : Z) :
  datetime.days_before_year (y + 1) =
  datetime.days_before_year y + 365 + (if datetime.is_leap y then 1 else 0).
Proof.
  unfold datetime.days_before_year, datetime.is_leap.
  replace (y + 1 - 1) with y by lia.
  destruct (Z.eqb_spec (y mod 4) 0), (Z.eqb_spec (y mod 100) 0),
    (Z.eqb_spec (y mod 400) 0); cbn [andb orb negb];
    Z.div_mod_to_equations; lia.
Qed.

Lemma days_before_year_mono (y y' : Z) :
  y <= y' -> datetime.days_before_year y <= datetime.days_before_year y'.
Proof.
  unfold datetime.days_before_year. intros H. Z.div_mod_to_equations. lia.
Qed.

Lemma month_day_check (leapyear : bool) (n : Z) :
  0 <= n < 365 + (if leapyear then 1 else 0) ->
  (let (m, d) := datetime.month_day leapyear n in
   (1 <=? m) && (m <=? 12) && (1 <=? d)
   && (d <=? (if (m =? 2) && leapyear then 29 else datetime.tbl datetime.DAYS_IN_MONTH m))
   && (datetime.tbl datetime.DAYS_BEFORE_MONTH m
       + (if (m >? 2) && leapyear then 1 else 0) + d =? n + 1)) = true.
Proof.
  intros Hn.
  destruct leapyear;
    match goal with
    | |- ?g = true =>
        let p := eval pattern n in g in
        match p with
        | ?f _ => change (f n = true)
        end
    end.
  - apply (forallb_range _ 366); [vm_compute; reflexivity | lia].
  - apply (forallb_range _ 365); [vm_compute; reflexivity | lia].
Qed.

Lemma month_day_spec (y n : Z) :
  0 <= n < 365 + (if datetime.is_leap y then 1 else 0) ->
  let (m, d) := datetime.month_day (datetime.is_leap y) n in
  1 <= m <= 12 /\ 1 <= d <= datetime.days_in_month y m /\
  datetime.days_before_month y m + d = n + 1.
Proof.
  intros Hn. pose proof (month_day_check _ _ Hn) as H.
  unfold datetime.days_in_month, datetime.days_before_month.
  destruct (datetime.month_day (datetime.is_leap y) n) as [m d].
  rewrite !andb_true_iff in H. lia.
Qed.

(** [_ord2ymd] inverts [_ymd2ord] on the ordinals of the years 1 to 9999. *)
Lemma ord2ymd_ymd2ord (o : Z) :
  1 <= o <= datetime.MAXORDINAL ->
  let '(y, m, d) := datetime.ord2ymd o in
  (datetime.MINYEAR <= y <= datetime.MAXYEAR) /\ 1 <= m <= 12 /\
  1 <= d <= datetime.days_in_month y m /\ datetime.ymd2ord y m d = o.
Proof.
  unfold datetime.MAXORDINAL, datetime.MINYEAR, datetime.MAXYEAR. intros Ho.
  unfold datetime.ord2ymd, datetime.DI400Y, datetime.DI100Y, datetime.DI4Y.
  set (n0 := o - 1).
  set (a := n0 / 146097). set (r1 := n0 mod 146097).
  set (b := r1 / 36524). set (r2 := r1 mod 36524).
  set (c := r2 / 1461). set (r3 := r2 mod 1461).
  set (e := r3 / 365). set (r4 := r3 mod 365).
  assert (Ha : n0 = 146097 * a + r1 /\ 0 <= r1 < 146097)
    by (unfold a, r1; Z.div_mod_to_equations; lia).
  assert (Hb : r1 = 36524 * b + r2 /\ 0 <= r2 < 36524)
    by (unfold b, r2; Z.div_mod_to_equations; lia).
  assert (Hc : r2 = 1461 * c + r3 /\ 0 <= r3 < 1461)
    by (unfold c, r3; Z.div_mod_to_equations; lia).
  assert (He : r3 = 365 * e + r4 /\ 0 <= r4 < 365)
    by (unfold e, r4; Z.div_mod_to_equations; lia).
  assert (Hn0 : 0 <= n0 < 3652059 /\ o = n0 + 1) by (unfold n0; lia).
  clearbody a r1 b r2 c r3 e r4 n0.
  assert (Hrange : 0 <= a <= 24 /\ 0 <= b <= 4 /\ 0 <= c <= 24 /\ 0 <= e <= 4) by lia.
  destruct (Z.eqb_spec e 4) as [E4|E4], (Z.eqb_spec b 4) as [B4|B4];
    cbn [orb].
  1-3: replace (a * 400 + 1 + (b * 100 + c * 4 + e) - 1)
         with (400 * a + 100 * b + 4 * c + e) by lia.
  1-3: unfold datetime.ymd2ord, datetime.days_in_month, datetime.days_before_month,
         datetime.days_before_year, datetime.is_leap.
  1-3: change (12 =? 2) with false; change (12 >? 2) with true; cbn [andb];
       change (datetime.tbl datetime.DAYS_IN_MONTH 12) with 31;
       change (datetime.tbl datetime.DAYS_BEFORE_MONTH 12) with 334;
       remember (400 * a + 100 * b + 4 * c + e) as y eqn:Ey;
       destruct (Z.eqb_spec (y mod 4) 0), (Z.eqb_spec (y mod 100) 0),
         (Z.eqb_spec (y mod 400) 0); cbn [andb orb negb];
       Z.div_mod_to_equations; lia.
  replace (a * 400 + 1 + (b * 100 + c * 4 + e))
    with (400 * a + 100 * b + 4 * c + e + 1) by lia.
  rewrite <- (is_leap_split a b c e) by lia.
  set (y := 400 * a + 100 * b + 4 * c + e + 1).
  assert (Hr4 : 0 <= r4 < 365 + (if datetime.is_leap y then 1 else 0))
    by (destruct (datetime.is_leap y); lia).
  pose proof (month_day_spec y r4 Hr4) as Hmd.
  destruct (datetime.month_day (datetime.is_leap y) r4) as [m d].
  destruct Hmd as (Hm & Hd & Hsum).
  assert (Hdby : datetime.days_before_year y = 146097 * a + 36524 * b + 1461 * c + 365 * e)
    by (apply days_before_year_split; lia).
  unfold datetime.ymd2ord. rewrite Hdby.
  repeat split; try lia; unfold y; lia.
Qed.

Lemma days_before_month_bound (y m d : Z) :
  1 <= m <= 12 -> 1 <= d <= datetime.days_in_month y m ->
  1 <= datetime.days_before_month y m + d <=
  365 + (if datetime.is_leap y then 1 else 0).
Proof.
  intros Hm. unfold datetime.days_in_month, datetime.days_before_month.
  assert (Hcases : m = 1 \/ m = 2 \/ m = 3 \/ m = 4 \/ m = 5 \/ m = 6 \/ m = 7 \/
                   m = 8 \/ m = 9 \/ m = 10 \/ m = 11 \/ m = 12) by lia.
  destruct (datetime.is_leap y);
    repeat (destruct Hcases as [->|Hcases]); try subst m;
    cbn [Z.eqb Z.gtb Z.compare Pos.compare Pos.compare_cont Pos.eqb andb];
    repeat match goal with
           | |- context [datetime.tbl ?t ?i] =>
               let v := eval vm_compute in (datetime.tbl t i) in
               change (datetime.tbl t i) with v
           end; lia.
Qed.

Lemma toordinal_range (d : datetime.date) :
  datetime.valid d -> 1 <= datetime.toordinal d <= datetime.MAXORDINAL.
Proof.
  unfold datetime.valid, datetime.MINYEAR, datetime.MAXYEAR, datetime.MAXORDINAL,
    datetime.toordinal, datetime.ymd2ord.
  intros (Hy & Hm & Hd).
  pose proof (days_before_month_bound _ _ _ Hm Hd) as Hb.
  pose proof (days_before_next_year (datetime.year d)) as Hnext.
  pose proof (days_before_year_mono 1 (datetime.year d) ltac:(lia)) as H1.
  pose proof (days_before_year_mono (datetime.year d + 1) 10000 ltac:(lia)) as H2.
  change (datetime.days_before_year 1) with 0 in H1.
  change (datetime.days_before_year 10000) with 3652059 in H2.
  destruct (datetime.is_leap (datetime.year d)); lia.
Qed.

Ltac eval_tbl :=
  repeat match goal with
         | |- context [datetime.tbl ?t ?i] =>
             let v := eval vm_compute in (datetime.tbl t i) in
             change (datetime.tbl t i) with v
         end.

Lemma days_before_month_lt (y m m' d : Z) :
  1 <= m -> m < m' -> m' <= 12 -> 1 <= d <= datetime.days_in_month y m ->
  datetime.days_before_month y m + d <= datetime.days_before_month y m'.
Proof.
  intros H1 H2 H3. unfold datetime.days_in_month, datetime.days_before_month.
  destruct (datetime.is_leap y); enum_Z m 1; enum_Z m' 1; try lia;
    cbn [Z.eqb Z.gtb Z.compare Pos.compare Pos.compare_cont Pos.eqb andb];
    eval_tbl; lia.
Qed.

Lemma days_before_month_pos (y m : Z) :
  1 <= m <= 12 -> 0 <= datetime.days_before_month y m.
Proof.
  intros H. unfold datetime.days_before_month.
  destruct (datetime.is_leap y); enum_Z m 1;
    cbn [Z.gtb Z.compare Pos.compare Pos.compare_cont andb]; eval_tbl; lia.
Qed.

(** The order of dates is the order of their ordinals. *)
Lemma toordinal_lt (a b : datetime.date) :
  datetime.valid a -> datetime.valid b ->
  datetime.lt a b = true -> datetime.toordinal a < datetime.toordinal b.
Proof.
  unfold datetime.valid. intros (Hya & Hma & Hda) (Hyb & Hmb & Hdb).
  unfold datetime.lt, datetime.toordinal, datetime.ymd2ord.
  intros H.
  assert (H' : datetime.year a < datetime.year b \/
               (datetime.year a = datetime.year b /\
                (datetime.month a < datetime.month b \/
                 (datetime.month a = datetime.month b /\
                  datetime.day a < datetime.day b)))).
  { destruct (Z.ltb_spec (datetime.year a) (datetime.year b)); [now left|].
    destruct (Z.eqb_spec (datetime.year a) (datetime.year b)); [|discriminate].
    destruct (Z.ltb_spec (datetime.month a) (datetime.month b)); [now auto|].
    destruct (Z.eqb_spec (datetime.month a) (datetime.month b)); [|discriminate].
    destruct (Z.ltb_spec (datetime.day a) (datetime.day b)); [now auto|discriminate]. }
  clear H. destruct H' as [Hy|[Ey [Hm|[Em Hd]]]].
  - pose proof (days_before_month_bound _ _ _ Hma Hda) as Hb.
    pose proof (days_before_next_year (datetime.year a)) as Hnext.
    pose proof (days_before_year_mono (datetime.year a + 1) (datetime.year b)
                  ltac:(lia)) as Hmono.
    pose proof (days_before_month_pos (datetime.year b) _ Hmb).
    destruct (datetime.is_leap (datetime.year a)); lia.
  - rewrite Ey in *.
    pose proof (days_before_month_lt (datetime.year b) (datetime.month a)
                  (datetime.month b) (datetime.day a)
                  ltac:(lia) Hm ltac:(lia) Hda). lia.
  - rewrite Ey, Em. lia.
Qed.

Lemma lt_total (a b : datetime.date) :
  datetime.lt a b = true \/ a = b \/ datetime.lt b a = true.
Proof.
  destruct a as [ya ma da], b as [yb mb db]. unfold datetime.lt. simpl.
  destruct (Z.ltb_spec ya yb), (Z.ltb_spec yb ya), (Z.eqb_spec ya yb),
    (Z.eqb_spec yb ya), (Z.ltb_spec ma mb), (Z.ltb_spec mb ma), (Z.eqb_spec ma mb),
    (Z.eqb_spec mb ma), (Z.ltb_spec da db), (Z.ltb_spec db da);
    cbn [orb andb]; auto; try lia.
  right. left. f_equal; lia.
Qed.

Lemma toordinal_inj (a b : datetime.date) :
  datetime.valid a -> datetime.valid b ->
  datetime.toordinal a = datetime.toordinal b -> a = b.
Proof.
  intros Ha Hb E. destruct (lt_total a b) as [H|[H|H]]; [|exact H|].
  - apply toordinal_lt in H; auto. lia.
  - apply toordinal_lt in H; auto. lia.
Qed.

Lemma new_inv (y m d : Z) (x : datetime.date) :
  datetime.new y m d = Ok x -> x = datetime.mkdate y m d /\ datetime.valid x.
Proof.
  unfold datetime.new, datetime.valid.
  destruct (Z.leb_spec datetime.MINYEAR y), (Z.leb_spec y datetime.MAXYEAR);
    cbn [andb negb]; try discriminate.
  destruct (Z.leb_spec 1 m), (Z.leb_spec m 12); cbn [andb negb]; try discriminate.
  destruct (Z.leb_spec 1 d), (Z.leb_spec d (datetime.days_in_month y m));
    cbn [andb negb]; try discriminate.
  intros [= <-]. split; [reflexivity|].
  cbn [datetime.year datetime.month datetime.day]. lia.
Qed.

Lemma new_valid (x : datetime.date) :
  datetime.valid x ->
  datetime.new (datetime.year x) (datetime.month x) (datetime.day x) = Ok x.
Proof.
  unfold datetime.new, datetime.valid. intros (Hy & Hm & Hd).
  destruct (Z.leb_spec datetime.MINYEAR (datetime.year x)),
    (Z.leb_spec (datetime.year x) datetime.MAXYEAR); try lia.
  destruct (Z.leb_spec 1 (datetime.month x)), (Z.leb_spec (datetime.month x) 12);
    try lia.
  destruct (Z.leb_spec 1 (datetime.day x)),
    (Z.leb_spec (datetime.day x)
       (datetime.days_in_month (datetime.year x) (datetime.month x))); try lia.
  destruct x; reflexivity.
Qed.

Lemma fromordinal_toordinal (o : Z) :
  1 <= o <= datetime.MAXORDINAL ->
  exists d, datetime.fromordinal o = Ok d /\ datetime.valid d /\
            datetime.toordinal d = o.
Proof.
  intros Ho. pose proof (ord2ymd_ymd2ord o Ho) as H.
  unfold datetime.fromordinal.
  destruct (datetime.ord2ymd o) as [[y m] d]. destruct H as (Hy & Hm & Hd & Hord).
  exists (datetime.mkdate y m d).
  split; [apply (new_valid (datetime.mkdate y m d)) | split; [|exact Hord]];
    unfold datetime.valid; simpl; auto.
Qed.

Lemma add_days_spec (d : datetime.date) (n : Z) :
  1 <= datetime.toordinal d + n <= datetime.MAXORDINAL ->
  exists d', datetime.add_days d n = Ok d' /\ datetime.valid d' /\
             datetime.toordinal d' = datetime.toordinal d + n.
Proof.
  intros H. unfold datetime.add_days.
  destruct (Z.ltb_spec 0 (datetime.toordinal d + n)),
    (Z.leb_spec (datetime.toordinal d + n) datetime.MAXORDINAL); try lia.
  now apply fromordinal_toordinal.
Qed.

(** ** The birthday week *)

(** The weekend adjustment on a date object. *)
Lemma congratulation_spec (date : datetime.date) :
  datetime.valid date ->
  exists adjusted,
    congratulation date = Ok adjusted /\ datetime.valid adjusted /\
    spec_adjusted date adjusted.
Proof.
  intros Hv. pose proof (toordinal_range date Hv) as Hr.
  unfold congratulation, spec_adjusted.
  assert (Hw : 0 <= datetime.weekday date < 7)
    by (unfold datetime.weekday; apply Z.mod_pos_bound; lia).
  destruct (Z.geb_spec (datetime.weekday date) 5) as [Hge|Hlt].
  - assert (Hn : (7 - datetime.weekday date) mod 7 = 7 - datetime.weekday date)
      by (apply Z.mod_small; lia).
    rewrite Hn.
    destruct (add_days_spec date (7 - datetime.weekday date)) as (adj & Hadd & Hva & Hord).
    { unfold datetime.weekday, datetime.MAXORDINAL in *.
      Z.div_mod_to_equations. lia. }
    exists adj. split; [exact Hadd|]. split; [exact Hva|].
    assert (Hmon : datetime.weekday adj = 0).
    { unfold datetime.weekday in *. rewrite Hord.
      Z.div_mod_to_equations. lia. }
    repeat split; try lia.
  - exists date. split; [reflexivity|]. split; [exact Hv|].
    repeat split; lia.
Qed.

(** The adjusted date is determined by the date. *)
Lemma spec_adjusted_unique (date a1 a2 : datetime.date) :
  datetime.valid a1 -> datetime.valid a2 ->
  spec_adjusted date a1 -> spec_adjusted date a2 -> a1 = a2.
Proof.
  intros H1 H2 (S1 & U1 & K1) (S2 & U2 & K2).
  destruct (Z.eq_dec (datetime.weekday date) 5) as [E5|N5].
  - apply toordinal_inj; auto. destruct (S1 E5), (S2 E5). lia.
  - destruct (Z.eq_dec (datetime.weekday date) 6) as [E6|N6].
    + apply toordinal_inj; auto. destruct (U1 E6), (U2 E6). lia.
    + rewrite (K1 N5 N6), (K2 N5 N6). reflexivity.
Qed.

(** After the roll forward the birthday is never before [today]. *)
Lemma next_birthday_not_before (today birthday : datetime.date) :
  datetime.valid today ->
  datetime.valid (spec_next_birthday today birthday) ->
  0 <= datetime.sub_days (spec_next_birthday today birthday) today.
Proof.
  unfold spec_next_birthday, datetime.sub_days.
  set (this_year := datetime.mkdate (datetime.year today) (datetime.month birthday)
                      (datetime.day birthday)).
  intros Ht. destruct (datetime.lt this_year today) eqn:E; intros Hv.
  - assert (H : datetime.lt today
                  (datetime.mkdate (datetime.year today + 1)
                     (datetime.month birthday) (datetime.day birthday)) = true).
    { unfold datetime.lt. simpl.
      destruct (Z.ltb_spec (datetime.year today) (datetime.year today + 1));
        [reflexivity | lia]. }
    apply toordinal_lt in H; auto. lia.
  - destruct (lt_total this_year today) as [H|[H|H]]; [congruence| |].
    + rewrite H. lia.
    + apply toordinal_lt in H; auto. lia.
Qed.

Lemma birthday_this_year_inv (today birthday date : datetime.date) :
  birthday_this_year today birthday = Ok date ->
  date = spec_next_birthday today birthday /\ datetime.valid date.
Proof.
  unfold birthday_this_year, spec_next_birthday, datetime.replace_year.
  destruct (datetime.new (datetime.year today) _ _) as [this_year|e] eqn:E;
    [|discriminate].
  apply new_inv in E. destruct E as [-> Hv]. simpl.
  destruct (datetime.lt _ today).
  - intros H. apply new_inv in H. exact H.
  - intros [= <-]. split; [reflexivity | exact Hv].
Qed.

Lemma birthdays_body_inv (today : datetime.date) (r : Record.t) (acc l : list user) :
  birthdays_body today r acc = Ok l ->
  (spec_in_window today r = false /\ l = acc) \/
  (spec_in_window today r = true /\
   exists u, l = (acc ++ [u])%list /\ spec_entry today r u).
Proof.
  unfold birthdays_body, spec_in_window, spec_entry.
  destruct (Record.birthday r) as [b|]; [|intros [= <-]; now left].
  destruct (birthday_this_year today (Birthday.value b)) as [date|e] eqn:E;
    [|discriminate].
  apply birthday_this_year_inv in E. destruct E as [Hdate Hv]. subst date.
  cbn [rbind].
  set (date := spec_next_birthday today (Birthday.value b)) in *.
  destruct ((0 <=? datetime.sub_days date today)
            && (datetime.sub_days date today <=? 7)); [|intros [= <-]; now left].
  destruct (congratulation_spec date Hv) as (adj & Hc & Hva & Hadj).
  rewrite Hc. simpl. intros [= <-]. right. split; [reflexivity|].
  eexists. split; [reflexivity|]. exists b, adj.
  split; [reflexivity|]. split; [exact Hv|]. split; [exact Hva|].
  split; [exact Hadj|]. split; reflexivity.
Qed.

Lemma birthdays_loop_inv (today : datetime.date) (rs : list Record.t)
    (acc l : list user) :
  birthdays_loop today rs acc = Ok l ->
  exists l', l = (acc ++ l')%list /\
             Forall2 (spec_entry today) (filter (spec_in_window today) rs) l'.
Proof.
  revert acc. induction rs as [|r rs IH]; intros acc; simpl.
  - intros [= <-]. exists []. split; [now rewrite app_nil_r | constructor].
  - destruct (birthdays_body today r acc) as [acc'|e] eqn:E; [|discriminate].
    simpl. intros H. destruct (IH _ H) as (l' & -> & HF).
    apply birthdays_body_inv in E.
    destruct E as [[Hw ->]|[Hw (u & -> & Hu)]]; rewrite Hw.
    + exists l'. split; [reflexivity | exact HF].
    + exists (u :: l'). split; [now rewrite <- app_assoc | now constructor].
Qed.

Lemma replace_year_ok (b : datetime.date) (y : Z) :
  datetime.valid b ->
  ~ (datetime.month b = 2 /\ datetime.day b = 29) ->
  datetime.MINYEAR <= y <= datetime.MAXYEAR ->
  datetime.replace_year b y =
  Ok (datetime.mkdate y (datetime.month b) (datetime.day b)).
Proof.
  intros (Hy & Hm & Hd) Hleap Hyr.
  apply (new_valid (datetime.mkdate y (datetime.month b) (datetime.day b))).
  unfold datetime.valid. cbn [datetime.year datetime.month datetime.day].
  split; [exact Hyr|]. split; [exact Hm|].
  unfold datetime.days_in_month in *.
  destruct (Z.eqb_spec (datetime.month b) 2) as [E|E]; cbn [andb] in *; [|lia].
  rewrite E in *. change (datetime.tbl datetime.DAYS_IN_MONTH 2) with 28 in *.
  destruct (datetime.is_leap (datetime.year b)), (datetime.is_leap y); lia.
Qed.

Lemma birthday_this_year_ok (today b : datetime.date) :
  datetime.valid today -> datetime.year today < datetime.MAXYEAR ->
  datetime.valid b ->
  ~ (datetime.month b = 2 /\ datetime.day b = 29) ->
  birthday_this_year today b = Ok (spec_next_birthday today b).
Proof.
  intros Ht Hmax Hb Hleap. pose proof Ht as (Hy & _).
  unfold birthday_this_year, spec_next_birthday.
  rewrite replace_year_ok by (auto; lia). cbn [rbind].
  destruct (datetime.lt _ today); [|reflexivity].
  unfold datetime.replace_year. cbn [datetime.year datetime.month datetime.day].
  apply (replace_year_ok b (datetime.year today + 1)); auto. lia.
Qed.

Lemma birthdays_loop_defined (today : datetime.date) (rs : list Record.t)
    (acc : list user) :
  datetime.valid today -> datetime.year today < datetime.MAXYEAR ->
  (forall r b, In r rs -> Record.birthday r = Some b ->
     datetime.valid (Birthday.value b) /\
     ~ (datetime.month (Birthday.value b) = 2 /\ datetime.day (Birthday.value b) = 29)) ->
  exists l, birthdays_loop today rs acc = Ok l.
Proof.
  intros Ht Hmax. revert acc. induction rs as [|r rs IH]; intros acc Hrs; simpl.
  - now exists acc.
  - assert (Hbody : exists acc', birthdays_body today r acc = Ok acc').
    { unfold birthdays_body. destruct (Record.birthday r) as [b|] eqn:Eb;
        [|now exists acc].
      destruct (Hrs r b (or_introl eq_refl) Eb) as [Hb Hleap].
      rewrite (birthday_this_year_ok today _ Ht Hmax Hb Hleap). cbn [rbind].
      destruct (_ && _); [|now exists acc].
      assert (Hv : datetime.valid (spec_next_birthday today (Birthday.value b))).
      { pose proof (birthday_this_year_ok today _ Ht Hmax Hb Hleap) as H.
        now apply birthday_this_year_inv in H. }
      destruct (congratulation_spec _ Hv) as (adj & -> & _). cbn [rbind].
      eexists. reflexivity. }
    destruct Hbody as [acc' ->]. cbn [rbind]. apply IH.
    intros r' b' Hin. apply Hrs. now right.
Qed.

Lemma birthday_list_inv (today : datetime.date) (book : AddressBook.t)
    (l : list user) :
  birthday_list today book = Ok l ->
  birthdays_loop today (dict.values book) [] = Ok l.
Proof.
  unfold birthday_list. destruct (datetime.add_days today 7); [|discriminate].
  intros H. exact H.
Qed.

Lemma next_week_defined (today : datetime.date) :
  datetime.valid today -> datetime.year today < datetime.MAXYEAR ->
  exists next_week, datetime.add_days today 7 = Ok next_week.
Proof.
  intros Hv Hmax. destruct (add_days_spec today 7) as (d & Hd & _).
  - pose proof (toordinal_range today Hv) as Hr.
    destruct Hv as (Hy & Hm & Hd).
    pose proof (days_before_month_bound _ _ _ Hm Hd) as Hb.
    pose proof (days_before_next_year (datetime.year today)) as Hnext.
    pose proof (days_before_year_mono (datetime.year today + 1) 9999) as Hmono.
    unfold datetime.MAXYEAR, datetime.MINYEAR, datetime.MAXORDINAL,
      datetime.toordinal, datetime.ymd2ord in *.
    specialize (Hmono ltac:(lia)).
    change (datetime.days_before_year 9999) with 3651694 in Hmono.
    destruct (datetime.is_leap (datetime.year today)); lia.
  - now exists d.
Qed.

(** Where no birthday is a 29 February and the year after [today] exists,
    [birthdays] collects, in the order of the book, exactly the records in
    the window; the list is empty when there is none. *)
Lemma birthday_list_defined (today : datetime.date) (book : AddressBook.t) :
  datetime.valid today -> datetime.year today < datetime.MAXYEAR ->
  no_leap_day book ->
  exists l,
    birthday_list today book = Ok l /\
    Forall2 (spec_entry today) (filter (spec_in_window today) (dict.values book)) l /\
    (filter (spec_in_window today) (dict.values book) = [] -> l = []).
Proof.
  intros Ht Hmax Hbook. unfold birthday_list.
  destruct (next_week_defined today Ht Hmax) as [next_week ->]. cbn [rbind].
  destruct (birthdays_loop_defined today (dict.values book) [] Ht Hmax Hbook) as [l Hl].
  exists l. split; [exact Hl|].
  apply birthdays_loop_inv in Hl. destruct Hl as (l' & -> & HF). simpl.
  split; [exact HF|]. intros E. rewrite E in HF. now inversion HF.
Qed.

(** C1: on a book that holds a record born on 29 February 2000, on
    10 June 2023, [birthdays] produces no list: [replace(year=2023)] raises
    [ValueError] and the command ends with that exception, which
    [input_error] turns into its returned text; on 1 March 2024 the roll
    forward [replace(year=2025)] raises in the same way.  The record is one
    that [add_birthday] accepts. *)
Theorem birthdays_leap_day_raises :
  Record.add_birthday "29.02.2000" (Record.init "Eve") = (eve, Ok tt) /\
  birthday_list today_2024_03_01 leap_book =
  Raise (ValueError "day is out of range for month") /\
  birthday_list today_2023_06_10 leap_book =
  Raise (ValueError "day is out of range for month") /\
  birthdays today_2023_06_10 leap_book =
  Raise (ValueError "day is out of range for month") /\
  input_error (birthdays today_2023_06_10 leap_book) =
  inr "Error: day is out of range for month".
Proof. repeat split. Qed.

(** C2: every entry of the list that [birthdays] builds belongs to a record
    in the window, in the order of the book, and pairs the name of the
    record with the date of the birthday, moved from a Saturday by 2 days
    and from a Sunday by 1 day to the Monday after and written as
    YYYY.MM.DD; on 2024.06.10 a birthday on 12.06 gives "2024.06.12", one on
    15.06 gives "2024.06.17" and one on 01.01 gives no entry. *)
Theorem congratulation_skips_weekend :
  (forall today book l,
     birthday_list today book = Ok l ->
     Forall2 (spec_entry today)
       (filter (spec_in_window today) (dict.values book)) l) /\
  (forall date a1 a2,
     datetime.valid a1 -> datetime.valid a2 ->
     spec_adjusted date a1 -> spec_adjusted date a2 -> a1 = a2) /\
  (forall date,
     datetime.valid date ->
     exists adjusted,
       congratulation date = Ok adjusted /\ datetime.valid adjusted /\
       spec_adjusted date adjusted) /\
  datetime.weekday today_2024_06_10 = 0 /\
  datetime.weekday (datetime.mkdate 2024 6 15) = 5 /\
  datetime.weekday (datetime.mkdate 2024 6 17) = 0 /\
  spec_in_window today_2024_06_10 cid = false /\
  birthday_list today_2024_06_10 scenario_book =
  Ok [mkuser "Ann" "2024.06.12"; mkuser "Bob" "2024.06.17"].
Proof.
  split; [|split; [|split; [|repeat split]]].
  - intros today book l H. apply birthday_list_inv, birthdays_loop_inv in H.
    destruct H as (l' & -> & HF). exact HF.
  - apply spec_adjusted_unique.
  - apply congratulation_spec.
Qed.

Lemma congratulation_skips_weekend_witness :
  Forall2 (spec_entry today_2024_06_10)
    (filter (spec_in_window today_2024_06_10) (dict.values scenario_book))
    [mkuser "Ann" "2024.06.12"; mkuser "Bob" "2024.06.17"].
Proof.
  apply (proj1 congratulation_skips_weekend today_2024_06_10 scenario_book).
  reflexivity.
Defined.

(** ** Dates as text *)

Lemma digit_char_facts (k : Z) :
  0 <= k <= 9 ->
  is_decimal (digit_char k) = true /\ code (digit_char k) = 48 + k /\
  is_space (digit_char k) = false.
Proof. intros H. enum_Z k 0; repeat split. Qed.

Lemma int_pad2 (n : Z) : 0 <= n <= 99 -> int (pad2 n) = Ok n.
Proof.
  intros H. unfold pad2, int.
  assert (Ha : 0 <= n / 10 mod 10 <= 9) by (Z.div_mod_to_equations; lia).
  assert (Hb : 0 <= n mod 10 <= 9) by (Z.div_mod_to_equations; lia).
  destruct (digit_char_facts _ Ha) as (Da & Ca & Sa).
  destruct (digit_char_facts _ Hb) as (Db & Cb & _).
  cbn [lstrip]. rewrite Sa. cbn [int_digits]. rewrite Da, Db, Ca, Cb.
  f_equal. Z.div_mod_to_equations. lia.
Qed.

Lemma int_pad4 (n : Z) : 0 <= n <= 9999 -> int (pad4 n) = Ok n.
Proof.
  intros H. unfold pad4, pad2, int.
  assert (Ha : 0 <= n / 1000 mod 10 <= 9) by (Z.div_mod_to_equations; lia).
  assert (Hb : 0 <= n / 100 mod 10 <= 9) by (Z.div_mod_to_equations; lia).
  assert (Hc : 0 <= n / 10 mod 10 <= 9) by (Z.div_mod_to_equations; lia).
  assert (Hd : 0 <= n mod 10 <= 9) by (Z.div_mod_to_equations; lia).
  destruct (digit_char_facts _ Ha) as (Da & Ca & Sa).
  destruct (digit_char_facts _ Hb) as (Db & Cb & _).
  destruct (digit_char_facts _ Hc) as (Dc & Cc & _).
  destruct (digit_char_facts _ Hd) as (Dd & Cd & _).
  cbn [lstrip]. rewrite Sa. cbn [int_digits]. rewrite Da, Db, Dc, Dd, Ca, Cb, Cc, Cd.
  f_equal. Z.div_mod_to_equations. lia.
Qed.

Lemma int_digit (n : Z) : 0 <= n <= 9 -> int (String (digit_char n) EmptyString) = Ok n.
Proof.
  intros H. destruct (digit_char_facts _ H) as (D & C & S).
  unfold int. cbn [lstrip]. rewrite S. cbn [int_digits]. rewrite D, C.
  f_equal. lia.
Qed.

Lemma int_text2 (padded : bool) (n : Z) : 0 <= n <= 99 -> int (text2 padded n) = Ok n.
Proof.
  intros H. unfold text2. destruct padded; cbn [orb]; [now apply int_pad2|].
  destruct (Z.leb_spec 10 n); [now apply int_pad2 | apply int_digit; lia].
Qed.

(** The pattern of ["%d.%m.%Y"] on a day and a month of one or two digits
    and a year of four. *)
Lemma match_format_text (pd pm : bool) (dd mm : Z) (c1 c2 c3 c4 : ascii) :
  1 <= dd <= 31 -> 1 <= mm <= 12 ->
  is_decimal c1 = true -> is_decimal c2 = true ->
  is_decimal c3 = true -> is_decimal c4 = true ->
  let data_string :=
    text2 pd dd ++ "." ++ text2 pm mm ++ "."
    ++ String c1 (String c2 (String c3 (String c4 EmptyString))) in
  re.match_ datetime.format_regex data_string =
  Some ([("Y", String c1 (String c2 (String c3 (String c4 EmptyString))));
         ("m", text2 pm mm); ("d", text2 pd dd)], len data_string).
Proof.
  intros Hd Hm H1 H2 H3 H4.
  destruct pd, pm; enum_Z dd 1; enum_Z mm 1;
    cbv -[is_decimal]; rewrite H1, H2, H3, H4; reflexivity.
Qed.

Lemma days_in_month_le_31 (y m : Z) : 1 <= m <= 12 -> datetime.days_in_month y m <= 31.
Proof.
  intros H. unfold datetime.days_in_month.
  destruct ((m =? 2) && datetime.is_leap y); [lia|].
  enum_Z m 1; vm_compute; discriminate.
Qed.

(** A date written as day.month.year, the day and the month with or without
    a leading zero and the year with four digits, is read as that date. *)
Lemma strptime_text (pd pm : bool) (d : datetime.date) :
  datetime.valid d ->
  datetime.strptime
    (text2 pd (datetime.day d) ++ "." ++ text2 pm (datetime.month d) ++ "."
     ++ pad4 (datetime.year d)) = Ok d.
Proof.
  intros Hv. pose proof Hv as (Hy & Hm & Hd).
  pose proof (days_in_month_le_31 (datetime.year d) _ Hm) as H31.
  unfold datetime.MINYEAR, datetime.MAXYEAR in Hy.
  unfold datetime.strptime.
  set (y := datetime.year d) in *.
  assert (Ha : 0 <= y / 1000 mod 10 <= 9) by (Z.div_mod_to_equations; lia).
  assert (Hb : 0 <= y / 100 mod 10 <= 9) by (Z.div_mod_to_equations; lia).
  assert (Hc : 0 <= y / 10 mod 10 <= 9) by (Z.div_mod_to_equations; lia).
  assert (He : 0 <= y mod 10 <= 9) by (Z.div_mod_to_equations; lia).
  assert (Hpad : pad4 y =
                 String (digit_char (y / 1000 mod 10))
                   (String (digit_char (y / 100 mod 10))
                      (String (digit_char (y / 10 mod 10))
                         (String (digit_char (y mod 10)) EmptyString)))) by reflexivity.
  rewrite Hpad.
  rewrite match_format_text;
    try (apply digit_char_facts; assumption); try lia.
  rewrite <- Hpad. rewrite Z.eqb_refl.
  cbn [negb re.group String.eqb Ascii.eqb Bool.eqb].
  rewrite int_pad4 by lia. rewrite !int_text2 by lia. cbn [rbind].
  now apply new_valid.
Qed.

Lemma forallb_below (p : Z -> bool) (bound : Z) :
  forallb p (map Z.of_nat (seq 0 (Z.to_nat bound))) = true ->
  forall n, 0 <= n < bound -> p n = true.
Proof.
  intros H n Hn. apply (forallb_range p (Z.to_nat bound) H).
  rewrite Z2Nat.id by lia. exact Hn.
Qed.

Lemma str_int_four (y : Z) : 1000 <= y <= 9999 -> str_int y = pad4 y.
Proof.
  intros H. apply String.eqb_eq.
  replace y with (1000 + (y - 1000)) by lia.
  apply (forallb_below (fun k => (str_int (1000 + k) =? pad4 (1000 + k))%string) 9000);
    [vm_compute; reflexivity | lia].
Qed.

Lemma str_int_short (y : Z) :
  1 <= y <= 999 ->
  (len (str_int y) <=? 3) && negb (len (str_int y) =? 0)
  && str_all is_decimal (str_int y) = true.
Proof.
  intros H.
  replace y with (1 + (y - 1)) by lia.
  apply (forallb_below
           (fun k => (len (str_int (1 + k)) <=? 3) && negb (len (str_int (1 + k)) =? 0)
                     && str_all is_decimal (str_int (1 + k))) 999);
    [vm_compute; reflexivity | lia].
Qed.

(** ** What the pattern of a date matches *)

(** Whatever the search of [re.run] returns comes from a match. *)
Lemma run_sound {A : Type} (r : re.regex) (s : string) (g : re.groups)
    (k : string -> re.groups -> option A) (x : A) :
  re.run r s g k = Some x ->
  exists s' g', re_matches r s g s' g' /\ k s' g' = Some x.
Proof.
  revert s g k. induction r as [c|lo hi| |r1 IH1 r2 IH2|r1 IH1 r2 IH2|name r IH];
    intros s g k; simpl.
  - destruct s as [|a s]; [discriminate|].
    destruct (Ascii.eqb_spec a c) as [->|]; [|discriminate].
    intros H. exists s, g. split; [constructor | exact H].
  - destruct s as [|a s]; [discriminate|].
    destruct ((code lo <=? code a) && (code a <=? code hi)) eqn:E; [|discriminate].
    intros H. exists s, g. split; [now constructor | exact H].
  - destruct s as [|a s]; [discriminate|].
    destruct (is_decimal a) eqn:E; [|discriminate].
    intros H. exists s, g. split; [now constructor | exact H].
  - intros H. apply IH1 in H. destruct H as (s1 & g1 & H1 & H).
    apply IH2 in H. destruct H as (s2 & g2 & H2 & H).
    exists s2, g2. split; [econstructor; eassumption | exact H].
  - destruct (re.run r1 s g k) as [y|] eqn:E.
    + intros [= ->]. apply IH1 in E. destruct E as (s' & g' & H1 & H).
      exists s', g'. split; [now apply matches_alt_l | exact H].
    + intros H. apply IH2 in H. destruct H as (s' & g' & H2 & H).
      exists s', g'. split; [now apply matches_alt_r | exact H].
  - intros H. apply IH in H. destruct H as (s' & g' & H1 & H).
    eexists s', _. split; [constructor; eassumption | exact H].
Qed.

Lemma substring_prefix (a b : string) : substring 0 (String.length a) (a ++ b) = a.
Proof.
  induction a as [|c a IH]; simpl.
  - destruct b; reflexivity.
  - now rewrite IH.
Qed.

Lemma length_append (a b : string) :
  String.length (a ++ b) = (String.length a + String.length b)%nat.
Proof. induction a as [|c a IH]; simpl; [reflexivity | now rewrite IH]. Qed.

Lemma consumed_append (a b : string) : re.consumed (a ++ b) b = a.
Proof.
  unfold re.consumed. rewrite length_append.
  replace (String.length a + String.length b - String.length b)%nat
    with (String.length a) by lia.
  apply substring_prefix.
Qed.

Lemma consumed_1 (a : ascii) (s : string) :
  re.consumed (String a s) s = String a EmptyString.
Proof. apply (consumed_append (String a EmptyString) s). Qed.

Lemma consumed_2 (a b : ascii) (s : string) :
  re.consumed (String a (String b s)) s = String a (String b EmptyString).
Proof. apply (consumed_append (String a (String b EmptyString)) s). Qed.

Lemma consumed_4 (a b c d : ascii) (s : string) :
  re.consumed (String a (String b (String c (String d s)))) s =
  String a (String b (String c (String d EmptyString))).
Proof.
  apply (consumed_append (String a (String b (String c (String d EmptyString)))) s).
Qed.

Ltac inv_matches :=
  repeat match goal with
         | H : re_matches (re.Cat _ _) _ _ _ _ |- _ => inversion H; subst; clear H
         | H : re_matches (re.Alt _ _) _ _ _ _ |- _ => inversion H; subst; clear H
         | H : re_matches (re.Group _ _) _ _ _ _ |- _ => inversion H; subst; clear H
         | H : re_matches (re.Chr _) _ _ _ _ |- _ => inversion H; subst; clear H
         | H : re_matches (re.Range _ _) _ _ _ _ |- _ => inversion H; subst; clear H
         | H : re_matches re.Digit _ _ _ _ |- _ => inversion H; subst; clear H
         end.

Lemma is_decimal_code (c : ascii) : is_decimal c = true <-> 48 <= code c <= 57.
Proof. unfold is_decimal. rewrite andb_true_iff, !Z.leb_le. tauto. Qed.

Lemma range_code (lo hi c : ascii) :
  (code lo <=? code c) && (code c <=? code hi) = true <->
  code lo <= code c <= code hi.
Proof. rewrite andb_true_iff, !Z.leb_le. tauto. Qed.

Lemma decimal_not_space (c : ascii) : is_decimal c = true -> is_space c = false.
Proof.
  rewrite is_decimal_code. intros H. unfold is_space.
  repeat match goal with
         | |- context [?a <=? ?b] => destruct (Z.leb_spec a b); try lia
         | |- context [?a =? ?b] => destruct (Z.eqb_spec a b); try lia
         end; reflexivity.
Qed.

(** The codes of the characters that the pattern names. *)
Ltac pattern_codes :=
  change (code "0") with 48 in *; change (code "1") with 49 in *;
  change (code "2") with 50 in *; change (code "3") with 51 in *;
  change (code "9") with 57 in *; change (code " ") with 32 in *.

Lemma int_two_digits (c1 c2 : ascii) :
  is_decimal c1 = true -> is_decimal c2 = true ->
  int (String c1 (String c2 EmptyString)) =
  Ok (spec_number (String c1 (String c2 EmptyString))).
Proof.
  intros H1 H2. unfold int, spec_number. cbn [lstrip spec_number_from].
  rewrite (decimal_not_space _ H1). cbn [int_digits]. now rewrite H1, H2.
Qed.

Lemma int_one_digit (c : ascii) :
  is_decimal c = true ->
  int (String c EmptyString) = Ok (spec_number (String c EmptyString)).
Proof.
  intros H. unfold int, spec_number. cbn [lstrip spec_number_from].
  rewrite (decimal_not_space _ H). cbn [int_digits]. now rewrite H.
Qed.

Lemma int_space_digit (c : ascii) :
  is_decimal c = true ->
  int (String " " (String c EmptyString)) =
  Ok (spec_number (String " " (String c EmptyString))).
Proof.
  intros H. unfold int, spec_number. cbn [lstrip spec_number_from].
  change (is_space " ") with true. change (is_decimal " ") with false. cbv iota.
  rewrite (decimal_not_space _ H). cbn [int_digits]. now rewrite H.
Qed.

Lemma int_four_digits (c1 c2 c3 c4 : ascii) :
  is_decimal c1 = true -> is_decimal c2 = true ->
  is_decimal c3 = true -> is_decimal c4 = true ->
  int (String c1 (String c2 (String c3 (String c4 EmptyString)))) =
  Ok (spec_number (String c1 (String c2 (String c3 (String c4 EmptyString))))).
Proof.
  intros H1 H2 H3 H4. unfold int, spec_number. cbn [lstrip spec_number_from].
  rewrite (decimal_not_space _ H1). cbn [int_digits]. now rewrite H1, H2, H3, H4.
Qed.

Ltac take_text :=
  match goal with
  | |- exists _, String ?a (String ?b (String ?c (String ?d ?s))) = _ ++ ?s /\ _ =>
      exists (String a (String b (String c (String d EmptyString))))
  | |- exists _, String ?a (String ?b ?s) = _ ++ ?s /\ _ =>
      exists (String a (String b EmptyString))
  | |- exists _, String ?a ?s = _ ++ ?s /\ _ =>
      exists (String a EmptyString)
  end.

(** The day as the pattern takes it. *)
Lemma day_group_inv (s s1 : string) (g g1 : re.groups) :
  re_matches (re.Group "d" datetime.re_d) s g s1 g1 ->
  exists D,
    s = D ++ s1 /\ g1 = ("d", D) :: g /\ spec_day_text D = true /\
    int D = Ok (spec_number D).
Proof.
  intros H. cbv [datetime.re_d] in H. inv_matches;
    repeat match goal with
           | H : (_ <=? _) && (_ <=? _) = true |- _ => apply range_code in H
           | H : is_decimal _ = true |- _ => apply is_decimal_code in H
           end; pattern_codes.
  - take_text.
    rewrite consumed_2. repeat split.
    + unfold spec_day_text, digit_value. apply orb_true_iff. right.
      rewrite !andb_true_iff, !is_decimal_code, !Z.leb_le. pattern_codes. lia.
    + apply int_two_digits; apply is_decimal_code; pattern_codes; lia.
  - take_text.
    rewrite consumed_2. repeat split.
    + unfold spec_day_text, digit_value. apply orb_true_iff. right.
      rewrite !andb_true_iff, !is_decimal_code, !Z.leb_le. lia.
    + apply int_two_digits; apply is_decimal_code; lia.
  - take_text.
    rewrite consumed_2. repeat split.
    + unfold spec_day_text, digit_value. apply orb_true_iff. right.
      rewrite !andb_true_iff, !is_decimal_code, !Z.leb_le. pattern_codes. lia.
    + apply int_two_digits; apply is_decimal_code; pattern_codes; lia.
  - take_text.
    rewrite consumed_1. repeat split.
    + unfold spec_day_text, digit_value.
      rewrite !andb_true_iff, !is_decimal_code, !Z.leb_le. lia.
    + apply int_one_digit; apply is_decimal_code; lia.
  - take_text.
    rewrite consumed_2. repeat split.
    + unfold spec_day_text, digit_value. apply orb_true_iff. left.
      rewrite !andb_true_iff, !is_decimal_code, !Z.leb_le.
      repeat split; lia || reflexivity.
    + apply int_space_digit; apply is_decimal_code; lia.
Qed.

(** The month as the pattern takes it. *)
Lemma month_group_inv (s s1 : string) (g g1 : re.groups) :
  re_matches (re.Group "m" datetime.re_m) s g s1 g1 ->
  exists M,
    s = M ++ s1 /\ g1 = ("m", M) :: g /\ spec_month_text M = true /\
    int M = Ok (spec_number M).
Proof.
  intros H. cbv [datetime.re_m] in H. inv_matches;
    repeat match goal with
           | H : (_ <=? _) && (_ <=? _) = true |- _ => apply range_code in H
           | H : is_decimal _ = true |- _ => apply is_decimal_code in H
           end; pattern_codes.
  - take_text.
    rewrite consumed_2. repeat split.
    + unfold spec_month_text, digit_value.
      rewrite !andb_true_iff, !is_decimal_code, !Z.leb_le. pattern_codes. lia.
    + apply int_two_digits; apply is_decimal_code; pattern_codes; lia.
  - take_text.
    rewrite consumed_2. repeat split.
    + unfold spec_month_text, digit_value.
      rewrite !andb_true_iff, !is_decimal_code, !Z.leb_le. pattern_codes. lia.
    + apply int_two_digits; apply is_decimal_code; pattern_codes; lia.
  - take_text.
    rewrite consumed_1. repeat split.
    + unfold spec_month_text, digit_value.
      rewrite !andb_true_iff, !is_decimal_code, !Z.leb_le. lia.
    + apply int_one_digit; apply is_decimal_code; lia.
Qed.

(** The year as the pattern takes it. *)
Lemma year_group_inv (s s1 : string) (g g1 : re.groups) :
  re_matches (re.Group "Y" datetime.re_Y) s g s1 g1 ->
  exists Y,
    s = Y ++ s1 /\ g1 = ("Y", Y) :: g /\ spec_year_text Y = true /\
    int Y = Ok (spec_number Y).
Proof.
  intros H. cbv [datetime.re_Y] in H. inv_matches.
  take_text. rewrite consumed_4. repeat split.
  - unfold spec_year_text. cbn.
    repeat match goal with H : is_decimal _ = true |- _ => rewrite H; clear H end.
    reflexivity.
  - now apply int_four_digits.
Qed.

Lemma len_zero (s : string) : len s = 0 -> s = EmptyString.
Proof. destruct s; [reflexivity|]. unfold len. cbn [String.length]. lia. Qed.

Lemma append_nil_r (s : string) : s ++ EmptyString = s.
Proof. induction s as [|c s IH]; simpl; [reflexivity | now rewrite IH]. Qed.

(** What [strptime] reads has the three parts, and the date exists. *)
Lemma strptime_inv (raw : string) (d : datetime.date) :
  datetime.strptime raw = Ok d -> spec_date_text raw d.
Proof.
  unfold datetime.strptime.
  destruct (re.match_ datetime.format_regex raw) as [[found end_]|] eqn:Em;
    [|discriminate].
  unfold re.match_ in Em. apply run_sound in Em.
  destruct Em as (s' & g' & Hm & Hk). injection Hk as <- <-.
  destruct (Z.eqb_spec (len raw) (len raw - len s')) as [El|]; [|discriminate].
  assert (s' = EmptyString) by (apply len_zero; lia). subst s'.
  cbn [negb]. cbv [datetime.format_regex re.seq_of] in Hm.
  inversion Hm as [| | |? ? ? ? s1 g1 ? ? Hd Hm1| | |]; subst; clear Hm.
  inversion Hm1 as [| | |? ? ? ? s2 g2 ? ? Hp1 Hm2| | |]; subst; clear Hm1.
  inversion Hm2 as [| | |? ? ? ? s3 g3 ? ? Hmo Hm3| | |]; subst; clear Hm2.
  inversion Hm3 as [| | |? ? ? ? s4 g4 ? ? Hp2 Hy| | |]; subst; clear Hm3.
  inversion Hp1; subst; clear Hp1. inversion Hp2; subst; clear Hp2.
  apply day_group_inv in Hd. destruct Hd as (D & -> & -> & HD & ID).
  apply month_group_inv in Hmo. destruct Hmo as (M & -> & -> & HM & IM).
  apply year_group_inv in Hy. destruct Hy as (Y & HY0 & -> & HY & IY).
  rewrite append_nil_r in HY0. subst s4.
  cbn [re.group String.eqb Ascii.eqb Bool.eqb]. rewrite IY, IM, ID. cbn [rbind].
  intros Hn. apply new_inv in Hn. destruct Hn as [-> Hv].
  exists D, M, Y. repeat split; try assumption; apply Hv.
Qed.

Lemma ascii_digit (c : ascii) :
  is_decimal c = true ->
  c = digit_char (digit_value c) /\ 0 <= digit_value c <= 9.
Proof.
  intros H. apply is_decimal_code in H. unfold digit_char, digit_value. split; [|lia].
  replace (48 + (code c - 48)) with (code c) by lia.
  unfold code. now rewrite N2Z.id, ascii_N_embedding.
Qed.

Lemma day_text_int (D : string) :
  spec_day_text D = true -> int D = Ok (spec_number D).
Proof.
  destruct D as [|c1 [|c2 [|c3 D]]]; try discriminate; cbn [spec_day_text].
  - rewrite andb_true_iff. intros [H _]. now apply int_one_digit.
  - rewrite orb_true_iff, !andb_true_iff.
    intros [[[H1 H2] _]|[[[H1 H2] _] _]].
    + apply Ascii.eqb_eq in H1. subst c1. now apply int_space_digit.
    + now apply int_two_digits.
Qed.

Lemma month_text_int (M : string) :
  spec_month_text M = true -> int M = Ok (spec_number M).
Proof.
  destruct M as [|c1 [|c2 [|c3 M]]]; try discriminate; cbn [spec_month_text].
  - rewrite andb_true_iff. intros [H _]. now apply int_one_digit.
  - rewrite !andb_true_iff. intros [[[H1 H2] _] _]. now apply int_two_digits.
Qed.

Lemma year_text_four (Y : string) :
  spec_year_text Y = true ->
  exists c1 c2 c3 c4,
    Y = String c1 (String c2 (String c3 (String c4 EmptyString))) /\
    is_decimal c1 = true /\ is_decimal c2 = true /\
    is_decimal c3 = true /\ is_decimal c4 = true.
Proof.
  unfold spec_year_text. rewrite andb_true_iff, Z.eqb_eq. intros [Hl Ha].
  destruct Y as [|c1 [|c2 [|c3 [|c4 [|c5 Y]]]]];
    try (unfold len in Hl; cbn [String.length] in Hl; lia).
  cbn [str_all] in Ha. rewrite !andb_true_iff in Ha.
  exists c1, c2, c3, c4. tauto.
Qed.

Lemma year_text_int (Y : string) :
  spec_year_text Y = true -> int Y = Ok (spec_number Y).
Proof.
  intros H. apply year_text_four in H.
  destruct H as (c1 & c2 & c3 & c4 & -> & H1 & H2 & H3 & H4).
  now apply int_four_digits.
Qed.

(** The forms of a day: a number from 1 to 31 with or without its leading
    zero, or a space and a digit. *)
Lemma day_text_forms (D : string) :
  spec_day_text D = true ->
  (exists pd dd, 1 <= dd <= 31 /\ D = text2 pd dd) \/
  (exists k, 1 <= k <= 9 /\ D = String " " (String (digit_char k) EmptyString)).
Proof.
  destruct D as [|c1 [|c2 [|c3 D]]]; try discriminate; cbn [spec_day_text].
  - rewrite andb_true_iff, Z.leb_le. intros [H Hk].
    destruct (ascii_digit _ H) as [E R]. left. exists false, (digit_value c1).
    split; [lia|]. unfold text2. cbn [orb].
    destruct (Z.leb_spec 10 (digit_value c1)); [lia|]. now rewrite <- E.
  - rewrite orb_true_iff, !andb_true_iff, !Z.leb_le.
    intros [[[H1 H2] Hk]|[[[H1 H2] Hlo] Hhi]].
    + apply Ascii.eqb_eq in H1. subst c1.
      destruct (ascii_digit _ H2) as [E R]. right. exists (digit_value c2).
      split; [lia|]. now rewrite <- E.
    + destruct (ascii_digit _ H1) as [E1 R1], (ascii_digit _ H2) as [E2 R2].
      left. exists true, (10 * digit_value c1 + digit_value c2).
      split; [lia|]. unfold text2, pad2. cbn [orb].
      replace ((10 * digit_value c1 + digit_value c2) / 10 mod 10)
        with (digit_value c1) by (Z.div_mod_to_equations; lia).
      replace ((10 * digit_value c1 + digit_value c2) mod 10)
        with (digit_value c2) by (Z.div_mod_to_equations; lia).
      now rewrite <- E1, <- E2.
Qed.

Lemma month_text_forms (M : string) :
  spec_month_text M = true -> exists pm mm, 1 <= mm <= 12 /\ M = text2 pm mm.
Proof.
  destruct M as [|c1 [|c2 [|c3 M]]]; try discriminate; cbn [spec_month_text].
  - rewrite andb_true_iff, Z.leb_le. intros [H Hk].
    destruct (ascii_digit _ H) as [E R]. exists false, (digit_value c1).
    split; [lia|]. unfold text2. cbn [orb].
    destruct (Z.leb_spec 10 (digit_value c1)); [lia|]. now rewrite <- E.
  - rewrite !andb_true_iff, !Z.leb_le. intros [[[H1 H2] Hlo] Hhi].
    destruct (ascii_digit _ H1) as [E1 R1], (ascii_digit _ H2) as [E2 R2].
    exists true, (10 * digit_value c1 + digit_value c2).
    split; [lia|]. unfold text2, pad2. cbn [orb].
    replace ((10 * digit_value c1 + digit_value c2) / 10 mod 10)
      with (digit_value c1) by (Z.div_mod_to_equations; lia).
    replace ((10 * digit_value c1 + digit_value c2) mod 10)
      with (digit_value c2) by (Z.div_mod_to_equations; lia).
    now rewrite <- E1, <- E2.
Qed.

(** The pattern of ["%d.%m.%Y"] on a day written as a space and a digit. *)
Lemma match_format_space (pm : bool) (k mm : Z) (c1 c2 c3 c4 : ascii) :
  1 <= k <= 9 -> 1 <= mm <= 12 ->
  is_decimal c1 = true -> is_decimal c2 = true ->
  is_decimal c3 = true -> is_decimal c4 = true ->
  let data_string :=
    String " " (String (digit_char k) EmptyString) ++ "." ++ text2 pm mm ++ "."
    ++ String c1 (String c2 (String c3 (String c4 EmptyString))) in
  re.match_ datetime.format_regex data_string =
  Some ([("Y", String c1 (String c2 (String c3 (String c4 EmptyString))));
         ("m", text2 pm mm);
         ("d", String " " (String (digit_char k) EmptyString))], len data_string).
Proof.
  intros Hk Hm H1 H2 H3 H4.
  destruct pm; enum_Z k 1; enum_Z mm 1;
    cbv -[is_decimal]; rewrite H1, H2, H3, H4; reflexivity.
Qed.

(** The pattern finds the three parts of a text made of them. *)
Lemma match_format_parts (D M Y : string) :
  spec_day_text D = true -> spec_month_text M = true -> spec_year_text Y = true ->
  re.match_ datetime.format_regex (D ++ "." ++ M ++ "." ++ Y) =
  Some ([("Y", Y); ("m", M); ("d", D)], len (D ++ "." ++ M ++ "." ++ Y)).
Proof.
  intros HD HM HY.
  apply year_text_four in HY.
  destruct HY as (c1 & c2 & c3 & c4 & -> & H1 & H2 & H3 & H4).
  apply month_text_forms in HM. destruct HM as (pm & mm & Hmm & ->).
  apply day_text_forms in HD.
  destruct HD as [(pd & dd & Hdd & ->)|(k & Hk & ->)].
  - now apply match_format_text.
  - now apply match_format_space.
Qed.

(** A text of the three parts that names a date of the calendar is read as
    that date. *)
Lemma strptime_parts (D M Y : string) :
  spec_day_text D = true -> spec_month_text M = true -> spec_year_text Y = true ->
  datetime.valid (datetime.mkdate (spec_number Y) (spec_number M) (spec_number D)) ->
  datetime.strptime (D ++ "." ++ M ++ "." ++ Y) =
  Ok (datetime.mkdate (spec_number Y) (spec_number M) (spec_number D)).
Proof.
  intros HD HM HY Hv. unfold datetime.strptime.
  rewrite match_format_parts by assumption. rewrite Z.eqb_refl.
  cbn [negb re.group String.eqb Ascii.eqb Bool.eqb].
  rewrite (year_text_int _ HY), (month_text_int _ HM), (day_text_int _ HD).
  cbn [rbind]. exact (new_valid _ Hv).
Qed.

Lemma strptime_iff (raw : string) (d : datetime.date) :
  datetime.strptime raw = Ok d <-> spec_date_text raw d.
Proof.
  split; [apply strptime_inv|].
  intros (D & M & Y & -> & HD & HM & HY & -> & Hv). now apply strptime_parts.
Qed.

(** A date from the year 1000 on is read back from its text. *)
Lemma strptime_strftime (d : datetime.date) :
  datetime.valid d -> 1000 <= datetime.year d ->
  datetime.strptime (datetime.strftime_dmY d) = Ok d.
Proof.
  intros Hv Hy. pose proof Hv as (Hr & _).
  unfold datetime.MINYEAR, datetime.MAXYEAR in Hr.
  unfold datetime.strftime_dmY. rewrite str_int_four by lia.
  now apply (strptime_text true true).
Qed.

(** The text DD.MM.YYYY of a date is read as that date. *)
Lemma strptime_dmY_text (d : datetime.date) :
  datetime.valid d -> datetime.strptime (spec_dmY_text d) = Ok d.
Proof. apply (strptime_text true true). Qed.

(** The pattern of ["%d.%m.%Y"] finds no year in fewer than four
    characters. *)
Lemma match_format_short (dd mm : Z) (Y : string) :
  1 <= dd <= 31 -> 1 <= mm <= 12 -> len Y <= 3 ->
  re.match_ datetime.format_regex (pad2 dd ++ "." ++ pad2 mm ++ "." ++ Y) = None.
Proof.
  intros Hd Hm Hl.
  destruct Y as [|c1 [|c2 [|c3 [|c4 Y]]]];
    try (unfold len in Hl; cbn [String.length] in Hl; lia);
    enum_Z dd 1; enum_Z mm 1; cbv -[is_decimal];
    repeat (destruct (is_decimal _)); reflexivity.
Qed.

(** The text of a date before the year 1000 has a year of fewer than four
    digits and is not read. *)
Lemma strptime_strftime_short (d : datetime.date) :
  datetime.valid d -> datetime.year d < 1000 ->
  datetime.strptime (datetime.strftime_dmY d) =
  Raise (ValueError "time data does not match format").
Proof.
  intros (Hy & Hm & Hd) Hk.
  pose proof (days_in_month_le_31 (datetime.year d) _ Hm) as H31.
  unfold datetime.MINYEAR in Hy.
  pose proof (str_int_short (datetime.year d)) as Hs.
  rewrite !andb_true_iff, Z.leb_le in Hs. destruct Hs as [[Hs _] _]; [lia|].
  unfold datetime.strptime, datetime.strftime_dmY.
  rewrite match_format_short; [reflexivity | lia | lia | exact Hs].
Qed.

Lemma Birthday_init_valid (raw : string) (b : Birthday.t) :
  Birthday.init raw = Ok b -> datetime.valid (Birthday.value b).
Proof.
  unfold Birthday.init, datetime.strptime.
  destruct (re.match_ datetime.format_regex raw) as [[found end_]|]; [|discriminate].
  destruct (negb (len raw =? end_)); [discriminate|].
  destruct (int (re.group "Y" found)) as [y|[]]; try discriminate.
  destruct (int (re.group "m" found)) as [m|[]]; try discriminate.
  destruct (int (re.group "d" found)) as [d|[]]; try discriminate.
  cbn [rbind]. destruct (datetime.new y m d) as [x|[]] eqn:E; try discriminate.
  intros [= <-]. now apply new_inv in E.
Qed.

Lemma int_digits_total (s : string) (acc : Z) :
  (exists n, int_digits s acc = Ok n) \/
  (exists msg, int_digits s acc = Raise (ValueError msg)).
Proof.
  revert acc. induction s as [|c s IH]; intros acc; simpl.
  - left. now exists acc.
  - destruct (is_decimal c); [apply IH | right; now eexists].
Qed.

Lemma int_total (s : string) :
  (exists n, int s = Ok n) \/ (exists msg, int s = Raise (ValueError msg)).
Proof.
  unfold int. destruct (lstrip s); [right; now eexists | apply int_digits_total].
Qed.

Lemma new_total (y m d : Z) :
  (exists x, datetime.new y m d = Ok x) \/
  (exists msg, datetime.new y m d = Raise (ValueError msg)).
Proof.
  unfold datetime.new.
  destruct (negb _); [right; now eexists|].
  destruct (negb _); [right; now eexists|].
  destruct (negb _); [right; now eexists | left; now eexists].
Qed.

Lemma Birthday_init_total (raw : string) :
  (exists b, Birthday.init raw = Ok b) \/
  Birthday.init raw = Raise (ValueError "Invalid date format. Use DD.MM.YYYY").
Proof.
  unfold Birthday.init, datetime.strptime.
  destruct (re.match_ datetime.format_regex raw) as [[found end_]|]; [|now right].
  destruct (negb (len raw =? end_)); [now right|].
  destruct (int_total (re.group "Y" found)) as [[y ->]|[msg ->]]; [|now right].
  destruct (int_total (re.group "m" found)) as [[m ->]|[msg ->]]; [|now right].
  destruct (int_total (re.group "d" found)) as [[d ->]|[msg ->]]; [|now right].
  cbn [rbind]. destruct (new_total y m d) as [[x ->]|[msg ->]]; [|now right].
  left. now eexists.
Qed.

(** [Birthday] stores what [strptime] reads. *)
Lemma Birthday_init_strptime (raw : string) (b : Birthday.t) :
  Birthday.init raw = Ok b <-> datetime.strptime raw = Ok (Birthday.value b).
Proof.
  unfold Birthday.init. destruct b as [d]. cbn [Birthday.value].
  destruct (datetime.strptime raw) as [x|[]]; split; intros H;
    try discriminate H; now injection H as ->.
Qed.

(** C4, counterexample: ["1.1.2020"], with neither day nor month padded, is
    accepted and read as 1 January 2020. *)
Lemma Birthday_init_unpadded_counterexample :
  Birthday.init "1.1.2020" = Ok (Birthday.mk (datetime.mkdate 2020 1 1)) /\
  Birthday.init "1.1.2020" <> Raise (ValueError "Invalid date format. Use DD.MM.YYYY").
Proof. split; [reflexivity | discriminate]. Qed.

(** C4, as amended: on a text of characters below U+0100, [Birthday]
    succeeds exactly when the text is day.month.year, where the day is two
    digits from 01 to 31 or one digit from 1 to 9, alone or after one space,
    the month is two digits from 01 to 12 or one digit from 1 to 9, the year
    is exactly four digits, and the three numbers name a date of the
    calendar (the year 0000 names none); it then stores that date.  On every
    other text it fails with the [ValueError] "Invalid date format. Use
    DD.MM.YYYY".  "29.02.2024" succeeds, "31.02.2024" fails, "1.1.2020" and
    " 1.01.2020" succeed as 1 January 2020, and "01.01.20" and "01.01.02020"
    fail. *)
Theorem Birthday_init_day_month_year :
  (forall raw b,
     Birthday.init raw = Ok b <-> spec_date_text raw (Birthday.value b)) /\
  (forall raw,
     (forall d, ~ spec_date_text raw d) ->
     Birthday.init raw = Raise (ValueError "Invalid date format. Use DD.MM.YYYY")) /\
  Birthday.init "29.02.2024" = Ok (Birthday.mk (datetime.mkdate 2024 2 29)) /\
  Birthday.init "31.02.2024" =
  Raise (ValueError "Invalid date format. Use DD.MM.YYYY") /\
  Birthday.init "1.1.2020" = Ok (Birthday.mk (datetime.mkdate 2020 1 1)) /\
  Birthday.init " 1.01.2020" = Ok (Birthday.mk (datetime.mkdate 2020 1 1)) /\
  Birthday.init "01.01.20" =
  Raise (ValueError "Invalid date format. Use DD.MM.YYYY") /\
  Birthday.init "01.01.02020" =
  Raise (ValueError "Invalid date format. Use DD.MM.YYYY").
Proof.
  split; [|split; [|repeat split]].
  - intros raw b. rewrite Birthday_init_strptime. apply strptime_iff.
  - intros raw Hno. destruct (Birthday_init_total raw) as [[b Hb]|H]; [|exact H].
    apply Birthday_init_strptime, strptime_iff in Hb. now apply Hno in Hb.
Qed.

Lemma Birthday_init_day_month_year_witness :
  Birthday.init "5.03.1987" = Ok (Birthday.mk (datetime.mkdate 1987 3 5)) /\
  spec_date_text " 1.01.2020" (datetime.mkdate 2020 1 1) /\
  Birthday.init "2020-01-01" =
  Raise (ValueError "Invalid date format. Use DD.MM.YYYY").
Proof.
  split; [|split].
  - apply (proj2 (proj1 Birthday_init_day_month_year "5.03.1987"
                    (Birthday.mk (datetime.mkdate 1987 3 5)))).
    exists "5", "03", "1987". vm_compute. repeat split; discriminate.
  - apply (proj1 (proj1 Birthday_init_day_month_year " 1.01.2020"
                    (Birthday.mk (datetime.mkdate 2020 1 1)))).
    reflexivity.
  - apply (proj1 (proj2 Birthday_init_day_month_year) "2020-01-01").
    intros d (D & M & Y & E & HD & _).
    destruct D as [|c1 [|c2 [|c3 D]]]; try discriminate HD; discriminate E.
Defined.

(** C5: on a record that has a birthday, [add_birthday] raises "Only one
    birthday is allowed per record." and leaves the record, its birthday
    included, as it was; on a record without one, a string that [Birthday]
    accepts is parsed and stored, as is the DD.MM.YYYY text of every date of
    the calendar, and a second call then fails and keeps the first value. *)
Theorem add_birthday_only_once (r : Record.t) (value : string) :
  (forall b, Record.birthday r = Some b ->
     Record.add_birthday value r =
     (r, Raise (ValueError "Only one birthday is allowed per record."))) /\
  (forall d, Record.birthday r = None -> datetime.valid d ->
     Record.add_birthday (spec_dmY_text d) r =
     (Record.mk (Record.name r) (Record.phones r) (Some (Birthday.mk d)), Ok tt)) /\
  (forall b, Record.birthday r = None -> Birthday.init value = Ok b ->
     Record.add_birthday value r =
     (Record.mk (Record.name r) (Record.phones r) (Some b), Ok tt) /\
     forall value',
       Record.add_birthday value' (fst (Record.add_birthday value r)) =
       (Record.mk (Record.name r) (Record.phones r) (Some b),
        Raise (ValueError "Only one birthday is allowed per record."))).
Proof.
  split; [|split].
  - intros b Hb. rewrite add_birthday_eq, Hb. reflexivity.
  - intros d Hb Hv. rewrite add_birthday_eq, Hb. unfold Birthday.init.
    now rewrite strptime_dmY_text.
  - intros b Hb Hinit.
    assert (E : Record.add_birthday value r =
                (Record.mk (Record.name r) (Record.phones r) (Some b), Ok tt)).
    { rewrite add_birthday_eq, Hb, Hinit. reflexivity. }
    split; [exact E|]. intros value'. rewrite E, add_birthday_eq. reflexivity.
Qed.

Lemma add_birthday_only_once_witness :
  Record.add_birthday "01.01.2000" ann =
  (ann, Raise (ValueError "Only one birthday is allowed per record.")) /\
  Record.add_birthday "29.02.2024" (Record.init "Dan") =
  (Record.mk (Name.mk "Dan") [] (Some (Birthday.mk (datetime.mkdate 2024 2 29))),
   Ok tt).
Proof.
  split.
  - apply (proj1 (add_birthday_only_once ann "01.01.2000")
             (Birthday.mk (datetime.mkdate 1990 6 12))).
    reflexivity.
  - apply (proj2 (proj2 (add_birthday_only_once (Record.init "Dan") "29.02.2024"))
             (Birthday.mk (datetime.mkdate 2024 2 29))); reflexivity.
Defined.

(** * More about the program *)

(** ** Phones of a record *)

Lemma find_loop_app (number : string) (ps qs : list Phone.t) :
  Record.find_loop number (ps ++ qs) =
  match Record.find_loop number ps with
  | Some p => Some p
  | None => Record.find_loop number qs
  end.
Proof.
  induction ps as [|p ps IH]; simpl; [reflexivity|].
  destruct (Phone.value p =? number)%string; [reflexivity | exact IH].
Qed.

Lemma find_loop_value (number : string) (ps : list Phone.t) (p : Phone.t) :
  Record.find_loop number ps = Some p -> p = Phone.mk number.
Proof.
  intros H. apply find_loop_some in H. destruct H as (_ & _ & _ & Hv & _).
  destruct p as [v]. simpl in Hv. now subst.
Qed.

(** X1: a successful [add_phone] puts the phone last, behind the phones the
    record had; [find_phone] then finds the number, and the search for any
    other number gives what it gave before. *)
Theorem add_phone_then_find_phone (r : Record.t) (number : string) :
  ten_digits number ->
  let r' := fst (Record.add_phone number r) in
  snd (Record.add_phone number r) = Ok tt /\
  Record.phones r' = (Record.phones r ++ [Phone.mk number])%list /\
  Record.name r' = Record.name r /\ Record.birthday r' = Record.birthday r /\
  Record.find_phone number r' = Some (Phone.mk number) /\
  (forall other, other <> number ->
     Record.find_phone other r' = Record.find_phone other r).
Proof.
  intros H. rewrite add_phone_eq, (Phone_init_ok _ H). cbn.
  repeat split.
  - unfold Record.find_phone. cbn. rewrite find_loop_app.
    destruct (Record.find_loop number (Record.phones r)) as [p|] eqn:E.
    + now rewrite (find_loop_value _ _ _ E).
    + simpl. now rewrite String.eqb_refl.
  - intros other Hne. unfold Record.find_phone. cbn. rewrite find_loop_app.
    destruct (Record.find_loop other (Record.phones r)); [reflexivity|].
    simpl. destruct (String.eqb_spec number other); [congruence | reflexivity].
Qed.

Lemma add_phone_then_find_phone_witness :
  Record.find_phone "0123456789"
    (fst (Record.add_phone "0123456789" (Record.init "Ann"))) =
  Some (Phone.mk "0123456789").
Proof.
  apply (add_phone_then_find_phone (Record.init "Ann") "0123456789").
  split; reflexivity.
Defined.

Lemma find_loop_filter_eq (number : string) (ps : list Phone.t) :
  Record.find_loop number
    (filter (fun p => negb (Phone.value p =? number)%string) ps) = None.
Proof.
  induction ps as [|p ps IH]; simpl; [reflexivity|].
  destruct (Phone.value p =? number)%string eqn:E; simpl; [exact IH|].
  now rewrite E.
Qed.

Lemma find_loop_filter_ne (number other : string) (ps : list Phone.t) :
  other <> number ->
  Record.find_loop other
    (filter (fun p => negb (Phone.value p =? number)%string) ps) =
  Record.find_loop other ps.
Proof.
  intros Hne. induction ps as [|p ps IH]; simpl; [reflexivity|].
  destruct (String.eqb_spec (Phone.value p) number) as [E|E]; simpl.
  - destruct (String.eqb_spec (Phone.value p) other); [congruence | exact IH].
  - destruct (Phone.value p =? other)%string; [reflexivity | exact IH].
Qed.

Lemma remove_phone_eq (number : string) (r : Record.t) :
  Record.remove_phone number r =
  (Record.mk (Record.name r)
     (filter (fun p => negb (Phone.value p =? number)%string) (Record.phones r))
     (Record.birthday r), Ok tt).
Proof.
  unfold Record.remove_phone, Record.bind, Record.get_phones, Record.set_phones.
  simpl. now rewrite remove_loop_filter.
Qed.

Lemma filter_filter_same {A : Type} (f : A -> bool) (l : list A) :
  filter f (filter f l) = filter f l.
Proof.
  induction l as [|x l IH]; simpl; [reflexivity|].
  destruct (f x) eqn:E; simpl; [rewrite E; now f_equal | exact IH].
Qed.

(** X2: after [remove_phone] the number is not found any more, every other
    number is found as before, and removing it a second time changes
    nothing. *)
Theorem remove_phone_then_find_phone (r : Record.t) (number : string) :
  let r' := fst (Record.remove_phone number r) in
  Record.find_phone number r' = None /\
  (forall other, other <> number ->
     Record.find_phone other r' = Record.find_phone other r) /\
  Record.remove_phone number r' = (r', Ok tt) /\
  (List.length (Record.phones r') <= List.length (Record.phones r))%nat.
Proof.
  cbv zeta. rewrite (remove_phone_eq number r). cbn. unfold Record.find_phone. cbn.
  split; [apply find_loop_filter_eq|].
  split; [intros other Hne; now apply find_loop_filter_ne|].
  split; [|apply filter_length_le].
  unfold Record.remove_phone, Record.bind, Record.get_phones, Record.set_phones.
  cbn. now rewrite remove_loop_filter, filter_filter_same.
Qed.

Lemma count_phone_app (x : string) (ps qs : list Phone.t) :
  count_phone x (ps ++ qs) = (count_phone x ps + count_phone x qs)%nat.
Proof. unfold count_phone. now rewrite filter_app, length_app. Qed.

Lemma count_phone_cons (x : string) (p : Phone.t) (ps : list Phone.t) :
  count_phone x (p :: ps) =
  ((if (Phone.value p =? x)%string then 1 else 0) + count_phone x ps)%nat.
Proof. unfold count_phone. simpl. destruct (Phone.value p =? x)%string; reflexivity. Qed.

(** X3: a successful [edit_phone] keeps the number of phones and turns
    exactly one phone of the old value into one of the new value: the old
    value is held once less, the new value once more, any other value as
    often as before; the new number is then found. *)
Theorem edit_phone_moves_one (r : Record.t) (old_number new_number : string) :
  Record.find_phone old_number r <> None -> ten_digits new_number ->
  let r' := fst (Record.edit_phone old_number new_number r) in
  snd (Record.edit_phone old_number new_number r) = Ok tt /\
  List.length (Record.phones r') = List.length (Record.phones r) /\
  Record.find_phone new_number r' = Some (Phone.mk new_number) /\
  (forall x,
     (count_phone x (Record.phones r')
      + (if (old_number =? x)%string then 1 else 0)
      = count_phone x (Record.phones r)
        + (if (new_number =? x)%string then 1 else 0))%nat) /\
  Record.name r' = Record.name r /\ Record.birthday r' = Record.birthday r.
Proof.
  intros Hfound Hnew.
  assert (Hex : exists p, In p (Record.phones r) /\ Phone.value p = old_number).
  { destruct (Record.find_phone old_number r) as [p|] eqn:E; [|congruence].
    apply find_loop_some in E. destruct E as (l1 & l2 & E & Hv & _).
    exists p. split; [rewrite E; apply in_elt | exact Hv]. }
  destruct (edit_loop_first old_number new_number _ Hex) as (l1 & l2 & Hps & Hl1 & Hloop).
  assert (Hedit : Record.edit_phone old_number new_number r =
                  (Record.mk (Record.name r)
                     (l1 ++ Phone.mk new_number :: l2)%list (Record.birthday r), Ok tt)).
  { rewrite edit_phone_eq. apply existsb_phone in Hex. rewrite Hex.
    apply ten_digits_dec in Hnew. rewrite Hnew. cbn [negb]. now rewrite Hloop. }
  rewrite Hedit. cbn [fst snd Record.phones Record.name Record.birthday]. rewrite Hps.
  split; [reflexivity|]. split; [now rewrite !length_app|].
  split; [|split; [|split; reflexivity]].
  - unfold Record.find_phone. cbn. rewrite find_loop_app.
    destruct (Record.find_loop new_number l1) as [p|] eqn:E.
    + now rewrite (find_loop_value _ _ _ E).
    + simpl. now rewrite String.eqb_refl.
  - intros x. rewrite !count_phone_app, !count_phone_cons. cbn [Phone.value].
    destruct (old_number =? x)%string, (new_number =? x)%string; lia.
Qed.

Lemma edit_phone_moves_one_witness :
  Record.find_phone "2222222222"
    (fst (Record.edit_phone "1111111111" "2222222222"
            (Record.mk (Name.mk "Ann") [Phone.mk "1111111111"] None))) =
  Some (Phone.mk "2222222222").
Proof.
  apply (edit_phone_moves_one
           (Record.mk (Name.mk "Ann") [Phone.mk "1111111111"] None)
           "1111111111" "2222222222").
  - discriminate.
  - split; reflexivity.
Defined.

Lemma invoke_valid_phones (m : method) (r : Record.t) :
  valid_phones r -> valid_phones (fst (invoke m r)).
Proof.
  unfold valid_phones. intros H.
  destruct m as [number|number|old_number new_number|value]; cbn [invoke].
  - rewrite add_phone_eq. destruct (Phone.init number) as [p|e] eqn:E; [|exact H].
    apply Phone_init_inv in E. destruct E as [Hn ->]. cbn.
    intros phone Hin. apply in_app_or in Hin. destruct Hin as [Hin|[<-|[]]]; auto.
  - rewrite remove_phone_eq. cbn. intros phone Hin. apply filter_In in Hin. now apply H.
  - rewrite edit_phone_eq. destruct (negb _); [exact H|].
    destruct ((len new_number =? 10) && str_all char_isdigit new_number) eqn:E;
      cbn [negb fst]; [|exact H].
    apply ten_digits_dec in E. cbn [Record.phones]. clear -H E.
    induction (Record.phones r) as [|p ps IH]; simpl; [intros ? []|].
    destruct (Phone.value p =? old_number)%string.
    + intros phone [<-|Hin]; [exact E | apply H; now right].
    + intros phone [<-|Hin]; [apply H; now left|].
      apply IH; [|exact Hin]. intros q Hq. apply H. now right.
  - rewrite add_birthday_eq. destruct (Record.birthday r); [exact H|].
    destruct (Birthday.init value); exact H.
Qed.

Lemma invoke_valid_birthday (m : method) (r : Record.t) :
  valid_birthday r -> valid_birthday (fst (invoke m r)).
Proof.
  unfold valid_birthday. intros H.
  destruct m as [number|number|old_number new_number|value]; cbn [invoke].
  - rewrite add_phone_eq. destruct (Phone.init number); exact H.
  - rewrite remove_phone_eq. exact H.
  - rewrite edit_phone_eq. destruct (negb _); [exact H|].
    destruct (negb _); exact H.
  - rewrite add_birthday_eq. destruct (Record.birthday r) as [b0|] eqn:Eb.
    + cbn [fst]. now rewrite Eb.
    + destruct (Birthday.init value) as [b|e] eqn:E.
      * cbn. intros b' [= <-]. now apply Birthday_init_valid in E.
      * cbn [fst]. now rewrite Eb.
Qed.

(** X4: whatever methods are called on a record made by [Record(name)], in
    whatever order and whether they succeed or raise, the record keeps its
    name, every phone it holds is ten digits in the sense of [Phone], and
    its birthday, if it has one, is a date of the calendar. *)
Theorem record_methods_keep_fields_valid (name : string) (ms : list method) :
  let r := call_all ms (Record.init name) in
  Record.name r = Name.mk name /\ valid_phones r /\ valid_birthday r.
Proof.
  cbv zeta. unfold call_all.
  assert (H : forall r, Record.name r = Name.mk name /\ valid_phones r /\ valid_birthday r ->
              Record.name (fold_left (fun r m => fst (invoke m r)) ms r) = Name.mk name /\
              valid_phones (fold_left (fun r m => fst (invoke m r)) ms r) /\
              valid_birthday (fold_left (fun r m => fst (invoke m r)) ms r)).
  { induction ms as [|m ms IH]; intros r Hr; simpl; [exact Hr|].
    apply IH. destruct Hr as (Hn & Hp & Hb).
    split; [now rewrite invoke_name|].
    split; [now apply invoke_valid_phones | now apply invoke_valid_birthday]. }
  apply H. split; [reflexivity|]. split.
  - intros phone [].
  - intros b [=].
Qed.

(** ** Birthdays as text *)

Lemma fullmatch_dmY (c1 c2 c3 c4 c5 c6 c7 c8 : ascii) :
  is_decimal c1 = true -> is_decimal c2 = true -> is_decimal c3 = true ->
  is_decimal c4 = true -> is_decimal c5 = true -> is_decimal c6 = true ->
  is_decimal c7 = true -> is_decimal c8 = true ->
  re.fullmatch dmY_pattern
    (String c1 (String c2 (String "." (String c3 (String c4 (String "."
       (String c5 (String c6 (String c7 (String c8 EmptyString)))))))))) = true.
Proof.
  intros H1 H2 H3 H4 H5 H6 H7 H8. unfold re.fullmatch, dmY_pattern. cbn.
  now rewrite H1, H2, H3, H4, H5, H6, H7, H8.
Qed.

Lemma strftime_dmY_shape (d : datetime.date) :
  datetime.valid d -> 1000 <= datetime.year d ->
  len (datetime.strftime_dmY d) = 10 /\
  re.fullmatch dmY_pattern (datetime.strftime_dmY d) = true.
Proof.
  intros (Hy & Hm & Hd) Hk.
  pose proof (days_in_month_le_31 (datetime.year d) _ Hm) as H31.
  unfold datetime.MINYEAR, datetime.MAXYEAR in Hy.
  unfold datetime.strftime_dmY. rewrite str_int_four by lia.
  split; [reflexivity|].
  unfold pad4, pad2. cbn [append].
  apply fullmatch_dmY; apply digit_char_facts; Z.div_mod_to_equations; lia.
Qed.

Lemma strftime_dmY_short (d : datetime.date) :
  datetime.valid d -> datetime.year d < 1000 ->
  7 <= len (datetime.strftime_dmY d) <= 9.
Proof.
  intros (Hy & _) Hk. unfold datetime.MINYEAR in Hy.
  pose proof (str_int_short (datetime.year d)) as Hs.
  rewrite !andb_true_iff, negb_true_iff, Z.leb_le, Z.eqb_neq in Hs.
  destruct Hs as [[Hs Hn] _]; [lia|].
  unfold datetime.strftime_dmY, pad2. cbn [append].
  unfold len in *. cbn [String.length]. lia.
Qed.

(** The text of a birthday from the year 1000 on is in the padded form and
    is read back. *)
Lemma Birthday_str_shape (raw : string) (b : Birthday.t) :
  Birthday.init raw = Ok b -> 1000 <= datetime.year (Birthday.value b) ->
  len (Birthday.str b) = 10 /\
  re.fullmatch dmY_pattern (Birthday.str b) = true /\
  Birthday.init (Birthday.str b) = Ok b.
Proof.
  intros H Hk. apply Birthday_init_valid in H. destruct b as [d].
  unfold Birthday.str. cbn [Birthday.value] in *.
  destruct (strftime_dmY_shape d H Hk) as [Hl Hm].
  split; [exact Hl|]. split; [exact Hm|].
  unfold Birthday.init. now rewrite strptime_strftime.
Qed.

(** The text of a birthday before the year 1000 is shorter, and [Birthday]
    refuses it. *)
Lemma Birthday_str_short (raw : string) (b : Birthday.t) :
  Birthday.init raw = Ok b -> datetime.year (Birthday.value b) < 1000 ->
  7 <= len (Birthday.str b) <= 9 /\
  Birthday.init (Birthday.str b) =
  Raise (ValueError "Invalid date format. Use DD.MM.YYYY").
Proof.
  intros H Hk. apply Birthday_init_valid in H. destruct b as [d].
  unfold Birthday.str. cbn [Birthday.value] in *.
  split; [now apply strftime_dmY_short|].
  unfold Birthday.init. now rewrite strptime_strftime_short.
Qed.

(** X5: the text of a birthday that [Birthday] accepted is the day and the
    month with two digits each and the year as [%Y] of the C library writes
    it.  From the year 1000 on these are ten characters of the form
    DD.MM.YYYY, and [Birthday] reads them back as the same date.  Before
    the year 1000 the year is written without leading zeros: the text has
    seven to nine characters and [Birthday] refuses it, as for "01.01.0999",
    which is rendered "01.01.999". *)
Theorem Birthday_str_normal_form (raw : string) (b : Birthday.t) :
  Birthday.init raw = Ok b ->
  Birthday.str b =
  pad2 (datetime.day (Birthday.value b)) ++ "."
  ++ pad2 (datetime.month (Birthday.value b)) ++ "."
  ++ str_int (datetime.year (Birthday.value b)) /\
  (1000 <= datetime.year (Birthday.value b) ->
   len (Birthday.str b) = 10 /\
   re.fullmatch dmY_pattern (Birthday.str b) = true /\
   Birthday.init (Birthday.str b) = Ok b) /\
  (datetime.year (Birthday.value b) < 1000 ->
   7 <= len (Birthday.str b) <= 9 /\
   Birthday.init (Birthday.str b) =
   Raise (ValueError "Invalid date format. Use DD.MM.YYYY")).
Proof.
  intros H. split; [reflexivity|]. split.
  - now apply (Birthday_str_shape raw b).
  - now apply (Birthday_str_short raw b).
Qed.

Lemma Birthday_str_normal_form_witness :
  Birthday.init (Birthday.str (Birthday.mk (datetime.mkdate 2020 1 1))) =
  Ok (Birthday.mk (datetime.mkdate 2020 1 1)) /\
  Birthday.str (Birthday.mk (datetime.mkdate 999 1 1)) = "01.01.999" /\
  Birthday.init (Birthday.str (Birthday.mk (datetime.mkdate 999 1 1))) =
  Raise (ValueError "Invalid date format. Use DD.MM.YYYY").
Proof.
  split; [|split].
  - apply (proj1 (proj2 (Birthday_str_normal_form "1.1.2020"
                           (Birthday.mk (datetime.mkdate 2020 1 1)) eq_refl))).
    cbn. lia.
  - apply (proj1 (Birthday_str_normal_form "01.01.0999"
                    (Birthday.mk (datetime.mkdate 999 1 1)) eq_refl)).
  - apply (proj2 (proj2 (Birthday_str_normal_form "01.01.0999"
                           (Birthday.mk (datetime.mkdate 999 1 1)) eq_refl))).
    cbn. lia.
Defined.

(** ** The address book *)

(** X6: after [add_record] the name of the record leads to that record and
    every other name to what it led to before. *)
Theorem find_after_add_record (book : AddressBook.t) (r : Record.t) (k : string) :
  AddressBook.find k (AddressBook.add_record r book) =
  if (Name.value (Record.name r) =? k)%string then Some r
  else AddressBook.find k book.
Proof.
  unfold AddressBook.find, AddressBook.add_record.
  destruct (String.eqb_spec (Name.value (Record.name r)) k) as [E|E].
  - subst k. apply get_setitem_eq.
  - apply get_setitem_ne. congruence.
Qed.

Lemma setitem_absent {V : Type} (k : string) (v : V) (d : dict.t V) :
  dict.contains k d = false -> dict.setitem k v d = (d ++ [(k, v)])%list.
Proof.
  induction d as [|[k' v'] d IH]; simpl; [reflexivity|].
  destruct (k' =? k)%string; simpl; [discriminate|]. intros H. now rewrite IH.
Qed.

Lemma setitem_same {V : Type} (k : string) (v : V) (d : dict.t V) :
  dict.get k d = Some v -> dict.setitem k v d = d.
Proof.
  induction d as [|[k' v'] d IH]; simpl; [discriminate|].
  destruct (String.eqb_spec k' k) as [E|E].
  - intros [= ->]. now subst.
  - intros H. now rewrite IH.
Qed.

(** X7: on a book whose names are pairwise different, deleting the name of
    a record that was just added under a new name gives the book back;
    deleting a name twice is deleting it once; adding a record of a new name
    makes the book one longer and adding one of a present name keeps its
    length. *)
Theorem delete_undoes_add_record (book : AddressBook.t) (r : Record.t) :
  wf book ->
  (AddressBook.find (Name.value (Record.name r)) book = None ->
   AddressBook.add_record r book = (book ++ [(Name.value (Record.name r), r)])%list /\
   AddressBook.delete (Name.value (Record.name r)) (AddressBook.add_record r book) = book) /\
  (AddressBook.find (Name.value (Record.name r)) book <> None ->
   List.length (AddressBook.add_record r book) = List.length book) /\
  (forall k, AddressBook.delete k (AddressBook.delete k book) = AddressBook.delete k book).
Proof.
  intros Hwf. split; [|split].
  - intros Hnone. apply get_none in Hnone. pose proof Hnone as Hc.
    apply contains_false in Hc. unfold AddressBook.add_record.
    rewrite (setitem_absent _ _ _ Hc). split; [reflexivity|].
    rewrite delete_filter.
    + rewrite filter_app. simpl. rewrite String.eqb_refl. simpl.
      rewrite app_nil_r. now apply filter_absent.
    + unfold wf, dict.keys. rewrite map_app. simpl.
      apply NoDup_app; [exact Hwf | repeat constructor; intros [] |].
      intros x Hx [<-|[]]. contradiction.
  - intros Hsome. unfold AddressBook.add_record, AddressBook.find in *.
    set (k := Name.value (Record.name r)) in *. clearbody k. clear Hwf.
    induction book as [|[k' v'] book IH]; simpl in *; [congruence|].
    destruct (k' =? k)%string; simpl; [reflexivity|]. f_equal. now apply IH.
  - intros k. rewrite (delete_filter k book Hwf).
    rewrite delete_filter by now apply wf_filter.
    apply filter_filter_same.
Qed.

Lemma delete_undoes_add_record_witness :
  AddressBook.delete "Dan" (AddressBook.add_record (Record.init "Dan") scenario_book) =
  scenario_book.
Proof.
  apply (delete_undoes_add_record scenario_book (Record.init "Dan")).
  - repeat constructor; simpl; intuition discriminate.
  - reflexivity.
Defined.

(** ** The days to a birthday *)

Lemma year_apart (y m d : Z) :
  1 <= m <= 12 ->
  datetime.ymd2ord (y + 1) m d - datetime.ymd2ord y m d <= 366.
Proof.
  intros Hm. unfold datetime.ymd2ord, datetime.days_before_month.
  rewrite days_before_next_year.
  destruct (datetime.is_leap y) eqn:Ey, (datetime.is_leap (y + 1)) eqn:Ey1,
    (m >? 2); cbn [andb]; lia.
Qed.

(** X8: the date that [birthdays] computes for a record is never before
    today and at most 365 days after it, so the test [0 <= days_to_birthday]
    of line 151 always holds and only the bound 7 selects. *)
Theorem days_to_birthday_never_negative (today birthday date : datetime.date) :
  datetime.valid today ->
  birthday_this_year today birthday = Ok date ->
  0 <= datetime.sub_days date today <= 365.
Proof.
  intros Ht H. pose proof H as Hinv. apply birthday_this_year_inv in Hinv.
  destruct Hinv as [Hdate Hv]. split.
  - rewrite Hdate. apply next_birthday_not_before; [exact Ht | now rewrite <- Hdate].
  - revert H. unfold birthday_this_year, datetime.replace_year.
    destruct (datetime.new (datetime.year today) _ _) as [this_year|e] eqn:E;
      [|discriminate].
    apply new_inv in E. destruct E as [-> Hty]. cbn [rbind].
    cbn [datetime.year datetime.month datetime.day].
    set (this_year := datetime.mkdate (datetime.year today)
                        (datetime.month birthday) (datetime.day birthday)) in *.
    pose proof (toordinal_range today Ht) as Hr1.
    destruct (datetime.lt this_year today) eqn:Elt.
    + intros Hnew. apply new_inv in Hnew. destruct Hnew as [-> _].
      apply toordinal_lt in Elt; auto.
      pose proof (year_apart (datetime.year today) (datetime.month birthday)
                    (datetime.day birthday)) as Hya.
      destruct Hty as (_ & Hm & _). cbn in Hm. specialize (Hya Hm).
      unfold datetime.sub_days, datetime.toordinal in *. cbn in *. lia.
    + intros [= <-]. unfold datetime.sub_days.
      destruct Ht as (Hy & Hm & Hd). destruct Hty as (_ & Hm' & Hd').
      pose proof (days_before_month_bound _ _ _ Hm' Hd') as Hb.
      pose proof (days_before_month_bound _ _ _ Hm Hd) as Hb'.
      unfold datetime.toordinal, datetime.ymd2ord in *. cbn in *.
      destruct (datetime.is_leap (datetime.year today)); lia.
Qed.

Lemma days_to_birthday_never_negative_witness :
  0 <= datetime.sub_days (datetime.mkdate 2024 6 12) today_2024_06_10 <= 365.
Proof.
  apply (days_to_birthday_never_negative today_2024_06_10
           (datetime.mkdate 1990 6 12) (datetime.mkdate 2024 6 12)).
  - vm_compute. repeat split; discriminate.
  - reflexivity.
Defined.


Lemma Forall2_In_r {A B : Type} (R : A -> B -> Prop) (l : list A) (l' : list B) (b : B) :
  Forall2 R l l' -> In b l' -> exists a, In a l /\ R a b.
Proof.
  induction 1 as [|x y l l' Hxy HF IH]; [intros []|].
  intros [<-|Hin].
  - exists x. split; [now left | exact Hxy].
  - destruct (IH Hin) as (a & Ha & HR). exists a. split; [now right | exact HR].
Qed.




(** X10: no entry of the list of [birthdays] names a Saturday or a Sunday,
    and every entry names a day from today to nine days ahead. *)
Theorem congratulation_on_a_weekday_soon (today : datetime.date)
    (book : AddressBook.t) (l : list user) (u : user) :
  birthday_list today book = Ok l -> In u l ->
  exists adjusted,
    datetime.valid adjusted /\
    congratulation_date u = datetime.strftime_Ymd adjusted /\
    0 <= datetime.weekday adjusted <= 4 /\
    0 <= datetime.sub_days adjusted today <= 9.
Proof.
  intros Hl Hu. apply birthday_list_inv in Hl.
  apply birthdays_loop_inv in Hl. destruct Hl as (l' & -> & HF). simpl in Hu.
  destruct (Forall2_In_r _ _ _ _ HF Hu) as (r & Hr & He).
  apply filter_In in Hr. destruct Hr as [_ Hw].
  destruct He as (b & adj & Hb & Hv & Hva & (H5 & H6 & Hk) & _ & Hdate).
  unfold spec_in_window in Hw. rewrite Hb in Hw. cbv zeta in Hw.
  set (date := spec_next_birthday today (Birthday.value b)) in *.
  apply andb_true_iff in Hw. destruct Hw as [Hlo Hhi].
  apply Z.leb_le in Hlo, Hhi.
  assert (Hwd : 0 <= datetime.weekday date < 7)
    by (unfold datetime.weekday; apply Z.mod_pos_bound; lia).
  exists adj. split; [exact Hva|]. split; [exact Hdate|].
  unfold datetime.sub_days in *.
  destruct (Z.eq_dec (datetime.weekday date) 5) as [E5|N5].
  - destruct (H5 E5) as [Ho Hw0]. lia.
  - destruct (Z.eq_dec (datetime.weekday date) 6) as [E6|N6].
    + destruct (H6 E6) as [Ho Hw0]. lia.
    + rewrite (Hk N5 N6). lia.
Qed.

Lemma congratulation_on_a_weekday_soon_witness :
  exists adjusted,
    datetime.valid adjusted /\
    "2024.06.17" = datetime.strftime_Ymd adjusted /\
    0 <= datetime.weekday adjusted <= 4 /\
    0 <= datetime.sub_days adjusted today_2024_06_10 <= 9.
Proof.
  apply (congratulation_on_a_weekday_soon today_2024_06_10 scenario_book
           [mkuser "Ann" "2024.06.12"; mkuser "Bob" "2024.06.17"]
           (mkuser "Bob" "2024.06.17")).
  - reflexivity.
  - simpl. right. left. reflexivity.
Defined.

(** ** Words of a line *)

Lemma append_assoc (a b c : string) : (a ++ b) ++ c = a ++ (b ++ c).
Proof. induction a as [|x a IH]; simpl; [reflexivity | now rewrite IH]. Qed.

Lemma is_empty_append_char (w : string) (c : ascii) :
  is_empty (w ++ String c EmptyString) = false.
Proof. destruct w; reflexivity. Qed.

Lemma str_all_append (p : ascii -> bool) (a b : string) :
  str_all p (a ++ b) = str_all p a && str_all p b.
Proof.
  induction a as [|c a IH]; simpl; [reflexivity|].
  now rewrite IH, andb_assoc.
Qed.

Lemma split_loop_words (s w : string) :
  str_all (fun c => negb (is_space c)) w = true ->
  Forall is_word (split_loop s w).
Proof.
  revert w. induction s as [|c s IH]; intros w Hw; simpl.
  - destruct w; simpl; [constructor|].
    constructor; [|constructor]. split; [discriminate | exact Hw].
  - destruct (is_space c) eqn:Ec.
    + destruct w; simpl.
      * now apply IH.
      * constructor; [split; [discriminate | exact Hw] | now apply IH].
    + apply IH. rewrite str_all_append, Hw. simpl. now rewrite Ec.
Qed.

(** X11: every word that [parse_input] returns is non-empty and free of
    white space. *)
Theorem parse_input_gives_words (user_input : string) :
  Forall is_word (parse_input user_input).
Proof. apply split_loop_words. reflexivity. Qed.

Lemma split_loop_word (x rest w : string) :
  str_all (fun c => negb (is_space c)) x = true ->
  split_loop (x ++ rest) w = split_loop rest (w ++ x).
Proof.
  revert w. induction x as [|c x IH]; intros w Hx; simpl.
  - now rewrite append_nil_r.
  - simpl in Hx. apply andb_true_iff in Hx. destruct Hx as [Hc Hx].
    apply negb_true_iff in Hc. rewrite Hc. rewrite IH by exact Hx.
    now rewrite append_assoc.
Qed.

Lemma split_join_from (ws : list string) (x : string) :
  is_word x -> Forall is_word ws ->
  split_loop (String.concat " " (x :: ws)) EmptyString = x :: ws.
Proof.
  revert x. induction ws as [|y ws IH]; intros x [Hne Hx] Hws.
  - simpl. rewrite <- (append_nil_r x) at 1. rewrite split_loop_word by exact Hx.
    simpl. destruct x; [congruence | reflexivity].
  - inversion Hws as [|? ? Hy Hws']; subst.
    change (String.concat " " (x :: y :: ws))
      with (x ++ " " ++ String.concat " " (y :: ws)).
    rewrite split_loop_word by exact Hx. cbn [append split_loop].
    change (is_space " ") with true. cbv iota.
    destruct x; [congruence|]. cbn [is_empty]. f_equal. now apply IH.
Qed.

(** X12: words joined by single spaces are split into the same words. *)
Theorem parse_input_join (words : list string) :
  Forall is_word words -> parse_input (join " " words) = words.
Proof.
  intros H. destruct words as [|x ws]; [reflexivity|].
  inversion H; subst. now apply split_join_from.
Qed.

Lemma parse_input_join_witness :
  parse_input (join " " ["add"; "Ann"; "0123456789"]) = ["add"; "Ann"; "0123456789"].
Proof.
  apply (parse_input_join ["add"; "Ann"; "0123456789"]).
  repeat constructor; discriminate.
Defined.

Lemma split_loop_spaces (s w : string) :
  str_all is_space s = true ->
  split_loop s w = if is_empty w then [] else [w].
Proof.
  revert w. induction s as [|c s IH]; intros w; simpl; [reflexivity|].
  intros H. apply andb_true_iff in H. destruct H as [Hc Hs]. rewrite Hc.
  destruct w; simpl; now rewrite IH.
Qed.

Lemma rstrip_empty (s : string) :
  rstrip s = EmptyString <-> str_all is_space s = true.
Proof.
  induction s as [|c s IH]; simpl; [tauto|].
  destruct (rstrip s) as [|c' t] eqn:E.
  - destruct (is_space c); simpl.
    + rewrite <- IH. tauto.
    + split; discriminate.
  - split; [discriminate|]. rewrite andb_true_iff. intros [_ H].
    apply IH in H. discriminate.
Qed.

Lemma split_loop_rstrip (s w : string) : split_loop (rstrip s) w = split_loop s w.
Proof.
  revert w. induction s as [|c s IH]; intros w; [reflexivity|].
  cbn [rstrip]. destruct (rstrip s) as [|c' t] eqn:E.
  - apply rstrip_empty in E. cbn [split_loop].
    destruct (is_space c) eqn:Ec.
    + cbn [split_loop]. destruct (is_empty w); now rewrite split_loop_spaces.
    + cbn [split_loop]. rewrite Ec. now rewrite split_loop_spaces.
  - cbn [split_loop]. destruct (is_space c); [destruct (is_empty w)|];
      now rewrite <- IH.
Qed.

Lemma split_lstrip (s : string) : split (lstrip s) = split s.
Proof.
  unfold split. induction s as [|c s IH]; [reflexivity|].
  simpl. destruct (is_space c) eqn:Ec; [exact IH|].
  simpl. now rewrite Ec.
Qed.

Lemma str_all_lstrip (s : string) :
  str_all is_space (lstrip s) = str_all is_space s.
Proof.
  induction s as [|c s IH]; [reflexivity|]. simpl.
  destruct (is_space c) eqn:Ec; simpl; [exact IH | now rewrite Ec].
Qed.

Lemma split_loop_nil (s w : string) :
  split_loop s w = [] -> w = EmptyString /\ str_all is_space s = true.
Proof.
  revert w. induction s as [|c s IH]; intros w; simpl.
  - destruct w; [auto | discriminate].
  - destruct (is_space c).
    + destruct w; simpl; [|discriminate]. intros H. now apply IH in H.
    + intros H. apply IH in H. destruct H as [H _]. destruct w; discriminate.
Qed.

(** [split] and [strip]. *)
Lemma split_strip (user_input : string) :
  parse_input (strip user_input) = parse_input user_input /\
  (parse_input user_input = [] <-> strip user_input = EmptyString) /\
  (strip user_input = EmptyString <-> str_all is_space user_input = true).
Proof.
  unfold parse_input, strip.
  assert (H1 : split (rstrip (lstrip user_input)) = split user_input).
  { unfold split at 1. rewrite split_loop_rstrip. apply split_lstrip. }
  assert (H3 : rstrip (lstrip user_input) = EmptyString <->
               str_all is_space user_input = true).
  { rewrite rstrip_empty. now rewrite str_all_lstrip. }
  split; [exact H1|]. split; [|exact H3].
  rewrite H3. split.
  - intros H. now apply split_loop_nil in H.
  - intros H. unfold split. now rewrite split_loop_spaces.
Qed.

(** X13: [parse_input] does not see the white space around a line, and it
    returns no word exactly when the stripped line is empty, that is when
    the line is white space only. *)
Theorem parse_input_strip (user_input : string) :
  parse_input (strip user_input) = parse_input user_input /\
  (parse_input user_input = [] <-> strip user_input = EmptyString) /\
  (strip user_input = EmptyString <-> str_all is_space user_input = true).
Proof. exact (split_strip user_input). Qed.

(** ** The commands *)

Lemma world_eta (w : world) : mkworld (book w) (shown w) = w.
Proof. destruct w; reflexivity. Qed.

Lemma find_none_contains (name : string) (b : AddressBook.t) :
  AddressBook.find name b = None -> dict.contains name b = false.
Proof. intros H. now apply contains_false, get_none. Qed.

Lemma setitem_last {V : Type} (k : string) (v v' : V) (d : dict.t V) :
  dict.contains k d = false ->
  dict.setitem k v' (d ++ [(k, v)])%list = (d ++ [(k, v')])%list.
Proof.
  induction d as [|[k0 v0] d IH]; simpl.
  - now rewrite String.eqb_refl.
  - destruct (k0 =? k)%string; simpl; [discriminate|]. intros H. now rewrite IH.
Qed.

Lemma ten_digits_not_empty (phone : string) : ten_digits phone -> is_empty phone = false.
Proof. intros [H _]. destruct phone; [discriminate | reflexivity]. Qed.

(** [add_contact] with a phone that is accepted. *)
Lemma add_contact_accepted (name phone : string) (more : list string)
    (w : world) :
  ten_digits phone ->
  add_contact (name :: phone :: more) w =
  match AddressBook.find name (book w) with
  | None =>
      (mkworld (book w ++ [(name, Record.mk (Name.mk name) [Phone.mk phone] None)])%list
         (shown w ++ ["Contact added."])%list, None)
  | Some r =>
      (mkworld
         (dict.setitem name
            (Record.mk (Record.name r) (Record.phones r ++ [Phone.mk phone])%list
               (Record.birthday r)) (book w))
         (shown w ++ ["Contact updated."])%list, None)
  end.
Proof.
  intros H. unfold add_contact, add_contact_func.
  rewrite (ten_digits_not_empty _ H). cbn [negb].
  destruct (AddressBook.find name (book w)) as [r|] eqn:E.
  - rewrite add_phone_eq, (Phone_init_ok _ H). reflexivity.
  - rewrite add_phone_eq, (Phone_init_ok _ H). unfold wrapper, display, store.
    cbn [book shown Record.name Record.phones Record.birthday Record.init].
    unfold AddressBook.add_record. cbn [Record.name Record.init Name.value].
    apply find_none_contains in E.
    rewrite (setitem_absent _ _ _ E), (setitem_last _ _ _ _ E). reflexivity.
Qed.

(** X14: [add_contact] with a name and a phone that [Phone] accepts: for a
    name the book does not have, a record with that one phone goes last in
    the book and "Contact added." is displayed; for a name it has, the phone
    goes behind the phones of the record, which keeps its place and its
    birthday, and "Contact updated." is displayed; nothing else changes and
    no error is returned. *)
Theorem add_contact_adds_or_updates (name phone : string) (more : list string)
    (w : world) :
  ten_digits phone ->
  add_contact (name :: phone :: more) w =
  match AddressBook.find name (book w) with
  | None =>
      (mkworld (book w ++ [(name, Record.mk (Name.mk name) [Phone.mk phone] None)])%list
         (shown w ++ ["Contact added."])%list, None)
  | Some r =>
      (mkworld
         (dict.setitem name
            (Record.mk (Record.name r) (Record.phones r ++ [Phone.mk phone])%list
               (Record.birthday r)) (book w))
         (shown w ++ ["Contact updated."])%list, None)
  end.
Proof. exact (add_contact_accepted name phone more w). Qed.

Lemma add_contact_adds_or_updates_witness :
  add_contact ["Ann"; "0123456789"] (mkworld AddressBook.init []) =
  (mkworld [("Ann", Record.mk (Name.mk "Ann") [Phone.mk "0123456789"] None)]
     ["Contact added."], None).
Proof.
  apply (add_contact_adds_or_updates "Ann" "0123456789" [] (mkworld AddressBook.init [])).
  split; reflexivity.
Defined.

(** X15: [add_contact] with a phone that [Phone] refuses returns the text
    "Error: Phone number must be 10 digits" and displays nothing; a name that
    the book did not have is in the book all the same, with a record without
    phones, and a book that had the name is unchanged.  With fewer than two
    arguments nothing changes at all and an error text is returned. *)
Theorem add_contact_refused_phone (name phone : string) (more : list string)
    (w : world) :
  (phone <> EmptyString -> ~ ten_digits phone ->
   add_contact (name :: phone :: more) w =
   (mkworld
      (match AddressBook.find name (book w) with
       | None => (book w ++ [(name, Record.init name)])%list
       | Some _ => book w
       end) (shown w),
    Some "Error: Phone number must be 10 digits")) /\
  add_contact [name] w =
  (w, Some "Error: not enough values to unpack (expected at least 2, got 1)") /\
  add_contact [] w =
  (w, Some "Error: not enough values to unpack (expected at least 2, got 0)").
Proof.
  split; [|split; reflexivity].
  intros Hne H. unfold add_contact, add_contact_func.
  assert (He : is_empty phone = false) by (destruct phone; [congruence | reflexivity]).
  rewrite He. cbn [negb].
  destruct (AddressBook.find name (book w)) as [r|] eqn:E.
  - rewrite add_phone_eq, (Phone_init_raise _ H). unfold wrapper, store.
    unfold AddressBook.find in E. now rewrite (setitem_same _ _ _ E).
  - rewrite add_phone_eq, (Phone_init_raise _ H). unfold wrapper, store.
    cbn [book shown]. unfold AddressBook.add_record.
    cbn [Record.name Record.init Name.value].
    apply find_none_contains in E.
    rewrite (setitem_absent _ _ _ E), (setitem_last _ _ _ _ E). reflexivity.
Qed.

Lemma add_contact_refused_phone_witness :
  add_contact ["Ann"; "12ab"] (mkworld AddressBook.init []) =
  (mkworld [("Ann", Record.init "Ann")] [],
   Some "Error: Phone number must be 10 digits").
Proof.
  apply (proj1 (add_contact_refused_phone "Ann" "12ab" [] (mkworld AddressBook.init []))).
  - discriminate.
  - intros [H _]. discriminate H.
Defined.

(** The cases of the command [add_birthday]. *)
Lemma add_birthday_table (name raw : string) (w : world) :
  (AddressBook.find name (book w) = None ->
   add_birthday [name; raw] w =
   (display ("Contact " ++ name ++ " not found.") w, None)) /\
  (forall r b,
     AddressBook.find name (book w) = Some r -> Record.birthday r = None ->
     Birthday.init raw = Ok b ->
     add_birthday [name; raw] w =
     (mkworld
        (dict.setitem name
           (Record.mk (Record.name r) (Record.phones r) (Some b)) (book w))
        (shown w ++ [("Birthday added for " ++ name ++ ".")%string])%list, None)) /\
  (forall r b,
     AddressBook.find name (book w) = Some r -> Record.birthday r = Some b ->
     add_birthday [name; raw] w =
     (w, Some "Error: Only one birthday is allowed per record.")) /\
  (forall r e,
     AddressBook.find name (book w) = Some r -> Record.birthday r = None ->
     Birthday.init raw = Raise e ->
     add_birthday [name; raw] w =
     (w, Some "Error: Invalid date format. Use DD.MM.YYYY")).
Proof.
  unfold add_birthday, add_birthday_func. split; [|split; [|split]].
  - intros ->. reflexivity.
  - intros r b -> Hb Hi. rewrite add_birthday_eq, Hb, Hi. reflexivity.
  - intros r b E Hb. rewrite E, add_birthday_eq, Hb. unfold wrapper, store.
    unfold AddressBook.find in E. rewrite (setitem_same _ _ _ E).
    now rewrite world_eta.
  - intros r e E Hb Hi. rewrite E, add_birthday_eq, Hb, Hi.
    destruct (Birthday_init_total raw) as [[b Hok]|Hr]; [congruence|].
    rewrite Hr in Hi. injection Hi as <-. unfold wrapper, store.
    unfold AddressBook.find in E. rewrite (setitem_same _ _ _ E).
    now rewrite world_eta.
Qed.

(** X16: the command [add_birthday] with a name and a date: an unknown name
    is reported by "Contact ... not found." and changes nothing; on a record
    without a birthday a text that [Birthday] accepts is stored and
    "Birthday added for ..." is displayed; when the record has a birthday or
    the text is refused, nothing is displayed, nothing changes and the error
    text is returned. *)
Theorem add_birthday_command_cases (name raw : string) (w : world) :
  (AddressBook.find name (book w) = None ->
   add_birthday [name; raw] w =
   (display ("Contact " ++ name ++ " not found.") w, None)) /\
  (forall r b,
     AddressBook.find name (book w) = Some r -> Record.birthday r = None ->
     Birthday.init raw = Ok b ->
     add_birthday [name; raw] w =
     (mkworld
        (dict.setitem name
           (Record.mk (Record.name r) (Record.phones r) (Some b)) (book w))
        (shown w ++ [("Birthday added for " ++ name ++ ".")%string])%list, None)) /\
  (forall r b,
     AddressBook.find name (book w) = Some r -> Record.birthday r = Some b ->
     add_birthday [name; raw] w =
     (w, Some "Error: Only one birthday is allowed per record.")) /\
  (forall r e,
     AddressBook.find name (book w) = Some r -> Record.birthday r = None ->
     Birthday.init raw = Raise e ->
     add_birthday [name; raw] w =
     (w, Some "Error: Invalid date format. Use DD.MM.YYYY")).
Proof. exact (add_birthday_table name raw w). Qed.

Lemma add_birthday_command_cases_witness :
  add_birthday ["Ann"; "01.01.2000"] (mkworld scenario_book []) =
  (mkworld scenario_book [], Some "Error: Only one birthday is allowed per record.") /\
  add_birthday ["Zed"; "01.01.2000"] (mkworld scenario_book []) =
  (mkworld scenario_book ["Contact Zed not found."], None).
Proof.
  split.
  - apply (proj1 (proj2 (proj2 (add_birthday_command_cases "Ann" "01.01.2000"
                                  (mkworld scenario_book []))))
             ann (Birthday.mk (datetime.mkdate 1990 6 12))); reflexivity.
  - apply (proj1 (add_birthday_command_cases "Zed" "01.01.2000"
                    (mkworld scenario_book []))).
    reflexivity.
Defined.

(** X17: after the command [add_birthday] stored a date, [show_birthday]
    displays the text of the stored birthday: the day and the month with two
    digits each, however they were typed, and the year as [%Y] writes it.
    From the year 1000 on that is the form DD.MM.YYYY of ten characters;
    a year before 1000 is displayed without its leading zeros, so that
    "01.01.0999" is shown as "01.01.999". *)
Theorem show_birthday_after_add_birthday (name raw : string) (more : list string)
    (w : world) (r : Record.t) (b : Birthday.t) :
  AddressBook.find name (book w) = Some r -> Record.birthday r = None ->
  Birthday.init raw = Ok b ->
  let w1 := fst (add_birthday [name; raw] w) in
  show_birthday (name :: more) w1 =
  (display (name ++ "'s birthday is on " ++ Birthday.str b ++ ".") w1, None) /\
  Birthday.str b =
  pad2 (datetime.day (Birthday.value b)) ++ "."
  ++ pad2 (datetime.month (Birthday.value b)) ++ "."
  ++ str_int (datetime.year (Birthday.value b)) /\
  (1000 <= datetime.year (Birthday.value b) ->
   len (Birthday.str b) = 10 /\
   re.fullmatch dmY_pattern (Birthday.str b) = true) /\
  (datetime.year (Birthday.value b) < 1000 -> 7 <= len (Birthday.str b) <= 9).
Proof.
  intros E Hb Hi. cbv zeta.
  rewrite (proj1 (proj2 (add_birthday_table name raw w)) r b E Hb Hi).
  cbn [fst]. split; [|split; [reflexivity|split]].
  - unfold show_birthday, show_birthday_func. cbn [book].
    unfold AddressBook.find. rewrite get_setitem_eq. reflexivity.
  - intros Hk. destruct (Birthday_str_shape raw b Hi Hk) as (H1 & H2 & _). now split.
  - intros Hk. now destruct (Birthday_str_short raw b Hi Hk).
Qed.

Lemma show_birthday_after_add_birthday_witness :
  show_birthday ["Dan"]
    (fst (add_birthday ["Dan"; "1.1.2020"]
            (mkworld [("Dan", Record.init "Dan")] []))) =
  (mkworld
     [("Dan", Record.mk (Name.mk "Dan") []
                (Some (Birthday.mk (datetime.mkdate 2020 1 1))))]
     ["Birthday added for Dan."; "Dan's birthday is on 01.01.2020."], None) /\
  show_birthday ["Old"]
    (fst (add_birthday ["Old"; "01.01.0999"]
            (mkworld [("Old", Record.init "Old")] []))) =
  (mkworld
     [("Old", Record.mk (Name.mk "Old") []
                (Some (Birthday.mk (datetime.mkdate 999 1 1))))]
     ["Birthday added for Old."; "Old's birthday is on 01.01.999."], None).
Proof.
  split.
  - apply (show_birthday_after_add_birthday "Dan" "1.1.2020" []
             (mkworld [("Dan", Record.init "Dan")] []) (Record.init "Dan")
             (Birthday.mk (datetime.mkdate 2020 1 1))); reflexivity.
  - apply (show_birthday_after_add_birthday "Old" "01.01.0999" []
             (mkworld [("Old", Record.init "Old")] []) (Record.init "Old")
             (Birthday.mk (datetime.mkdate 999 1 1))); reflexivity.
Defined.

Lemma existsb_map_value (number : string) (ps : list Phone.t) :
  existsb (String.eqb number) (map Phone.value ps) =
  existsb (fun p => (Phone.value p =? number)%string) ps.
Proof.
  induction ps as [|p ps IH]; simpl; [reflexivity|].
  now rewrite IH, String.eqb_sym.
Qed.

Lemma existsb_find_phone (number : string) (r : Record.t) :
  existsb (fun p => (Phone.value p =? number)%string) (Record.phones r) = true <->
  Record.find_phone number r <> None.
Proof.
  unfold Record.find_phone.
  induction (Record.phones r) as [|p ps IH]; simpl.
  - split; [discriminate | congruence].
  - destruct (Phone.value p =? number)%string; simpl; [|exact IH].
    split; [discriminate | reflexivity].
Qed.

(** The cases of [change_phone]. *)
Lemma change_phone_table (name old_phone new_phone : string) (w : world) :
  (AddressBook.find name (book w) = None ->
   change_phone [name; old_phone; new_phone] w =
   (display ("Contact " ++ name ++ " not found.") w, None)) /\
  (forall r,
     AddressBook.find name (book w) = Some r ->
     Record.find_phone old_phone r = None ->
     change_phone [name; old_phone; new_phone] w =
     (display ("Error: Old phone number " ++ old_phone ++ " not found for "
               ++ name ++ ".") w, None)) /\
  (forall r,
     AddressBook.find name (book w) = Some r ->
     Record.find_phone old_phone r <> None -> ~ ten_digits new_phone ->
     change_phone [name; old_phone; new_phone] w =
     (display "Error: New phone number must be 10 digits" w, None)) /\
  (forall r,
     AddressBook.find name (book w) = Some r ->
     Record.find_phone old_phone r <> None -> ten_digits new_phone ->
     change_phone [name; old_phone; new_phone] w =
     (mkworld
        (dict.setitem name
           (Record.mk (Record.name r)
              (Record.edit_loop old_phone new_phone (Record.phones r))
              (Record.birthday r)) (book w))
        (shown w ++ [("Phone number updated for " ++ name ++ ".")%string])%list,
      None)).
Proof.
  unfold change_phone, change_phone_func. split; [|split; [|split]].
  - intros ->. reflexivity.
  - intros r -> Hnone. rewrite existsb_map_value.
    destruct (existsb _ (Record.phones r)) eqn:E; [|reflexivity].
    apply existsb_find_phone in E. contradiction.
  - intros r E Hsome Hbad. rewrite E, existsb_map_value.
    apply existsb_find_phone in Hsome. rewrite Hsome. cbn [negb].
    rewrite edit_phone_eq, Hsome. cbn [negb].
    destruct ((len new_phone =? 10) && str_all char_isdigit new_phone) eqn:Ev.
    + apply ten_digits_dec in Ev. contradiction.
    + cbn [negb]. unfold wrapper, store, display. cbn [book shown].
      unfold AddressBook.find in E. now rewrite (setitem_same _ _ _ E).
  - intros r -> Hsome Hok. rewrite existsb_map_value.
    apply existsb_find_phone in Hsome. rewrite Hsome. cbn [negb].
    rewrite edit_phone_eq, Hsome. cbn [negb].
    apply ten_digits_dec in Hok. rewrite Hok. reflexivity.
Qed.

(** X18: the command [change_phone] with a name, an old and a new number:
    an unknown name, an old number that the record does not hold and a new
    number that [Phone] would refuse are each reported by a displayed
    message and change nothing; otherwise the first phone of the old value
    gets the new value, every other phone, later copies of the old value
    included, stays where and what it was, and "Phone number updated for
    ..." is displayed.  No case returns an error text. *)
Theorem change_phone_cases (name old_phone new_phone : string) (w : world) :
  (AddressBook.find name (book w) = None ->
   change_phone [name; old_phone; new_phone] w =
   (display ("Contact " ++ name ++ " not found.") w, None)) /\
  (forall r,
     AddressBook.find name (book w) = Some r ->
     Record.find_phone old_phone r = None ->
     change_phone [name; old_phone; new_phone] w =
     (display ("Error: Old phone number " ++ old_phone ++ " not found for "
               ++ name ++ ".") w, None)) /\
  (forall r,
     AddressBook.find name (book w) = Some r ->
     Record.find_phone old_phone r <> None -> ~ ten_digits new_phone ->
     change_phone [name; old_phone; new_phone] w =
     (display "Error: New phone number must be 10 digits" w, None)) /\
  (forall r,
     AddressBook.find name (book w) = Some r ->
     Record.find_phone old_phone r <> None -> ten_digits new_phone ->
     exists l1 l2,
       Record.phones r = (l1 ++ Phone.mk old_phone :: l2)%list /\
       (forall p, In p l1 -> Phone.value p <> old_phone) /\
       change_phone [name; old_phone; new_phone] w =
       (mkworld
          (dict.setitem name
             (Record.mk (Record.name r)
                (l1 ++ Phone.mk new_phone :: l2)%list
                (Record.birthday r)) (book w))
          (shown w ++ [("Phone number updated for " ++ name ++ ".")%string])%list,
        None)).
Proof.
  destruct (change_phone_table name old_phone new_phone w) as (H1 & H2 & H3 & H4).
  split; [exact H1|]. split; [exact H2|]. split; [exact H3|].
  intros r E Hsome Hok. rewrite (H4 r E Hsome Hok).
  apply existsb_find_phone, existsb_phone in Hsome.
  destruct (edit_loop_first old_phone new_phone _ Hsome) as (l1 & l2 & Hp & Hl1 & He).
  exists l1, l2. rewrite He. auto.
Qed.

Lemma change_phone_cases_witness :
  (exists l1 l2,
     [Phone.mk "3333333333"; Phone.mk "1111111111"; Phone.mk "1111111111"] =
     (l1 ++ Phone.mk "1111111111" :: l2)%list /\
     (forall p, In p l1 -> Phone.value p <> "1111111111") /\
     change_phone ["Ann"; "1111111111"; "2222222222"]
       (mkworld
          [("Ann", Record.mk (Name.mk "Ann")
                     [Phone.mk "3333333333"; Phone.mk "1111111111";
                      Phone.mk "1111111111"] None)] []) =
     (mkworld
        [("Ann", Record.mk (Name.mk "Ann") (l1 ++ Phone.mk "2222222222" :: l2)%list
                   None)]
        ["Phone number updated for Ann."], None)) /\
  change_phone ["Ann"; "1111111111"; "22"]
    (mkworld [("Ann", Record.mk (Name.mk "Ann") [Phone.mk "1111111111"] None)] []) =
  (mkworld [("Ann", Record.mk (Name.mk "Ann") [Phone.mk "1111111111"] None)]
     ["Error: New phone number must be 10 digits"], None).
Proof.
  split.
  - apply (proj2 (proj2 (proj2 (change_phone_cases "Ann" "1111111111" "2222222222"
             (mkworld
                [("Ann", Record.mk (Name.mk "Ann")
                           [Phone.mk "3333333333"; Phone.mk "1111111111";
                            Phone.mk "1111111111"] None)] []))))
             (Record.mk (Name.mk "Ann")
                [Phone.mk "3333333333"; Phone.mk "1111111111";
                 Phone.mk "1111111111"] None)).
    + reflexivity.
    + discriminate.
    + split; reflexivity.
  - apply (proj1 (proj2 (proj2 (change_phone_cases "Ann" "1111111111" "22"
             (mkworld [("Ann", Record.mk (Name.mk "Ann") [Phone.mk "1111111111"] None)]
                [])))) (Record.mk (Name.mk "Ann") [Phone.mk "1111111111"] None)).
    + reflexivity.
    + discriminate.
    + intros [H _]. discriminate H.
Defined.

(** Of two equal phones [change_phone] changes only the first. *)
Example change_phone_duplicates :
  change_phone ["Ann"; "1111111111"; "2222222222"]
    (mkworld
       [("Ann", Record.mk (Name.mk "Ann")
                  [Phone.mk "3333333333"; Phone.mk "1111111111";
                   Phone.mk "1111111111"] None)] []) =
  (mkworld
     [("Ann", Record.mk (Name.mk "Ann")
                [Phone.mk "3333333333"; Phone.mk "2222222222";
                 Phone.mk "1111111111"] None)]
     ["Phone number updated for Ann."], None).
Proof. reflexivity. Qed.

Lemma old_phone_message_differs (old_phone rest : string) :
  "Error: Old phone number " ++ old_phone ++ " not found for " ++ rest <>
  "Error: Old phone number is not exist".
Proof.
  cbn [append]. intros H. injection H as H.
  repeat (destruct old_phone as [|? old_phone]; cbn [append] in H;
          [discriminate H | injection H as _ H]).
  destruct old_phone; discriminate H.
Qed.

(** X19: whatever its arguments, [change_phone] returns no error text and
    displays exactly one message, which is never the message "Old phone
    number is not exist" of [edit_phone]; and the book changes at most when
    the message is "Phone number updated for ...". *)
Theorem change_phone_reports_everything (args : list string) (w : world) :
  snd (change_phone args w) = None /\
  exists message,
    shown (fst (change_phone args w)) = (shown w ++ [message])%list /\
    message <> "Error: Old phone number is not exist" /\
    ((forall name, message <> "Phone number updated for " ++ name ++ ".") ->
     book (fst (change_phone args w)) = book w).
Proof.
  destruct args as [|name [|old_phone [|new_phone [|extra args]]]];
    try (split; [reflexivity|]; eexists; split; [reflexivity|];
         split; [discriminate | reflexivity]).
  destruct (AddressBook.find name (book w)) as [r|] eqn:E.
  - destruct (Record.find_phone old_phone r) as [p|] eqn:Ef.
    + assert (Hsome : Record.find_phone old_phone r <> None) by congruence.
      destruct ((len new_phone =? 10) && str_all char_isdigit new_phone) eqn:Ev.
      * apply ten_digits_dec in Ev.
        rewrite (proj2 (proj2 (proj2 (change_phone_table name old_phone new_phone w)))
                   r E Hsome Ev).
        split; [reflexivity|]. eexists. split; [reflexivity|].
        split; [discriminate|]. intros H. exfalso. now apply (H name).
      * assert (Hbad : ~ ten_digits new_phone).
        { intros H. apply ten_digits_dec in H. congruence. }
        rewrite (proj1 (proj2 (proj2 (change_phone_table name old_phone new_phone w)))
                   r E Hsome Hbad).
        split; [reflexivity|]. eexists. split; [reflexivity|].
        split; [discriminate | reflexivity].
    + rewrite (proj1 (proj2 (change_phone_table name old_phone new_phone w)) r E Ef).
      split; [reflexivity|]. eexists. split; [reflexivity|].
      split; [apply old_phone_message_differs | reflexivity].
  - rewrite (proj1 (change_phone_table name old_phone new_phone w) E).
    split; [reflexivity|]. eexists. split; [reflexivity|].
    split; [discriminate | reflexivity].
Qed.

Lemma change_phone_reports_everything_witness :
  snd (change_phone ["Ann"; "1111111111"] (mkworld scenario_book [])) = None.
Proof.
  apply (proj1 (change_phone_reports_everything ["Ann"; "1111111111"]
                  (mkworld scenario_book []))).
Defined.

(** X20: after [add_contact] gave a new name one phone and then another,
    [show_phone] displays the two numbers in that order, separated by a
    comma and a space. *)
Theorem show_phone_after_add_contact (name phone1 phone2 : string) (w : world) :
  AddressBook.find name (book w) = None ->
  ten_digits phone1 -> ten_digits phone2 ->
  let w2 := fst (add_contact [name; phone2] (fst (add_contact [name; phone1] w))) in
  shown w2 = (shown w ++ ["Contact added."; "Contact updated."])%list /\
  show_phone [name] w2 =
  (display (name ++ "'s phone number is " ++ join ", " [phone1; phone2] ++ ".") w2,
   None).
Proof.
  intros E H1 H2. cbv zeta.
  rewrite (add_contact_accepted name phone1 [] w H1), E. cbn [fst].
  rewrite (add_contact_accepted name phone2 [] _ H2). cbn [book shown].
  assert (Hf : AddressBook.find name
                 (book w ++ [(name, Record.mk (Name.mk name) [Phone.mk phone1] None)])%list
               = Some (Record.mk (Name.mk name) [Phone.mk phone1] None)).
  { apply find_none_contains in E. rewrite <- (setitem_absent _ _ _ E).
    apply get_setitem_eq. }
  rewrite Hf. cbn [fst shown Record.name Record.phones Record.birthday].
  split; [now rewrite <- app_assoc|].
  unfold show_phone, show_phone_func. cbn [book].
  unfold AddressBook.find. rewrite get_setitem_eq. reflexivity.
Qed.

Lemma show_phone_after_add_contact_witness :
  show_phone ["Ann"]
    (fst (add_contact ["Ann"; "2222222222"]
            (fst (add_contact ["Ann"; "1111111111"] (mkworld AddressBook.init []))))) =
  (mkworld
     [("Ann", Record.mk (Name.mk "Ann")
                [Phone.mk "1111111111"; Phone.mk "2222222222"] None)]
     ["Contact added."; "Contact updated.";
      "Ann's phone number is 1111111111, 2222222222."], None).
Proof.
  apply (show_phone_after_add_contact "Ann" "1111111111" "2222222222"
           (mkworld AddressBook.init [])).
  - reflexivity.
  - split; reflexivity.
  - split; reflexivity.
Defined.

(** The book after a command that shows something. *)
Lemma show_book (args : list string) (today : datetime.date)
    (w : world) :
  book (fst (show_phone args w)) = book w /\
  book (fst (show_birthday args w)) = book w /\
  book (fst (show_all_contacts w)) = book w /\
  book (fst (birthdays_command today w)) = book w.
Proof.
  split; [|split; [|split]].
  - unfold show_phone, show_phone_func.
    destruct args as [|name [|x args]]; try reflexivity.
    destruct (AddressBook.find name (book w)); reflexivity.
  - unfold show_birthday, show_birthday_func.
    destruct args as [|name args]; [reflexivity|].
    destruct (AddressBook.find name (book w)) as [[n ps [b|]]|]; reflexivity.
  - unfold show_all_contacts, show_all_contacts_func.
    destruct (map Record.str (dict.values (book w))); reflexivity.
  - unfold birthdays_command, birthdays_func.
    destruct (birthdays today (book w)); reflexivity.
Qed.

(** X21: the commands that show something never change the book:
    [show_phone], [show_birthday], [show_all_contacts] and [birthdays]. *)
Theorem show_commands_keep_the_book (args : list string) (today : datetime.date)
    (w : world) :
  book (fst (show_phone args w)) = book w /\
  book (fst (show_birthday args w)) = book w /\
  book (fst (show_all_contacts w)) = book w /\
  book (fst (birthdays_command today w)) = book w.
Proof. exact (show_book args today w). Qed.

(** The view after a decorated command. *)
Lemma commands_one_message (args : list string)
    (today : datetime.date) (w : world) :
  one_message_or_error w (add_contact args w) /\
  one_message_or_error w (add_birthday args w) /\
  one_message_or_error w (show_birthday args w) /\
  one_message_or_error w (birthdays_command today w) /\
  one_message_or_error w (change_phone args w) /\
  one_message_or_error w (show_phone args w) /\
  one_message_or_error w (show_all_contacts w).
Proof.
  unfold one_message_or_error.
  split; [|split; [|split; [|split; [|split; [|split]]]]].
  - unfold add_contact, add_contact_func.
    destruct args as [|name [|phone args]]; try reflexivity.
    destruct (AddressBook.find name (book w)) as [r|];
      destruct (negb (is_empty phone)); try (eexists; reflexivity);
      destruct (Record.add_phone phone _) as [r' [[]|e]];
      try (eexists; reflexivity); reflexivity.
  - unfold add_birthday, add_birthday_func.
    destruct args as [|name [|raw [|x args]]]; try reflexivity.
    destruct (AddressBook.find name (book w)) as [r|]; [|eexists; reflexivity].
    destruct (Record.add_birthday raw r) as [r' [[]|e]];
      [eexists; reflexivity | reflexivity].
  - unfold show_birthday, show_birthday_func.
    destruct args as [|name args]; [reflexivity|].
    destruct (AddressBook.find name (book w)) as [[n ps [b|]]|];
      eexists; reflexivity.
  - unfold birthdays_command, birthdays_func.
    destruct (birthdays today (book w)); [eexists; reflexivity | reflexivity].
  - unfold change_phone, change_phone_func.
    destruct args as [|name [|old_phone [|new_phone [|x args]]]];
      try (eexists; reflexivity).
    destruct (AddressBook.find name (book w)) as [r|]; [|eexists; reflexivity].
    destruct (negb _); [eexists; reflexivity|].
    destruct (Record.edit_phone old_phone new_phone r) as [r' [[]|[msg|msg]]];
      try (eexists; reflexivity); reflexivity.
  - unfold show_phone, show_phone_func.
    destruct args as [|name [|x args]]; try (eexists; reflexivity).
    destruct (AddressBook.find name (book w)); eexists; reflexivity.
  - unfold show_all_contacts, show_all_contacts_func.
    destruct (map Record.str (dict.values (book w))); eexists; reflexivity.
Qed.

(** X22: a decorated command that returns [None] has displayed exactly one
    message, and one that returns the text of an error has displayed
    nothing; the messages displayed before are kept. *)
Theorem commands_display_once_or_fail_silently (args : list string)
    (today : datetime.date) (w : world) :
  one_message_or_error w (add_contact args w) /\
  one_message_or_error w (add_birthday args w) /\
  one_message_or_error w (show_birthday args w) /\
  one_message_or_error w (birthdays_command today w) /\
  one_message_or_error w (change_phone args w) /\
  one_message_or_error w (show_phone args w) /\
  one_message_or_error w (show_all_contacts w).
Proof. exact (commands_one_message args today w). Qed.

(** ** The main loop *)

Lemma strip_not_empty_parse (line : string) :
  is_empty (strip line) = false ->
  exists command args, parse_input (strip line) = command :: args.
Proof.
  intros H. destruct (parse_input (strip line)) as [|command args] eqn:E.
  - destruct (split_strip line) as (H1 & H2 & _).
    rewrite H1 in E. apply H2 in E. rewrite E in H. discriminate.
  - now exists command, args.
Qed.

(** X23: the unpacking [command, *args = parse_input(user_input)] of [main]
    never fails: a line that is not empty after [strip] has a first word.
    So [main] ends only by "close" or "exit" or when [input] has no line
    left. *)
Theorem main_always_has_a_command (inputs : list event) :
  snd (main inputs) <> UnpackFailed /\
  forall w, snd (main_loop inputs w) <> UnpackFailed.
Proof.
  assert (H : forall w, snd (main_loop inputs w) <> UnpackFailed).
  { induction inputs as [|ev rest IH]; intros w; simpl; [discriminate|].
    destruct (is_empty (strip (ev_line ev))) eqn:E; [apply IH|].
    destruct (strip_not_empty_parse _ E) as (command & args & ->).
    match goal with |- context [if ?c then _ else _] => destruct c end;
      [discriminate | apply IH]. }
  split; [apply H | exact H].
Qed.

Lemma main_loop_not_exit (ev : event) (rest : list event) (w : world) :
  is_exit ev = false -> main_loop (ev :: rest) w = main_loop rest (handle ev w).
Proof.
  unfold is_exit, handle. intros H. cbn [main_loop]. cbv zeta.
  destruct (is_empty (strip (ev_line ev))) eqn:E; [reflexivity|].
  destruct (strip_not_empty_parse _ E) as (command & args & Hp).
  rewrite Hp in *. now rewrite H.
Qed.

Lemma main_loop_exit (ev : event) (rest : list event) (w : world) :
  is_exit ev = true -> main_loop (ev :: rest) w = (display "Good bye!" w, Closed).
Proof.
  unfold is_exit. intros H. cbn [main_loop]. cbv zeta.
  destruct (parse_input (strip (ev_line ev))) as [|command args] eqn:Hp;
    [discriminate|].
  destruct (is_empty (strip (ev_line ev))) eqn:E.
  - destruct (strip (ev_line ev)); [discriminate Hp | discriminate E].
  - now rewrite H.
Qed.

(** X24: [main] stops at the first line whose first word is "close" or
    "exit": it displays "Good bye!" after what the lines before displayed
    and reads no line after it; without such a line it goes on until
    [input] has no line left. *)
Theorem main_stops_at_first_exit (before : list event) (w : world) :
  forallb (fun ev => negb (is_exit ev)) before = true ->
  main_loop before w = (fold_left (fun w ev => handle ev w) before w, EndOfInput) /\
  forall ev after,
    is_exit ev = true ->
    main_loop (before ++ ev :: after) w =
    (display "Good bye!" (fold_left (fun w ev => handle ev w) before w), Closed).
Proof.
  revert w. induction before as [|e before IH]; intros w H.
  - split; [reflexivity|]. intros ev after Hev. now apply main_loop_exit.
  - simpl in H. apply andb_true_iff in H. destruct H as [He H].
    apply negb_true_iff in He. destruct (IH (handle e w) H) as [IH1 IH2].
    split.
    + rewrite main_loop_not_exit by exact He. exact IH1.
    + intros ev after Hev. cbn [app].
      rewrite main_loop_not_exit by exact He. now apply IH2.
Qed.

Lemma main_stops_at_first_exit_witness :
  main_loop
    ([mkevent "hello" today_2024_06_10] ++
     mkevent " exit now" today_2024_06_10 :: [mkevent "hello" today_2024_06_10])
    (mkworld AddressBook.init []) =
  (mkworld AddressBook.init ["How can I help you?"; "Good bye!"], Closed).
Proof.
  apply (proj2 (main_stops_at_first_exit [mkevent "hello" today_2024_06_10]
                  (mkworld AddressBook.init []) eq_refl)).
  reflexivity.
Defined.

Lemma dispatch_shown (command : string) (args : list string) (today : datetime.date)
    (w : world) :
  exists more,
    shown (dispatch command args today w) = (shown w ++ more)%list /\
    (List.length more <= 1)%nat.
Proof.
  assert (H : forall r, one_message_or_error w r ->
                exists more, shown (fst r) = (shown w ++ more)%list /\
                             (List.length more <= 1)%nat).
  { intros [w' [e|]]; unfold one_message_or_error; cbn [fst snd].
    - intros ->. exists []. split; [now rewrite app_nil_r | simpl; lia].
    - intros [m ->]. exists [m]. split; [reflexivity | simpl; lia]. }
  destruct (commands_one_message args today w)
    as (H1 & H2 & H3 & H4 & H5 & H6 & H7).
  unfold dispatch.
  repeat match goal with
         | |- context [if ?c then _ else _] => destruct c
         end;
    first [ apply H; assumption
          | eexists [_]; split; [reflexivity | simpl; lia] ].
Qed.

(** X25: [main] displays "Welcome to the assistant bot!" first and then at
    most one message for every line it reads; a message once displayed
    stays where it is. *)
Theorem main_displays_in_order (inputs : list event) :
  (exists more,
     shown (fst (main inputs)) = "Welcome to the assistant bot!" :: more /\
     (List.length more <= List.length inputs)%nat) /\
  forall w,
    exists more,
      shown (fst (main_loop inputs w)) = (shown w ++ more)%list /\
      (List.length more <= List.length inputs)%nat.
Proof.
  assert (H : forall w,
             exists more,
               shown (fst (main_loop inputs w)) = (shown w ++ more)%list /\
               (List.length more <= List.length inputs)%nat).
  { induction inputs as [|ev rest IH]; intros w.
    - exists []. split; [now rewrite app_nil_r | simpl; lia].
    - destruct (is_exit ev) eqn:Ex.
      + rewrite main_loop_exit by exact Ex. exists ["Good bye!"].
        split; [reflexivity | simpl; lia].
      + rewrite main_loop_not_exit by exact Ex.
        destruct (IH (handle ev w)) as (more & Hm & Hl).
        assert (Hh : exists m1, shown (handle ev w) = (shown w ++ m1)%list /\
                                (List.length m1 <= 1)%nat).
        { unfold handle. destruct (is_empty (strip (ev_line ev))).
          - exists ["Command not entered. Please enter a command."].
            split; [reflexivity | simpl; lia].
          - destruct (parse_input (strip (ev_line ev))) as [|command args].
            + exists []. split; [now rewrite app_nil_r | simpl; lia].
            + apply dispatch_shown. }
        destruct Hh as (m1 & Hm1 & Hl1). exists (m1 ++ more)%list.
        rewrite Hm, Hm1, <- app_assoc. split; [reflexivity|].
        rewrite length_app. simpl. lia. }
  split; [|exact H].
  destruct (H (display "Welcome to the assistant bot!" (mkworld AddressBook.init [])))
    as (more & Hm & Hl).
  exists more. split; [exact Hm | exact Hl].
Qed.

(** *** What the book of a session is like *)

Lemma keys_setitem_present {V : Type} (k : string) (v v' : V) (d : dict.t V) :
  dict.get k d = Some v -> dict.keys (dict.setitem k v' d) = dict.keys d.
Proof.
  intros H. rewrite keys_setitem.
  now rewrite (get_some_contains _ _ _ H).
Qed.

Lemma session_store (b : AddressBook.t) (name : string) (r r' : Record.t) :
  session_book b -> dict.get name b = Some r ->
  Record.name r' = Record.name r -> valid_phones r' -> valid_birthday r' ->
  session_book (dict.setitem name r' b).
Proof.
  intros ((Hwf & Hk & Hv) & Hw) Hget Hn Hp Hb.
  split; [split; [|split]|].
  - now apply wf_setitem.
  - apply keyed_setitem; [|exact Hk]. rewrite Hn. apply Hk.
    now apply get_some_in.
  - intros k x Hin. apply in_setitem in Hin.
    destruct Hin as [[= -> ->]|Hin]; [now split | now apply (Hv k)].
  - now rewrite (keys_setitem_present _ _ _ _ Hget).
Qed.

Lemma session_invoke (b : AddressBook.t) (name : string) (r : Record.t) (m : method) :
  session_book b -> dict.get name b = Some r ->
  session_book (dict.setitem name (fst (invoke m r)) b).
Proof.
  intros Hs Hget. pose proof Hs as ((_ & _ & Hv) & _).
  destruct (Hv name r (get_some_in _ _ _ Hget)) as [Hp Hb].
  apply (session_store b name r); auto.
  - apply invoke_name.
  - now apply invoke_valid_phones.
  - now apply invoke_valid_birthday.
Qed.

Lemma session_add_init (b : AddressBook.t) (name : string) :
  session_book b -> is_word name -> dict.get name b = None ->
  session_book (AddressBook.add_record (Record.init name) b).
Proof.
  intros ((Hwf & Hk & Hv) & Hw) Hname Hget. unfold AddressBook.add_record.
  cbn [Record.init Record.name Name.value].
  split; [split; [|split]|].
  - now apply wf_setitem.
  - now apply keyed_setitem.
  - intros k x Hin. apply in_setitem in Hin.
    destruct Hin as [[= -> ->]|Hin]; [|now apply (Hv k)].
    split; [intros p [] | intros y [=]].
  - rewrite keys_setitem. apply get_none, contains_false in Hget. rewrite Hget.
    apply Forall_app. split; [exact Hw | now constructor].
Qed.

Lemma add_contact_book (name phone : string) (more : list string) (w : world) :
  book (fst (add_contact (name :: phone :: more) w)) =
  let b1 :=
    match AddressBook.find name (book w) with
    | None => AddressBook.add_record (Record.init name) (book w)
    | Some _ => book w
    end in
  let record :=
    match AddressBook.find name (book w) with
    | None => Record.init name
    | Some r => r
    end in
  if negb (is_empty phone) then
    dict.setitem name (fst (invoke (call_add_phone phone) record)) b1
  else b1.
Proof.
  unfold add_contact, add_contact_func. cbn [invoke].
  destruct (AddressBook.find name (book w)) as [r|];
    destruct (negb (is_empty phone)); try reflexivity;
    destruct (Record.add_phone phone _) as [r' [[]|e]]; reflexivity.
Qed.

Lemma add_birthday_book (name raw : string) (w : world) :
  book (fst (add_birthday [name; raw] w)) =
  match AddressBook.find name (book w) with
  | Some r => dict.setitem name (fst (invoke (call_add_birthday raw) r)) (book w)
  | None => book w
  end.
Proof.
  unfold add_birthday, add_birthday_func. cbn [invoke].
  destruct (AddressBook.find name (book w)) as [r|]; [|reflexivity].
  destruct (Record.add_birthday raw r) as [r' [[]|e]]; reflexivity.
Qed.

Lemma change_phone_book (name old_phone new_phone : string) (w : world) :
  book (fst (change_phone [name; old_phone; new_phone] w)) = book w \/
  exists r,
    AddressBook.find name (book w) = Some r /\
    book (fst (change_phone [name; old_phone; new_phone] w)) =
    dict.setitem name (fst (invoke (call_edit_phone old_phone new_phone) r)) (book w).
Proof.
  unfold change_phone, change_phone_func. cbn [invoke].
  destruct (AddressBook.find name (book w)) as [r|]; [|now left].
  destruct (negb _); [now left|]. right. exists r. split; [reflexivity|].
  destruct (Record.edit_phone old_phone new_phone r) as [r' [[]|[msg|msg]]];
    reflexivity.
Qed.

Lemma dispatch_session (command : string) (args : list string)
    (today : datetime.date) (w : world) :
  Forall is_word args -> session_book (book w) ->
  session_book (book (dispatch command args today w)).
Proof.
  intros Hargs Hs. unfold dispatch.
  destruct (show_book args today w) as (K1 & K2 & K3 & K4).
  repeat match goal with
         | |- context [if ?c then _ else _] => destruct c
         end; try assumption; try congruence.
  - (* add *)
    destruct args as [|name [|phone more]]; try assumption.
    rewrite add_contact_book. cbv zeta.
    inversion Hargs as [|? ? Hname _]; subst.
    destruct (AddressBook.find name (book w)) as [r|] eqn:E.
    + destruct (negb (is_empty phone)); [now apply session_invoke | assumption].
    + pose proof (session_add_init _ _ Hs Hname E) as Hs1.
      destruct (negb (is_empty phone)); [|assumption].
      apply session_invoke; [assumption|].
      unfold AddressBook.add_record. cbn [Record.init Record.name Name.value].
      apply get_setitem_eq.
  - (* change *)
    destruct args as [|name [|old_phone [|new_phone [|x more]]]]; try assumption.
    destruct (change_phone_book name old_phone new_phone w) as [->|(r & E & ->)];
      [assumption | now apply session_invoke].
  - (* add-birthday *)
    destruct args as [|name [|raw [|x more]]]; try assumption.
    rewrite add_birthday_book.
    destruct (AddressBook.find name (book w)) as [r|] eqn:E;
      [now apply session_invoke | assumption].
Qed.

(** X26: in the book of [main], after any lines whatever: no two records
    have the same name, every record is stored under its own name, every
    phone is ten digits in the sense of [Phone], every birthday is a date
    of the calendar, and every name is a non-empty word without white
    space. *)
Theorem main_keeps_the_book_sound (inputs : list event) :
  session_book (book (fst (main inputs))).
Proof.
  unfold main.
  assert (H : forall w, session_book (book w) ->
                        session_book (book (fst (main_loop inputs w)))).
  { induction inputs as [|ev rest IH]; intros w Hw; [exact Hw|].
    destruct (is_exit ev) eqn:Ex.
    - now rewrite main_loop_exit.
    - rewrite main_loop_not_exit by exact Ex. apply IH.
      unfold handle. destruct (is_empty (strip (ev_line ev))); [exact Hw|].
      destruct (parse_input (strip (ev_line ev))) as [|command args] eqn:Hp;
        [exact Hw|].
      apply dispatch_session; [|exact Hw].
      pose proof (split_loop_words (strip (ev_line ev)) EmptyString eq_refl) as Hwords.
      fold (split (strip (ev_line ev))) in Hwords.
      fold (parse_input (strip (ev_line ev))) in Hwords.
      rewrite Hp in Hwords. now inversion Hwords. }
  apply H. cbn. split; [split; [constructor | split; intros ? ? []] | constructor].
Qed.
